(** * signalstrader: signal normalisation, order execution and the Redis subscriber

    A shallow embedding of [src/signalParser.ts], [src/tradeExecutor.ts] and
    [src/signalSubscriber.ts], with the properties of the design document
    stated and proved (or refuted) over it.

    Modelling conventions.
    - A JavaScript [number] is a [jsnum]: an exact rational, or one of the
      three non-finite values.  Arithmetic on finite numbers is exact
      rational arithmetic.  Where the outcome depends on binary64 rounding,
      as the SELL size does, the arithmetic is evaluated a second time in
      IEEE binary64 (module [Binary64]).
    - Strings are [string]s of 8-bit characters; [trim] and [toLowerCase]
      act on the ASCII range.
    - [unknown] values (parsed JSON, client responses) are [jsval]s.
    - The host functions whose result depends on the JavaScript engine
      ([Number] on a string, [parseFloat], [Date.parse], number printing,
      [JSON.parse]) are fields of a [JsRuntime] every definition is
      parametric in.
    - [async] methods become state-passing functions; what the outside world
      answers (client responses, connection outcomes, clock readings) is an
      argument, and every call made to a collaborator is appended to a log.
      A connection attempt may also never settle: the method then stays at
      its [await], and what is returned is the object as it is left there.
    - [logInfo]/[logWarn]/[logError] only print and are left out. *)

From Stdlib Require Import ZArith QArith Qround Qabs Qminmax.
From Stdlib Require Import String Ascii List Bool Lia.
From Stdlib Require SpecFloat.
Import ListNotations.

Local Open Scope bool_scope.
#[local] Set Warnings "-register-all".

(* ------------------------------------------------------------------ *)
(** ** JavaScript numbers *)

Inductive jsnum : Type :=
| Fin (q : Q)
| NaN
| PosInf
| NegInf.

(** [Number.isFinite] *)
Definition isFinite (n : jsnum) : bool :=
  match n with Fin _ => true | _ => false end.

Definition Qlt_bool (x y : Q) : bool := negb (Qle_bool y x).

(** [Math.pow(10, d)] for a literal, non-negative [d]. *)
Definition pow10 (d : nat) : positive := Nat.iter d (Pos.mul 10) 1%positive.

(** [Math.floor(value * factor) / factor] with [factor = Math.pow(10, decimals)]
    ([TradeExecutor.roundDown]). *)
Definition roundDown (value : Q) (decimals : nat) : Q :=
  let factor := pow10 decimals in
  Qfloor (value * inject_Z (Zpos factor)) # factor.

(** [Number(x.toFixed(d))]: [toFixed] picks the integer [n] with [n / 10^d]
    nearest to [|x|], the larger one on a tie, keeps the sign, and prints the
    number itself once [|x| >= 10^21]. *)
Definition toFixed (d : nat) (x : Q) : Q :=
  let scale := pow10 d in
  let nearest (y : Q) : Z := Qfloor (y * inject_Z (Zpos scale) + (1 # 2)) in
  if Qle_bool (inject_Z (10 ^ 21)) (Qabs x) then x
  else if Qlt_bool x 0 then - (nearest (- x) # scale)
  else nearest x # scale.

(* ------------------------------------------------------------------ *)
(** ** JavaScript values and coercions *)

Inductive jsval : Type :=
| JUndefined
| JNull
| JBool (b : bool)
| JNum (n : jsnum)
| JStr (s : string)
| JArr (items : list jsval)
| JObj (fields : list (string * jsval)).

(** [Record<string, unknown>]: the own properties of a plain object. *)
Definition payload : Type := list (string * jsval).

(** Property read [o.k]; an absent property reads [undefined]. *)
Fixpoint prop (o : payload) (k : string) : jsval :=
  match o with
  | [] => JUndefined
  | (k', v) :: rest => if String.eqb k k' then v else prop rest k
  end.

(** [a ?? b] *)
Definition nullish (v : jsval) : bool :=
  match v with JUndefined | JNull => true | _ => false end.

Definition coalesce (a b : jsval) : jsval := if nullish a then b else a.

Notation "a ?? b" := (coalesce a b) (at level 45, left associativity).

(** [v !== undefined] *)
Definition defined (v : jsval) : bool :=
  match v with JUndefined => false | _ => true end.

(** ToBoolean *)
Definition truthy (v : jsval) : bool :=
  match v with
  | JUndefined | JNull => false
  | JBool b => b
  | JNum (Fin q) => negb (Qeq_bool q 0)
  | JNum NaN => false
  | JNum _ => true
  | JStr s => negb (String.eqb s "")
  | JArr _ | JObj _ => true
  end.

(** [raw || ''] *)
Definition or_empty (raw : jsval) : jsval :=
  if truthy raw then raw else JStr "".

(** What the JavaScript engine provides. *)
Record JsRuntime : Type := {
  (** [Number(s)] for a string [s] *)
  num_of_string : string -> jsnum;
  (** [Number.parseFloat(s)] *)
  parse_float : string -> jsnum;
  (** [Date.parse(s)]; [None] stands for [NaN] *)
  date_parse : string -> option Z;
  (** [String(n)] for a number [n] *)
  string_of_num : jsnum -> string;
  (** [JSON.parse(s)]; [None] when it throws *)
  json_parse : string -> option jsval
}.

(* ------------------------------------------------------------------ *)
(** ** String helpers *)

Definition is_ws (c : ascii) : bool :=
  let n := nat_of_ascii c in
  (Nat.leb 9 n && Nat.leb n 13) || Nat.eqb n 32.

Fixpoint trimStart (s : string) : string :=
  match s with
  | EmptyString => EmptyString
  | String c rest => if is_ws c then trimStart rest else s
  end.

Fixpoint trimEnd (s : string) : string :=
  match s with
  | EmptyString => EmptyString
  | String c rest =>
      match trimEnd rest with
      | EmptyString => if is_ws c then EmptyString else String c EmptyString
      | rest' => String c rest'
      end
  end.

Definition trim (s : string) : string := trimEnd (trimStart s).

Definition lower_ascii (c : ascii) : ascii :=
  let n := nat_of_ascii c in
  if Nat.leb 65 n && Nat.leb n 90 then ascii_of_nat (n + 32) else c.

Fixpoint toLowerCase (s : string) : string :=
  match s with
  | EmptyString => EmptyString
  | String c rest => String (lower_ascii c) (toLowerCase rest)
  end.

(** [s.includes(c)] for a one-character needle. *)
Fixpoint includes_char (c : ascii) (s : string) : bool :=
  match s with
  | EmptyString => false
  | String c' rest => Ascii.eqb c c' || includes_char c rest
  end.

(** The character class [[a-z0-9-]]. *)
Definition slug_char (c : ascii) : bool :=
  let n := nat_of_ascii c in
  (Nat.leb 97 n && Nat.leb n 122) || (Nat.leb 48 n && Nat.leb n 57) || Nat.eqb n 45.

Fixpoint all_chars (f : ascii -> bool) (s : string) : bool :=
  match s with
  | EmptyString => true
  | String c rest => f c && all_chars f rest
  end.

(** [/^[a-z0-9-]{6,}$/.test(s)] *)
Definition slug_regex (s : string) : bool :=
  all_chars slug_char s && Nat.leb 6 (String.length s).

(* ------------------------------------------------------------------ *)
(** ** Types of [src/types.ts] and the errors the code throws *)

Inductive SignalDirection : Type := BUY | SELL.
Inductive SignalToken : Type := UP | DOWN.

Record TradingSignal : Type := {
  timestampMs : Z;
  direction : SignalDirection;
  token : SignalToken;
  limitPrice : Q;
  marketSlug : string;
  raw : payload
}.

Record MarketUpdate : Type := {
  mu_timestampMs : Z;
  mu_marketSlug : string;
  mu_raw : payload
}.

Inductive ParsedRedisMessage : Type :=
| KindSignal (signal : TradingSignal)
| KindMarket (update : MarketUpdate).

Record ResolvedMarket : Type := {
  sourceText : string;
  eventSlug : string;
  rm_marketSlug : string;
  marketQuestion : string;
  upTokenId : string;
  downTokenId : string
}.

(** One constructor per [throw] site. *)
Inductive error : Type :=
| NotValidJson
| NotJsonObject
| InvalidDirection (raw : jsval)
| InvalidToken (raw : jsval)
| InvalidTimestamp (raw : jsval)
| InvalidPrice (raw : jsval)
| PriceOutOfRange (price : Q)
| MissingMarketSlug
| InvalidMarketSlug (raw : jsval)
| NoActiveMarket (signalSlug : string)
| MarketMismatch (active signalSlug : string)
| TradeFailed (message : string)
| Thrown (message : string).

Inductive result (A : Type) : Type :=
| Ok (a : A)
| Err (e : error).
Arguments Ok {A} a.
Arguments Err {A} e.

Definition rbind {A B : Type} (r : result A) (k : A -> result B) : result B :=
  match r with Ok a => k a | Err e => Err e end.

Notation "'let!' x ':=' r 'in' k" := (rbind r (fun x => k))
  (at level 10, x name, r at level 100, k at level 200).

Definition is_ok {A : Type} (r : result A) : bool :=
  match r with Ok _ => true | Err _ => false end.

(* ------------------------------------------------------------------ *)
(** ** [src/signalParser.ts] *)

Section SignalParser.

Variable rt : JsRuntime.

(** [String(v)] *)
Fixpoint js_String (v : jsval) : string :=
  match v with
  | JUndefined => "undefined"
  | JNull => "null"
  | JBool true => "true"
  | JBool false => "false"
  | JNum n => string_of_num rt n
  | JStr s => s
  | JArr items =>
      (* Array.prototype.join: null and undefined print as the empty string *)
      (fix join (l : list jsval) : string :=
         match l with
         | [] => ""
         | x :: rest =>
             let sx := if nullish x then "" else js_String x in
             match rest with
             | [] => sx
             | _ => sx ++ "," ++ join rest
             end
         end) items
  | JObj _ => "[object Object]"
  end%string.

(** [Number(v)] *)
Definition js_Number (v : jsval) : jsnum :=
  match v with
  | JUndefined => NaN
  | JNull => Fin 0
  | JBool true => Fin 1
  | JBool false => Fin 0
  | JNum n => n
  | JStr s => num_of_string rt s
  | JArr _ | JObj _ => num_of_string rt (js_String v)
  end.

Definition normalizeDirection (raw : jsval) : result SignalDirection :=
  let value := toLowerCase (trim (js_String (or_empty raw))) in
  if String.eqb value "buy" || String.eqb value "b" then Ok BUY
  else if String.eqb value "sell" || String.eqb value "s" then Ok SELL
  else Err (InvalidDirection raw).

Definition normalizeToken (raw : jsval) : result SignalToken :=
  let value := toLowerCase (trim (js_String (or_empty raw))) in
  if String.eqb value "up" || String.eqb value "yes"
     || String.eqb value "long" || String.eqb value "1" then Ok UP
  else if String.eqb value "down" || String.eqb value "no"
     || String.eqb value "short" || String.eqb value "0" then Ok DOWN
  else Err (InvalidToken raw).

(** [raw < 1e12 ? Math.floor(raw * 1000) : Math.floor(raw)] *)
Definition scaleTimestamp (q : Q) : Z :=
  if Qlt_bool q (inject_Z (10 ^ 12)) then Qfloor (q * 1000) else Qfloor q.

Definition normalizeTimestamp (raw : jsval) : result Z :=
  match raw with
  | JNum (Fin q) => Ok (scaleTimestamp q)
  | JStr s =>
      match num_of_string rt s with
      | Fin asNumber => Ok (scaleTimestamp asNumber)
      | _ =>
          match date_parse rt s with
          | Some parsedDate => Ok parsedDate
          | None => Err (InvalidTimestamp raw)
          end
      end
  | _ => Err (InvalidTimestamp raw)
  end.

Definition normalizePrice (raw : jsval) : result Q :=
  match js_Number raw with
  | Fin value =>
      let price := if Qlt_bool 1 value then value / 100 else value in
      if Qle_bool price 0 || Qle_bool 1 price then Err (PriceOutOfRange price)
      else Ok (toFixed 4 price)
  | _ => Err (InvalidPrice raw)
  end.

Definition normalizeMarketSlug (raw : jsval) : result string :=
  let value := toLowerCase (trim (js_String (or_empty raw))) in
  if String.eqb value "" then Err MissingMarketSlug
  else if negb (slug_regex value) then Err (InvalidMarketSlug raw)
  else Ok value.

(** After [JSON.parse]: [!payload || typeof payload !== 'object' ||
    Array.isArray(payload)] rejects everything but a plain object. *)
Definition objectOf (parsed : jsval) : result payload :=
  match parsed with
  | JObj fields => Ok fields
  | _ => Err NotJsonObject
  end.

Definition extractObject (rawMessage : string) : result payload :=
  match json_parse rt rawMessage with
  | None => Err NotValidJson
  | Some parsed => objectOf parsed
  end.

Definition timestampOf (p : payload) : jsval :=
  prop p "timestamp" ?? prop p "ts" ?? prop p "time".
Definition directionOf (p : payload) : jsval :=
  prop p "direction" ?? prop p "side" ?? prop p "orderSide" ?? prop p "action".
Definition tokenOf (p : payload) : jsval :=
  prop p "token" ?? prop p "outcome" ?? prop p "marketSide" ?? prop p "position".
Definition limitPriceOf (p : payload) : jsval :=
  prop p "limitPrice" ?? prop p "limit_price" ?? prop p "price".
Definition marketSlugOf (p : payload) : jsval :=
  prop p "market_slug" ?? prop p "marketSlug" ?? prop p "slug".

(** The object literal evaluates its fields top to bottom; the first
    normaliser that throws decides the error. *)
Definition parseSignalPayload (p : payload) : result TradingSignal :=
  let! ts := normalizeTimestamp (timestampOf p) in
  let! dir := normalizeDirection (directionOf p) in
  let! tok := normalizeToken (tokenOf p) in
  let! price := normalizePrice (limitPriceOf p) in
  let! slug := normalizeMarketSlug (marketSlugOf p) in
  Ok {| timestampMs := ts; direction := dir; token := tok;
        limitPrice := price; marketSlug := slug; raw := p |}.

Definition parseSignal (rawMessage : string) : result TradingSignal :=
  let! p := extractObject rawMessage in parseSignalPayload p.

Definition hasDirection (p : payload) : bool :=
  defined (prop p "direction") || defined (prop p "side")
  || defined (prop p "orderSide") || defined (prop p "action").
Definition hasToken (p : payload) : bool :=
  defined (prop p "token") || defined (prop p "outcome")
  || defined (prop p "marketSide") || defined (prop p "position").
Definition hasPrice (p : payload) : bool :=
  defined (prop p "limitPrice") || defined (prop p "limit_price")
  || defined (prop p "price").

(** The body of [parseRedisMessage] once [extractObject] has returned [p].
    [now] is the reading of [Date.now()] that stands in for a missing
    timestamp. *)
Definition parseRedisPayload (now : Z) (p : payload) : result ParsedRedisMessage :=
  let marketSlugRaw := marketSlugOf p in
  let timestampRaw := timestampOf p ?? JNum (Fin (inject_Z now)) in
  if negb (hasDirection p) && negb (hasToken p) && negb (hasPrice p) then
    let! ts := normalizeTimestamp timestampRaw in
    let! slug := normalizeMarketSlug marketSlugRaw in
    Ok (KindMarket {| mu_timestampMs := ts; mu_marketSlug := slug; mu_raw := p |})
  else
    let! s := parseSignalPayload p in Ok (KindSignal s).

Definition parseRedisMessage (now : Z) (rawMessage : string) : result ParsedRedisMessage :=
  let! p := extractObject rawMessage in parseRedisPayload now p.

End SignalParser.

(* ------------------------------------------------------------------ *)
(** ** [src/tradeExecutor.ts] *)

Definition SELL_SAFETY_BUFFER_SHARES : Q := 1 # 2.
Definition SELL_SIZE_DECIMALS : nat := 1.

(** [src/config.ts] *)
Definition HARD_CODED_SIGNAL_MAX_AGE_MS : Z := 1000.

(** The fields of [AppConfig] the modelled code reads. *)
Record AppConfig : Type := {
  redisHost : string;
  redisPort : Q;
  redisChannel : string;
  redisPassword : option string;
  signalMaxAgeMs : Z;
  sharesPerTrade : Q
}.

(** The CLOB client library, as far as the executor uses it. *)
Inductive Side : Type := SideBUY | SideSELL.
Inductive OrderType : Type := GTC | FOK | GTD | FAK.

Record UserOrder : Type := {
  tokenID : string;
  side : Side;
  price : Q;
  size : Q;
  expiration : Z;
  feeRateBps : Z
}.

Record SignedOrder : Type := {
  signedOrder : UserOrder;
  signature : string
}.

(** How an awaited promise settles; a rejection carries the message that
    [error instanceof Error ? error.message : String(error)] reads. *)
Inductive settled (A : Type) : Type :=
| Resolves (a : A)
| Rejects (message : string).
Arguments Resolves {A} a.
Arguments Rejects {A} message.

Record ClobClient : Type := {
  (** [typeof client.getBalanceAllowance === 'function'] *)
  has_getBalanceAllowance : bool;
  (** [typeof client.updateBalanceAllowance === 'function'] *)
  has_updateBalanceAllowance : bool;
  updateBalanceAllowance : string -> settled unit;
  getBalanceAllowance : string -> settled jsval;
  createOrder : UserOrder -> settled SignedOrder;
  postOrder : SignedOrder -> OrderType -> settled jsval
}.

(** The calls made to the client, in order. *)
Inductive ClientCall : Type :=
| CallUpdateBalanceAllowance (tokenId : string)
| CallGetBalanceAllowance (tokenId : string)
| CallCreateOrder (order : UserOrder)
| CallPostOrder (order : SignedOrder) (orderType : OrderType).

(** [Record<'UP' | 'DOWN', number>] *)
Record Shares : Type := { sharesUP : Q; sharesDOWN : Q }.

Definition getShares (k : Shares) (t : SignalToken) : Q :=
  match t with UP => sharesUP k | DOWN => sharesDOWN k end.

Definition setShares (k : Shares) (t : SignalToken) (v : Q) : Shares :=
  match t with
  | UP => {| sharesUP := v; sharesDOWN := sharesDOWN k |}
  | DOWN => {| sharesUP := sharesUP k; sharesDOWN := v |}
  end.

Definition noShares : Shares := {| sharesUP := 0; sharesDOWN := 0 |}.

Record TradeExecutor : Type := {
  market : option ResolvedMarket;
  sentCount : nat;
  failedCount : nat;
  lastTradeAtMs : option Z;
  lastOrderId : option string;
  lastTradeSummary : string;
  knownShares : Shares
}.

(** [new TradeExecutor(client, config)] *)
Definition newTradeExecutor : TradeExecutor :=
  {| market := None; sentCount := 0; failedCount := 0; lastTradeAtMs := None;
     lastOrderId := None; lastTradeSummary := "none"; knownShares := noShares |}.

Definition set_knownShares (k : Shares) (s : TradeExecutor) : TradeExecutor :=
  {| market := market s; sentCount := sentCount s; failedCount := failedCount s;
     lastTradeAtMs := lastTradeAtMs s; lastOrderId := lastOrderId s;
     lastTradeSummary := lastTradeSummary s; knownShares := k |}.

(** A method of the executor: from the object's state to its new state, the
    client calls made on the way, and the value returned or the error thrown.
    State changes and calls made before a throw are kept. *)
Definition Run (A : Type) : Type :=
  TradeExecutor -> TradeExecutor * list ClientCall * result A.

Definition ret {A : Type} (a : A) : Run A := fun s => (s, [], Ok a).

Definition throw {A : Type} (e : error) : Run A := fun s => (s, [], Err e).

Definition bind {A B : Type} (m : Run A) (k : A -> Run B) : Run B :=
  fun s =>
    match m s with
    | (s1, c1, Ok a) => let '(s2, c2, r) := k a s1 in (s2, c1 ++ c2, r)
    | (s1, c1, Err e) => (s1, c1, Err e)
    end.

(** [try { body } catch (error) { handler }] *)
Definition try_catch {A : Type} (body : Run A) (handler : error -> Run A) : Run A :=
  fun s =>
    match body s with
    | (s1, c1, Ok a) => (s1, c1, Ok a)
    | (s1, c1, Err e) => let '(s2, c2, r) := handler e s1 in (s2, c1 ++ c2, r)
    end.

Definition get_self : Run TradeExecutor := fun s => (s, [], Ok s).

Definition modify (f : TradeExecutor -> TradeExecutor) : Run unit :=
  fun s => (f s, [], Ok tt).

(** [await client.method(...)]: the call is logged and settles as the client
    says. *)
Definition await {A : Type} (c : ClientCall) (o : settled A) : Run A :=
  fun s => (s, [c], match o with Resolves a => Ok a | Rejects m => Err (Thrown m) end).

Declare Scope run_scope.
Delimit Scope run_scope with run.
Notation "x <- m ;; k" := (bind m (fun x => k))
  (at level 61, m at next level, right associativity) : run_scope.
Notation "m ;;; k" := (bind m (fun _ => k))
  (at level 61, right associativity) : run_scope.

(** [error instanceof Error ? error.message : String(error)] *)
Definition error_message (e : error) : string :=
  match e with
  | Thrown m | TradeFailed m => m
  | _ => "Error"
  end.

Definition direction_name (d : SignalDirection) : string :=
  match d with BUY => "BUY" | SELL => "SELL" end.

Definition token_name (t : SignalToken) : string :=
  match t with UP => "UP" | DOWN => "DOWN" end.

Definition is_quote (c : ascii) : bool :=
  Nat.eqb (nat_of_ascii c) 39 || Nat.eqb (nat_of_ascii c) 34.

Fixpoint strip_trailing_quote (s : string) : string :=
  match s with
  | EmptyString => EmptyString
  | String c EmptyString => if is_quote c then EmptyString else s
  | String c rest => String c (strip_trailing_quote rest)
  end.

(** [s.replace(/^['"]|['"]$/g, '')]: one quote character off each end. *)
Definition strip_quotes (s : string) : string :=
  strip_trailing_quote
    match s with
    | String c rest => if is_quote c then rest else s
    | EmptyString => EmptyString
    end.

(** [response?.k] *)
Definition opt_member (v : jsval) (k : string) : jsval :=
  match v with JObj fields => prop fields k | _ => JUndefined end.

Section TradeExecutorMethods.

Variable rt : JsRuntime.
Variable client : ClobClient.
Variable config : AppConfig.

Local Open Scope run_scope.

Definition updateMarket (m : ResolvedMarket) (s : TradeExecutor) : TradeExecutor :=
  let changed :=
    match market s with
    | None => true
    | Some cur =>
        negb (String.eqb (rm_marketSlug cur) (rm_marketSlug m))
        || negb (String.eqb (upTokenId cur) (upTokenId m))
        || negb (String.eqb (downTokenId cur) (downTokenId m))
    end in
  {| market := Some m; sentCount := sentCount s; failedCount := failedCount s;
     lastTradeAtMs := lastTradeAtMs s; lastOrderId := lastOrderId s;
     lastTradeSummary := lastTradeSummary s;
     knownShares := if changed then noShares else knownShares s |}.

Definition mapTokenToId (t : SignalToken) : Run string :=
  s <- get_self ;;
  match market s with
  | None => throw (Thrown "No active market is set.")
  | Some m => ret (match t with UP => upTokenId m | DOWN => downTokenId m end)
  end.

Definition mapDirection (d : SignalDirection) : Side :=
  match d with BUY => SideBUY | SELL => SideSELL end.

Definition parseMaybeFixed6 (value : jsval) : jsnum :=
  if nullish value then Fin 0
  else
    let text := strip_quotes (trim (js_String rt value)) in
    if String.eqb text "" then Fin 0
    else if includes_char "." text then
      match parse_float rt text with
      | Fin parsedFloat => Fin parsedFloat
      | _ => Fin 0
      end
    else
      match num_of_string rt text with
      | Fin parsedNumber =>
          if Qle_bool 100000 (Qabs parsedNumber) then Fin (parsedNumber / 1000000)
          else Fin parsedNumber
      | _ => Fin 0
      end.

(** [Number.isFinite(balance) && balance >= 0] *)
Definition usable_balance (balance : jsnum) : option Q :=
  match balance with
  | Fin q => if Qle_bool 0 q then Some q else None
  | _ => None
  end.

Definition cachedShares (t : SignalToken) : Run Q :=
  s <- get_self ;; ret (getShares (knownShares s) t).

Definition syncConditionalBalance (t : SignalToken) (tokenId : string) : Run Q :=
  if negb (has_getBalanceAllowance client) then cachedShares t
  else
    try_catch
      ((if has_updateBalanceAllowance client
        then await (CallUpdateBalanceAllowance tokenId) (updateBalanceAllowance client tokenId)
        else ret tt) ;;;
       response <- await (CallGetBalanceAllowance tokenId) (getBalanceAllowance client tokenId) ;;
       let balance := parseMaybeFixed6 (opt_member response "balance") in
       match usable_balance balance with
       | Some b => modify (fun s => set_knownShares (setShares (knownShares s) t b) s)
       | None => ret tt
       end ;;;
       cachedShares t)
      (fun _ => cachedShares t).

Definition computeOrderSize (signal : TradingSignal) (tokenId : string) : Run Q :=
  match direction signal with
  | BUY => ret (sharesPerTrade config)
  | SELL =>
      availableShares <- syncConditionalBalance (token signal) tokenId ;;
      let tradeCap := Qmin (sharesPerTrade config) availableShares in
      let buffered := (tradeCap - SELL_SAFETY_BUFFER_SHARES)%Q in
      let roundedDown := roundDown buffered SELL_SIZE_DECIMALS in
      ret (toFixed SELL_SIZE_DECIMALS roundedDown)
  end.

(** [`${direction} ${token} @ ${price} x ${size}`] *)
Definition trade_text (signal : TradingSignal) (price size : Q) : string :=
  (direction_name (direction signal) ++ " " ++ token_name (token signal)
   ++ " @ " ++ string_of_num rt (Fin price) ++ " x " ++ string_of_num rt (Fin size))%string.

Definition skipped_summary (signal : TradingSignal) : string :=
  ("SKIPPED " ++ direction_name (direction signal) ++ " " ++ token_name (token signal)
   ++ " (insufficient shares after -"
   ++ string_of_num rt (Fin SELL_SAFETY_BUFFER_SHARES) ++ " buffer)")%string.

Definition failed_summary (signal : TradingSignal) (price size : Q) : string :=
  ("FAILED " ++ trade_text signal price size)%string.

(** [Number(Math.min(0.99, Math.max(0.01, limitPrice)).toFixed(2))] *)
Definition clampPrice (limit : Q) : Q :=
  toFixed 2 (Qmin (99 # 100) (Qmax (1 # 100) limit)).

(** The [try] block after [postOrder] has resolved with [response]. *)
Definition recordSent (signal : TradingSignal) (price size : Q) (now : Z)
    (response : jsval) (s : TradeExecutor) : TradeExecutor :=
  let orderId :=
    if truthy (opt_member response "orderID")
    then js_String rt (opt_member response "orderID") else "n/a"%string in
  let held := getShares (knownShares s) (token signal) in
  let held' :=
    match direction signal with
    | BUY => toFixed 6 (held + size)
    | SELL => Qmax 0 (toFixed 6 (held - size))
    end in
  {| market := market s; sentCount := sentCount s + 1; failedCount := failedCount s;
     lastTradeAtMs := Some now; lastOrderId := Some orderId;
     lastTradeSummary := trade_text signal price size;
     knownShares := setShares (knownShares s) (token signal) held' |}.

(** The [catch] block around [postOrder], before it rethrows. *)
Definition recordFailed (signal : TradingSignal) (price size : Q) (now : Z)
    (s : TradeExecutor) : TradeExecutor :=
  {| market := market s; sentCount := sentCount s; failedCount := failedCount s + 1;
     lastTradeAtMs := Some now; lastOrderId := lastOrderId s;
     lastTradeSummary := failed_summary signal price size;
     knownShares := knownShares s |}.

Definition recordSkipped (signal : TradingSignal) (now : Z) (s : TradeExecutor)
    : TradeExecutor :=
  {| market := market s; sentCount := sentCount s; failedCount := failedCount s;
     lastTradeAtMs := Some now; lastOrderId := lastOrderId s;
     lastTradeSummary := skipped_summary signal;
     knownShares := knownShares s |}.

(** [execute(signal)]; [now] is the reading of [Date.now()] on the path
    taken (each path reads the clock once). *)
Definition execute (signal : TradingSignal) (now : Z) : Run unit :=
  s <- get_self ;;
  match market s with
  | None => throw (NoActiveMarket (marketSlug signal))
  | Some m =>
      if negb (String.eqb (marketSlug signal) (rm_marketSlug m))
      then throw (MarketMismatch (rm_marketSlug m) (marketSlug signal))
      else
        tokenId <- mapTokenToId (token signal) ;;
        let side := mapDirection (direction signal) in
        size <- computeOrderSize signal tokenId ;;
        let price := clampPrice (limitPrice signal) in
        (* [notional] only feeds a warning *)
        if Qle_bool size 0 then modify (recordSkipped signal now)
        else
          let order := {| tokenID := tokenId; side := side; price := price;
                          size := size; expiration := 0; feeRateBps := 1000 |} in
          signedOrder <- await (CallCreateOrder order) (createOrder client order) ;;
          try_catch
            (response <- await (CallPostOrder signedOrder FOK) (postOrder client signedOrder FOK) ;;
             modify (recordSent signal price size now response))
            (fun e =>
               modify (recordFailed signal price size now) ;;;
               throw (TradeFailed (error_message e)))
  end.

End TradeExecutorMethods.

(* ------------------------------------------------------------------ *)
(** ** [src/signalSubscriber.ts] *)

(** A connection object; two handles are the same object when equal. *)
Definition Conn : Type := nat.

(** [redis.status] *)
Inductive RedisStatus : Type :=
| StWait | StReconnecting | StConnecting | StConnect | StReady | StClose | StEnd.

(** [Partial<RedisRuntimeConfig>] *)
Record RedisRuntimeConfig : Type := {
  rc_host : option string;
  rc_port : option jsnum;
  rc_channel : option string;
  rc_password : option string
}.

Record SignalSubscriber : Type := {
  redis : option Conn;
  currentHost : string;
  currentPort : Q;
  currentChannel : string;
  currentPassword : option string;
  connected : bool;
  receivedCount : nat;
  staleCount : nat;
  processedCount : nat;
  sub_failedCount : nat;
  lastSignalAtMs : option Z;
  lastSignalSummary : string
}.

Definition newSignalSubscriber (config : AppConfig) : SignalSubscriber :=
  {| redis := None;
     currentHost := redisHost config; currentPort := redisPort config;
     currentChannel := redisChannel config; currentPassword := redisPassword config;
     connected := false; receivedCount := 0; staleCount := 0; processedCount := 0;
     sub_failedCount := 0; lastSignalAtMs := None; lastSignalSummary := "none" |}.

(** The connection part of the subscriber is rewritten field by field. *)
Definition with_connection (r : option Conn) (host : string) (port : Q)
    (channel : string) (password : option string) (conn : bool)
    (s : SignalSubscriber) : SignalSubscriber :=
  {| redis := r; currentHost := host; currentPort := port;
     currentChannel := channel; currentPassword := password; connected := conn;
     receivedCount := receivedCount s; staleCount := staleCount s;
     processedCount := processedCount s; sub_failedCount := sub_failedCount s;
     lastSignalAtMs := lastSignalAtMs s; lastSignalSummary := lastSignalSummary s |}.

(** Commands sent to connection objects, in order. *)
Inductive RedisCall : Type :=
| NewRedis (c : Conn) (host : string) (port : Q) (password : option string)
| Subscribe (c : Conn) (channel : string)
| Unsubscribe (c : Conn) (channel : string)
| Disconnect (c : Conn).

(** What one [connectAndSubscribe] meets.  [events] are the [connect]
    ([true]) and [close] ([false]) events of the new connection delivered
    while [subscribe] is awaited; events of a connection that is no longer
    [this.redis] are ignored by the handlers. *)
Inductive ConnectAttempt : Type :=
| ConstructorThrows (message : string)
| SubscribeRejects (c : Conn) (events : list bool) (message : string)
| SubscribeResolves (c : Conn) (events : list bool)
(** With [maxRetriesPerRequest: null] and a [retryStrategy] that always
    returns a delay, a connection that cannot be established is retried for
    ever and the [subscribe] sent on it stays queued: its promise never
    settles. *)
| SubscribeNeverSettles (c : Conn) (events : list bool).

(** How an [await]ed call ends: it settles, normally or with an exception,
    or it never does. *)
Inductive Awaited (A : Type) : Type :=
| Settles (r : result A)
| NeverSettles.
Arguments Settles {A} r.
Arguments NeverSettles {A}.

(** What the outside answers during one [updateRedisTarget]. *)
Record RedisWorld : Type := {
  attempt : ConnectAttempt;
  (** [c.status] read in the [catch] block *)
  statusOf : Conn -> RedisStatus;
  (** [await this.redis.unsubscribe(previous)] *)
  unsubscribes : settled unit;
  (** [await this.redis.subscribe(nextChannel)] on the existing connection *)
  subscribes : settled unit
}.

Definition apply_events (events : list bool) (conn : bool) : bool :=
  fold_left (fun _ e => e) events conn.

Definition connectAndSubscribe (a : ConnectAttempt) (host : string) (port : Q)
    (channel : string) (password : option string) (s : SignalSubscriber)
    : SignalSubscriber * list RedisCall * Awaited unit :=
  match a with
  | ConstructorThrows m => (s, [], Settles (Err (Thrown m)))
  | SubscribeRejects c events m =>
      (with_connection (Some c) (currentHost s) (currentPort s) (currentChannel s)
         (currentPassword s) (apply_events events (connected s)) s,
       [NewRedis c host port password; Subscribe c channel],
       Settles (Err (Thrown m)))
  | SubscribeResolves c events =>
      (with_connection (Some c) host port channel password
         (apply_events events (connected s)) s,
       [NewRedis c host port password; Subscribe c channel],
       Settles (Ok tt))
  | SubscribeNeverSettles c events =>
      (* [this.redis = redis] is done; the four assignments after the
         [await] are not *)
      (with_connection (Some c) (currentHost s) (currentPort s) (currentChannel s)
         (currentPassword s) (apply_events events (connected s)) s,
       [NewRedis c host port password; Subscribe c channel],
       NeverSettles)
  end.

(** [start()] *)
Definition start (a : ConnectAttempt) (s : SignalSubscriber)
    : SignalSubscriber * list RedisCall * Awaited unit :=
  connectAndSubscribe a (currentHost s) (currentPort s) (currentChannel s)
    (currentPassword s) s.

(** [stop()] *)
Definition stop (s : SignalSubscriber) : SignalSubscriber * list RedisCall :=
  (with_connection None (currentHost s) (currentPort s) (currentChannel s)
     (currentPassword s) false s,
   match redis s with Some c => [Disconnect c] | None => [] end).

(** The effective target a request resolves to. *)
Definition nextHost (next : RedisRuntimeConfig) (s : SignalSubscriber) : string :=
  trim match rc_host next with
       | Some h => if String.eqb h "" then currentHost s else h
       | None => currentHost s
       end.

Definition nextPort (next : RedisRuntimeConfig) (s : SignalSubscriber) : Q :=
  match rc_port next with
  | Some (Fin q) => q
  | _ => currentPort s
  end.

Definition nextChannel (next : RedisRuntimeConfig) (s : SignalSubscriber) : string :=
  trim match rc_channel next with
       | Some c => if String.eqb c "" then currentChannel s else c
       | None => currentChannel s
       end.

Definition nextPassword (next : RedisRuntimeConfig) (s : SignalSubscriber)
    : option string :=
  match rc_password next with
  | Some p => if Nat.ltb 0 (String.length (trim p)) then Some p else currentPassword s
  | None => currentPassword s
  end.

Definition password_eqb (a b : option string) : bool :=
  match a, b with
  | Some x, Some y => String.eqb x y
  | None, None => true
  | _, _ => false
  end.

Definition hostChanged next s := negb (String.eqb (nextHost next s) (currentHost s)).
Definition portChanged next s := negb (Qeq_bool (nextPort next s) (currentPort s)).
Definition channelChanged next s := negb (String.eqb (nextChannel next s) (currentChannel s)).
Definition passwordChanged next s := negb (password_eqb (nextPassword next s) (currentPassword s)).

(** [previousRedis.status === 'ready' || previousRedis.status === 'connect'] *)
Definition status_up (st : RedisStatus) : bool :=
  match st with StReady | StConnect => true | _ => false end.

Definition updateRedisTarget (w : RedisWorld) (next : RedisRuntimeConfig)
    (s : SignalSubscriber) : SignalSubscriber * list RedisCall * Awaited unit :=
  let nHost := nextHost next s in
  let nPort := nextPort next s in
  let nChannel := nextChannel next s in
  let nPassword := nextPassword next s in
  if String.eqb nHost "" || String.eqb nChannel "" || Qle_bool nPort 0
  then (s, [], Settles (Ok tt))
  else if negb (hostChanged next s) && negb (portChanged next s)
          && negb (channelChanged next s) && negb (passwordChanged next s)
  then (s, [], Settles (Ok tt))
  else if hostChanged next s || portChanged next s || passwordChanged next s then
    let previousRedis := redis s in
    match connectAndSubscribe (attempt w) nHost nPort nChannel nPassword s with
    | (s1, calls, NeverSettles) =>
        (* the [await] inside the [try] never returns: neither the [catch]
           block nor the code after it runs *)
        (s1, calls, NeverSettles)
    | (s1, calls, Settles (Err _)) =>
        let dropNew :=
          match redis s1 with
          | Some c =>
              match previousRedis with
              | Some c0 => if Nat.eqb c c0 then [] else [Disconnect c]
              | None => [Disconnect c]
              end
          | None => []
          end in
        let s2 :=
          match previousRedis with
          | Some c0 =>
              with_connection previousRedis (currentHost s) (currentPort s)
                (currentChannel s) (currentPassword s) (status_up (statusOf w c0)) s1
          | None =>
              with_connection previousRedis (currentHost s1) (currentPort s1)
                (currentChannel s1) (currentPassword s1) false s1
          end in
        (s2, calls ++ dropNew, Settles (Ok tt))
    | (s1, calls, Settles (Ok _)) =>
        let dropOld :=
          match previousRedis with
          | Some c0 =>
              match redis s1 with
              | Some c => if Nat.eqb c0 c then [] else [Disconnect c0]
              | None => [Disconnect c0]
              end
          | None => []
          end in
        (s1, calls ++ dropOld, Settles (Ok tt))
    end
  else
    match redis s with
    | Some c =>
        (* only the channel changed, on a live connection *)
        match unsubscribes w with
        | Rejects m =>
            (s, [Unsubscribe c (currentChannel s)], Settles (Err (Thrown m)))
        | Resolves _ =>
            match subscribes w with
            | Rejects m =>
                (s, [Unsubscribe c (currentChannel s); Subscribe c nChannel],
                 Settles (Err (Thrown m)))
            | Resolves _ =>
                (with_connection (redis s) (currentHost s) (currentPort s) nChannel
                   (currentPassword s) (connected s) s,
                 [Unsubscribe c (currentChannel s); Subscribe c nChannel],
                 Settles (Ok tt))
            end
        end
    | None =>
        (with_connection (redis s) nHost nPort nChannel nPassword (connected s) s,
         [], Settles (Ok tt))
    end.

(** Who asked for a market: the second argument of [onMarketSlug]. *)
Inductive SlugSource : Type := FromSignal | FromMarket | FromEnv.

(** The calls [handleMessage] makes to its two collaborators, in order. *)
Inductive Downstream : Type :=
| CallOnMarketSlug (slug : string) (source : SlugSource)
| CallExecute (signal : TradingSignal).

(** The three readings of [Date.now()] on the way through one message:
    the default timestamp inside [parseRedisMessage], the one stored in
    [lastSignalAtMs], and the one the age is measured from. *)
Record Clock : Type := {
  nowParse : Z;
  nowSeen : Z;
  nowAge : Z
}.

Definition set_counters (received stale processed failed : nat)
    (seen : option Z) (summary : string) (s : SignalSubscriber) : SignalSubscriber :=
  {| redis := redis s; currentHost := currentHost s; currentPort := currentPort s;
     currentChannel := currentChannel s; currentPassword := currentPassword s;
     connected := connected s;
     receivedCount := received; staleCount := stale; processedCount := processed;
     sub_failedCount := failed; lastSignalAtMs := seen; lastSignalSummary := summary |}.

Definition bump_received (s : SignalSubscriber) : SignalSubscriber :=
  set_counters (receivedCount s + 1) (staleCount s) (processedCount s)
    (sub_failedCount s) (lastSignalAtMs s) (lastSignalSummary s) s.

Definition bump_stale (s : SignalSubscriber) : SignalSubscriber :=
  set_counters (receivedCount s) (staleCount s + 1) (processedCount s)
    (sub_failedCount s) (lastSignalAtMs s) (lastSignalSummary s) s.

Definition bump_processed (s : SignalSubscriber) : SignalSubscriber :=
  set_counters (receivedCount s) (staleCount s) (processedCount s + 1)
    (sub_failedCount s) (lastSignalAtMs s) (lastSignalSummary s) s.

Definition bump_failed (s : SignalSubscriber) : SignalSubscriber :=
  set_counters (receivedCount s) (staleCount s) (processedCount s)
    (sub_failedCount s + 1) (lastSignalAtMs s) (lastSignalSummary s) s.

Definition saw (now : Z) (summary : string) (s : SignalSubscriber) : SignalSubscriber :=
  set_counters (receivedCount s) (staleCount s) (processedCount s)
    (sub_failedCount s) (Some now) summary s.

Section HandleMessage.

Variable rt : JsRuntime.
Variable config : AppConfig.

(** Everything behind the subscriber's two collaborators. *)
Variable App : Type.
(** The constructor's [onMarketSlug] callback. *)
Variable onMarketSlug : string -> SlugSource -> App -> App * result unit.
(** [this.executor.execute] *)
Variable executor_execute : TradingSignal -> App -> App * result unit.

Definition signal_summary (signal : TradingSignal) : string :=
  (direction_name (direction signal) ++ " " ++ token_name (token signal) ++ " @ "
   ++ string_of_num rt (Fin (limitPrice signal)) ++ " [" ++ marketSlug signal ++ "]")%string.

(** The state of the subscriber and of what lies behind it, the calls made,
    and how the promise settles. *)
Definition Handled : Type :=
  SignalSubscriber * App * list Downstream * result unit.

(** The [catch] of [handleMessage]: count, rethrow. *)
Definition failed (s : SignalSubscriber) (app : App) (calls : list Downstream)
    (e : error) : Handled :=
  (bump_failed s, app, calls, Err e).

Definition handleMessage (clock : Clock) (rawMessage : string)
    (s0 : SignalSubscriber) (app : App) : Handled :=
  let s := bump_received s0 in
  match parseRedisMessage rt (nowParse clock) rawMessage with
  | Err e => failed s app [] e
  | Ok (KindMarket update) =>
      let s := saw (nowSeen clock) ("MARKET " ++ mu_marketSlug update)%string s in
      match onMarketSlug (mu_marketSlug update) FromMarket app with
      | (app1, Err e) =>
          failed s app1 [CallOnMarketSlug (mu_marketSlug update) FromMarket] e
      | (app1, Ok _) =>
          (bump_processed s, app1,
           [CallOnMarketSlug (mu_marketSlug update) FromMarket], Ok tt)
      end
  | Ok (KindSignal signal) =>
      let s := saw (nowSeen clock) (signal_summary signal) s in
      let ageMs := (nowAge clock - timestampMs signal)%Z in
      if Z.ltb (signalMaxAgeMs config) ageMs then
        let s := bump_stale s in
        match onMarketSlug (marketSlug signal) FromSignal app with
        | (app1, Err e) =>
            failed s app1 [CallOnMarketSlug (marketSlug signal) FromSignal] e
        | (app1, Ok _) =>
            (s, app1, [CallOnMarketSlug (marketSlug signal) FromSignal], Ok tt)
        end
      else
        match onMarketSlug (marketSlug signal) FromSignal app with
        | (app1, Err e) =>
            failed s app1 [CallOnMarketSlug (marketSlug signal) FromSignal] e
        | (app1, Ok _) =>
            match executor_execute signal app1 with
            | (app2, Err e) =>
                failed s app2
                  [CallOnMarketSlug (marketSlug signal) FromSignal; CallExecute signal] e
            | (app2, Ok _) =>
                (bump_processed s, app2,
                 [CallOnMarketSlug (marketSlug signal) FromSignal; CallExecute signal],
                 Ok tt)
            end
        end
  end.

End HandleMessage.

(* ------------------------------------------------------------------ *)
(** ** [index.ts]: the active market behind the subscriber *)

Record Trader : Type := {
  activeMarketSlug : option string;
  tradeExecutor : TradeExecutor;
  (** client calls made so far *)
  clientCalls : list ClientCall
}.

Section Index.

Variable rt : JsRuntime.
Variable client : ClobClient.
Variable config : AppConfig.
(** The market [resolveMarketWithRetry] returns for a slug once one of its
    attempts succeeds; the loop has no other exit.  [setActiveMarket] is
    followed up to and including [tradeExecutor.updateMarket]: the update of
    the price feed that comes next ([wsConnection.updateMarket], which opens
    a socket and can throw where [new WebSocket] does) is left out, and
    with it the state of the feed. *)
Variable resolved : string -> ResolvedMarket.

Definition setActiveMarket (nextSlugRaw : string) (source : SlugSource)
    (t : Trader) : Trader * result unit :=
  let nextSlug := toLowerCase (trim nextSlugRaw) in
  if String.eqb nextSlug "" then (t, Ok tt)
  else if match activeMarketSlug t with
          | Some cur => String.eqb cur nextSlug
          | None => false
          end then (t, Ok tt)
  else
    let m := resolved nextSlug in
    ({| activeMarketSlug := Some (rm_marketSlug m);
        tradeExecutor := updateMarket m (tradeExecutor t);
        clientCalls := clientCalls t |}, Ok tt).

(** [execute], reading [Date.now()] as [now], on the trader's executor. *)
Definition traderExecute (now : Z) (signal : TradingSignal) (t : Trader)
    : Trader * result unit :=
  let '(e, calls, r) := execute rt client config signal now (tradeExecutor t) in
  ({| activeMarketSlug := activeMarketSlug t; tradeExecutor := e;
      clientCalls := clientCalls t ++ calls |}, r).

End Index.

(* ------------------------------------------------------------------ *)
(** ** A runtime to run the model on concrete messages

    [sampleRuntime] reads and prints plain decimal literals (an optional
    sign, digits, an optional fraction), which is how the engine treats
    them; anything else reads as [NaN].  [JSON.parse] is given by a table. *)

Definition digit_of (c : ascii) : option Z :=
  let n := nat_of_ascii c in
  if Nat.leb 48 n && Nat.leb n 57 then Some (Z.of_nat (n - 48)) else None.

(** [Some (value, number of digits)] when [s] holds digits only. *)
Fixpoint read_digits (s : string) (acc : Z) (len : nat) : option (Z * nat) :=
  match s with
  | EmptyString => Some (acc, len)
  | String c rest =>
      match digit_of c with
      | Some d => read_digits rest (acc * 10 + d)%Z (S len)
      | None => None
      end
  end.

Fixpoint before_dot (s : string) : string :=
  match s with
  | EmptyString => EmptyString
  | String c rest => if Ascii.eqb c "." then EmptyString else String c (before_dot rest)
  end.

Fixpoint after_dot (s : string) : string :=
  match s with
  | EmptyString => EmptyString
  | String c rest => if Ascii.eqb c "." then rest else after_dot rest
  end.

Definition read_unsigned (s : string) : jsnum :=
  match read_digits (before_dot s) 0 0, read_digits (after_dot s) 0 0 with
  | Some (ip, li), Some (fp, lf) =>
      if Nat.eqb (li + lf) 0 then NaN
      else Fin ((ip * Zpos (pow10 lf) + fp)%Z # pow10 lf)
  | _, _ => NaN
  end.

Definition read_decimal (s : string) : jsnum :=
  match trim s with
  | EmptyString => Fin 0
  | String c rest =>
      if Ascii.eqb c "-" then
        match read_unsigned rest with Fin q => Fin (- q) | other => other end
      else if Ascii.eqb c "+" then read_unsigned rest
      else read_unsigned (String c rest)
  end.

Fixpoint print_nat_digits (fuel : nat) (n : Z) (acc : string) : string :=
  match fuel with
  | O => acc
  | S fuel' =>
      let acc' := String (ascii_of_nat (48 + Z.to_nat (n mod 10))) acc in
      if (n / 10 =? 0)%Z then acc' else print_nat_digits fuel' (n / 10) acc'
  end.

Definition print_Z (n : Z) : string :=
  print_nat_digits (S (Z.to_nat (Z.log2 (Z.abs n)))) (Z.abs n) EmptyString.

Fixpoint print_fraction (fuel : nat) (r d : Z) : string :=
  match fuel with
  | O => EmptyString
  | S fuel' =>
      if (r =? 0)%Z then EmptyString
      else String (ascii_of_nat (48 + Z.to_nat (r * 10 / d)))
             (print_fraction fuel' ((r * 10) mod d) d)
  end.

Definition print_decimal (n : jsnum) : string :=
  match n with
  | NaN => "NaN"%string
  | PosInf => "Infinity"%string
  | NegInf => "-Infinity"%string
  | Fin q =>
      let a := Z.abs (Qnum q) in
      let d := Zpos (Qden q) in
      let sign := (if (Qnum q <? 0)%Z then "-" else "")%string in
      let frac := print_fraction 17 (a mod d) d in
      (sign ++ print_Z (a / d) ++ if String.eqb frac "" then "" else "." ++ frac)%string
  end.

Definition sampleRuntime (json : string -> option jsval) : JsRuntime :=
  {| num_of_string := read_decimal;
     parse_float := read_decimal;
     date_parse := fun _ => None;
     string_of_num := print_decimal;
     json_parse := json |}.

Definition noJson : string -> option jsval := fun _ => None.

(* ------------------------------------------------------------------ *)
(** ** The sizing arithmetic in binary64 *)

(** A JavaScript [number] is an IEEE 754 binary64 value.  The module below
    evaluates the arithmetic of [roundDown], [computeOrderSize] and the
    scaling of [parseMaybeFixed6] on such values, with the operations of
    the standard library's [SpecFloat] (round to nearest, ties to even) at
    precision 53 and maximal exponent 1024. *)
Module Binary64.

Definition prec : Z := 53.
Definition emax : Z := 1024.

Definition float : Type := SpecFloat.spec_float.

Definition sub : float -> float -> float := SpecFloat.SFsub prec emax.
Definition mul : float -> float -> float := SpecFloat.SFmul prec emax.
Definition div : float -> float -> float := SpecFloat.SFdiv prec emax.
Definition ltb : float -> float -> bool := SpecFloat.SFltb.
Definition leb : float -> float -> bool := SpecFloat.SFleb.

(** The number an integer literal denotes. *)
Definition of_Z (z : Z) : float := SpecFloat.binary_normalize prec emax z 0 false.

(** The number the decimal literal [n / 10^d] denotes ([0.6] is
    [of_decimal 6 1]): the binary64 value nearest to it, which is what the
    correctly rounded division of two exactly represented integers returns
    (for [n] and [10^d] below [2^53]). *)
Definition of_decimal (n : Z) (d : nat) : float :=
  div (of_Z n) (of_Z (10 ^ Z.of_nat d)).

(** The rational a finite number stands for. *)
Definition value (x : float) : option Q :=
  match x with
  | SpecFloat.S754_zero _ => Some 0
  | SpecFloat.S754_finite s m e =>
      let z := if s then Zneg m else Zpos m in
      Some (if (0 <=? e)%Z then inject_Z (z * 2 ^ e) else z # (2 ^ Z.to_pos (- e)))
  | _ => None
  end.

(** [Math.floor] *)
Definition floor (x : float) : float :=
  match x with
  | SpecFloat.S754_finite s m e =>
      if (0 <=? e)%Z then x
      else
        let z := Z.shiftr (if s then Zneg m else Zpos m) (- e) in
        if (z =? 0)%Z then SpecFloat.S754_zero false else of_Z z
  | _ => x
  end.

(** [Math.min] of two numbers *)
Definition min (a b : float) : float :=
  match a, b with
  | SpecFloat.S754_nan, _ | _, SpecFloat.S754_nan => SpecFloat.S754_nan
  | SpecFloat.S754_zero sa, SpecFloat.S754_zero sb => SpecFloat.S754_zero (sa || sb)
  | _, _ => if ltb b a then b else a
  end.

(** [Number(x.toFixed(d))]: [toFixed] takes the integer [n] with [n / 10^d]
    nearest to the exact value of [|x|], the larger one on a tie, and prints
    [x] itself from [10^21] on; [Number] reads the digits back as the
    nearest binary64 value. *)
Definition toFixed (d : nat) (x : float) : float :=
  match x with
  | SpecFloat.S754_finite s m e =>
      let magnitude :=
        if (0 <=? e)%Z then inject_Z (Zpos m * 2 ^ e) else Zpos m # (2 ^ Z.to_pos (- e)) in
      if Qle_bool (inject_Z (10 ^ 21)) magnitude then x
      else
        match Qfloor (magnitude * inject_Z (10 ^ Z.of_nat d) + (1 # 2)) with
        | Zpos n => div (SpecFloat.S754_finite s n 0) (of_Z (10 ^ Z.of_nat d))
        | _ => SpecFloat.S754_zero s
        end
  | SpecFloat.S754_zero _ => SpecFloat.S754_zero false
  | _ => x
  end.

(** [TradeExecutor.roundDown] *)
Definition roundDown (v : float) (decimals : nat) : float :=
  let factor := of_Z (10 ^ Z.of_nat decimals) in
  div (floor (mul v factor)) factor.

Definition SELL_SAFETY_BUFFER_SHARES : float := of_decimal 5 1.

(** [computeOrderSize], from the balance that [syncConditionalBalance]
    returned. *)
Definition computeOrderSize (direction : SignalDirection)
    (sharesPerTrade availableShares : float) : float :=
  match direction with
  | BUY => sharesPerTrade
  | SELL =>
      let tradeCap := min sharesPerTrade availableShares in
      let buffered := sub tradeCap SELL_SAFETY_BUFFER_SHARES in
      let roundedDown := roundDown buffered SELL_SIZE_DECIMALS in
      toFixed SELL_SIZE_DECIMALS roundedDown
  end.

(** [size <= 0], the test of [execute] that skips the order *)
Definition skipped (size : float) : bool := leb size (of_Z 0).

(** The last step of [parseMaybeFixed6] for a text without a dot:
    [Math.abs(parsedNumber) >= 100000 ? parsedNumber / 1_000_000 : parsedNumber] *)
Definition fixed6 (parsedNumber : float) : float :=
  if leb (of_Z 100000) (SpecFloat.SFabs parsedNumber)
  then div parsedNumber (of_Z 1000000)
  else parsedNumber.

End Binary64.

(* ------------------------------------------------------------------ *)
(** ** Vocabulary of the properties *)

(** [floor((min(sharesPerTrade, balance) - 0.5) * 10) / 10], the sizing rule
    as the design document writes it. *)
Definition sellSizeSpec (perTrade balance : Q) : Q :=
  inject_Z (Qfloor ((Qmin perTrade balance - (1 # 2)) * 10)) / 10.

Definition is_order_call (c : ClientCall) : bool :=
  match c with
  | CallCreateOrder _ | CallPostOrder _ _ => true
  | _ => false
  end.

Definition is_post_call (c : ClientCall) : bool :=
  match c with CallPostOrder _ _ => true | _ => false end.

(** The identity triple of a resolved market. *)
Definition same_identity (a b : ResolvedMarket) : Prop :=
  rm_marketSlug a = rm_marketSlug b /\ upTokenId a = upTokenId b
  /\ downTokenId a = downTokenId b.

Definition other_token (t : SignalToken) : SignalToken :=
  match t with UP => DOWN | DOWN => UP end.

(** The token identifier [mapTokenToId] finds in a bound market. *)
Definition tokenIdOf (m : ResolvedMarket) (t : SignalToken) : string :=
  match t with UP => upTokenId m | DOWN => downTokenId m end.

(** The order [execute] builds for a signal. *)
Definition orderOf (m : ResolvedMarket) (signal : TradingSignal) (size : Q) : UserOrder :=
  {| tokenID := tokenIdOf m (token signal); side := mapDirection (direction signal);
     price := clampPrice (limitPrice signal); size := size;
     expiration := 0; feeRateBps := 1000 |}.

(** The parsed balance the refresh obtains, when the client offers
    [getBalanceAllowance] and neither call rejects. *)
Definition fetchedBalance (rt : JsRuntime) (client : ClobClient) (tokenId : string)
    : option jsnum :=
  if has_getBalanceAllowance client then
    match (if has_updateBalanceAllowance client
           then updateBalanceAllowance client tokenId else Resolves tt) with
    | Rejects _ => None
    | Resolves _ =>
        match getBalanceAllowance client tokenId with
        | Resolves response => Some (parseMaybeFixed6 rt (opt_member response "balance"))
        | Rejects _ => None
        end
    end
  else None.

(* ------------------------------------------------------------------ *)
(** ** Concrete markets, clients and signals *)

Definition btcMarket : ResolvedMarket :=
  {| sourceText := "btc-updown-15m-1700000000"; eventSlug := "btc-updown-15m";
     rm_marketSlug := "btc-updown-15m-1700000000";
     marketQuestion := "Bitcoin up or down?";
     upTokenId := "1001"; downTokenId := "1002" |}.

Definition ethMarket : ResolvedMarket :=
  {| sourceText := "eth-updown-15m-1700000000"; eventSlug := "eth-updown-15m";
     rm_marketSlug := "eth-updown-15m-1700000000";
     marketQuestion := "Ether up or down?";
     upTokenId := "2001"; downTokenId := "2002" |}.

Definition tenShares : AppConfig :=
  {| redisHost := "127.0.0.1"; redisPort := 6379; redisChannel := "ODDS_FOR_COMMUNITY";
     redisPassword := None; signalMaxAgeMs := HARD_CODED_SIGNAL_MAX_AGE_MS;
     sharesPerTrade := 10 |}.

(** A client that reports [balance] for every token and whose [postOrder]
    settles as [posted]. *)
Definition clientWith (balance : jsval) (posted : settled jsval) : ClobClient :=
  {| has_getBalanceAllowance := true;
     has_updateBalanceAllowance := true;
     updateBalanceAllowance := fun _ => Resolves tt;
     getBalanceAllowance := fun _ => Resolves (JObj [("balance"%string, balance)]);
     createOrder := fun o => Resolves {| signedOrder := o; signature := "0xsig" |};
     postOrder := fun _ _ => posted |}.

Definition accepted : settled jsval :=
  Resolves (JObj [("orderID"%string, JStr "0xabc")]).

Definition refused : settled jsval := Rejects "not enough balance".

Definition signalFor (d : SignalDirection) (t : SignalToken) (slug : string)
    : TradingSignal :=
  {| timestampMs := 1700000000000; direction := d; token := t;
     limitPrice := 47 # 100; marketSlug := slug; raw := [] |}.

Definition boundTo (m : ResolvedMarket) (held : Shares) : TradeExecutor :=
  {| market := Some m; sentCount := 0; failedCount := 0; lastTradeAtMs := None;
     lastOrderId := None; lastTradeSummary := "none"; knownShares := held |}.

Definition plainRuntime : JsRuntime := sampleRuntime noJson.

Definition btcSlug : string := "btc-updown-15m-1700000000".

Definition sellUp : TradingSignal := signalFor SELL UP btcSlug.
Definition buyUp : TradingSignal := signalFor BUY UP btcSlug.


(** The names a field may go by on the wire. *)
Definition timestamp_aliases : list string := ["timestamp"; "ts"; "time"]%string.
Definition direction_aliases : list string :=
  ["direction"; "side"; "orderSide"; "action"]%string.
Definition token_aliases : list string :=
  ["token"; "outcome"; "marketSide"; "position"]%string.
Definition price_aliases : list string := ["limitPrice"; "limit_price"; "price"]%string.
Definition slug_aliases : list string := ["market_slug"; "marketSlug"; "slug"]%string.

(** The payload has the field under one of its names. *)
Definition carries (p : payload) (aliases : list string) : Prop :=
  exists k, In k aliases /\ prop p k <> JUndefined.

(** Under every one of its names the field is absent or [null]. *)
Definition lacks (p : payload) (aliases : list string) : Prop :=
  forall k, In k aliases -> nullish (prop p k) = true.

(** The ways to write a direction and an outcome, letter case and
    surrounding blanks aside. *)
Definition spells_direction (d : SignalDirection) (s : string) : Prop :=
  In (toLowerCase (trim s))
     match d with BUY => ["buy"; "b"] | SELL => ["sell"; "s"] end%string.

Definition spells_token (t : SignalToken) (s : string) : Prop :=
  In (toLowerCase (trim s))
     match t with
     | UP => ["up"; "yes"; "long"; "1"]
     | DOWN => ["down"; "no"; "short"; "0"]
     end%string.

(** The payload holds the field under the name [k], with the value [v], and
    under no other of the field's names. *)
Definition holds_under (p : payload) (aliases : list string) (k : string) (v : jsval)
    : Prop :=
  In k aliases /\ prop p k = v /\ nullish v = false
  /\ forall k', In k' aliases -> k' <> k -> nullish (prop p k') = true.

(** The normalised content of a signal: everything but the retained payload. *)
Definition normalized (s : TradingSignal)
    : Z * SignalDirection * SignalToken * Q * string :=
  (timestampMs s, direction s, token s, limitPrice s, marketSlug s).

Definition result_map {A B : Type} (f : A -> B) (r : result A) : result B :=
  match r with Ok a => Ok (f a) | Err e => Err e end.

(** The same signal written with two sets of names and spellings. *)
Definition shortForm : payload :=
  [("timestamp", JNum (Fin 1700000000000)); ("side", JStr "b"); ("token", JStr "yes");
   ("price", JNum (Fin (47 # 100))); ("slug", JStr btcSlug)]%string.

Definition longForm : payload :=
  [("timestamp", JNum (Fin 1700000000000)); ("direction", JStr "BUY");
   ("outcome", JStr "UP"); ("price", JNum (Fin (47 # 100)));
   ("slug", JStr btcSlug)]%string.

(** A market announcement, and a signal that lost its price and outcome. *)
Definition marketConfig : payload :=
  [("type", JStr "MARKET_CONFIG"); ("market_slug", JStr btcSlug)]%string.

Definition partialSignal : payload :=
  [("side", JStr "buy"); ("market_slug", JStr btcSlug);
   ("timestamp", JNum (Fin 1700000000000))]%string.

(** Whether a connection attempt ends in an exception. *)
Definition attempt_fails (a : ConnectAttempt) : bool :=
  match a with
  | ConstructorThrows _ | SubscribeRejects _ _ _ => true
  | SubscribeResolves _ _ | SubscribeNeverSettles _ _ => false
  end.

(** A call that takes connection [c] down or off its channel. *)
Definition tears_down (c : Conn) (call : RedisCall) : bool :=
  match call with
  | Disconnect c' | Unsubscribe c' _ => Nat.eqb c c'
  | _ => false
  end.

Definition is_execute_call (c : Downstream) : bool :=
  match c with CallExecute _ => true | _ => false end.

(** A subscriber connected to [10.0.0.1:6379] through connection 1. *)
Definition liveSubscriber : SignalSubscriber :=
  {| redis := Some 1%nat; currentHost := "10.0.0.1"; currentPort := 6379;
     currentChannel := "ODDS_FOR_COMMUNITY"; currentPassword := None;
     connected := true; receivedCount := 7; staleCount := 1; processedCount := 5;
     sub_failedCount := 1; lastSignalAtMs := Some 1700000000000%Z;
     lastSignalSummary := "MARKET btc-updown-15m-1700000000" |}.

Definition moveTo (host : string) : RedisRuntimeConfig :=
  {| rc_host := Some host; rc_port := None; rc_channel := None; rc_password := None |}.

(** Nothing listens at the new host: connection 2 closes after each try and
    its subscription never settles; the old connection is ready. *)
Definition unreachable : RedisWorld :=
  {| attempt := SubscribeNeverSettles 2%nat [false];
     statusOf := fun _ => StReady;
     unsubscribes := Resolves tt;
     subscribes := Resolves tt |}.

(** The new host answers, and rejects the subscription for want of a
    credential; the old connection is ready. *)
Definition refusing : RedisWorld :=
  {| attempt := SubscribeRejects 2%nat [true] "NOAUTH Authentication required.";
     statusOf := fun _ => StReady;
     unsubscribes := Resolves tt;
     subscribes := Resolves tt |}.

(** [JSON.parse] knowing one message. *)
Definition oneMessage (text : string) (parsed : jsval) : string -> option jsval :=
  fun s => if String.eqb s text then Some parsed else None.

(** The wire text of [longForm] (quotes left out). *)
Definition longFormText : string :=
  "{timestamp:1700000000000,direction:BUY,outcome:UP,price:0.47,slug:btc-updown-15m-1700000000}".

Definition wireRuntime : JsRuntime :=
  sampleRuntime (oneMessage longFormText (JObj longForm)).

Definition idleTrader : Trader :=
  {| activeMarketSlug := None; tradeExecutor := newTradeExecutor; clientCalls := [] |}.

(** The signal of [longForm] was emitted at 1700000000000; it is read 1001 ms
    later. *)
Definition lateBy1001 : Clock :=
  {| nowParse := 1700000001001; nowSeen := 1700000001001; nowAge := 1700000001001 |}.

(* ------------------------------------------------------------------ *)
(** ** Vocabulary of the further properties *)

Definition is_balance_call (c : ClientCall) : bool :=
  match c with
  | CallUpdateBalanceAllowance _ | CallGetBalanceAllowance _ => true
  | _ => false
  end.

(** Both ledger entries are non-negative. *)
Definition ledger_nonneg (k : Shares) : Prop := 0 <= sharesUP k /\ 0 <= sharesDOWN k.

(* ------------------------------------------------------------------ *)
(** ** [src/signalSubscriber.ts]: the processing queue *)

Section Queue.

Variable rt : JsRuntime.
Variable config : AppConfig.
Variable App : Type.
Variable onMarketSlug : string -> SlugSource -> App -> App * result unit.
Variable executor_execute : TradingSignal -> App -> App * result unit.

(** The [message] handler that [connectAndSubscribe] installs on connection
    [c], taken together with the call it appends to [this.queue]: a message
    of a connection that is not [this.redis] is dropped; any other is
    handled, and an error of [handleMessage] is logged by the [catch] of the
    chain, which then goes on. *)
Definition deliver (c : Conn) (clock : Clock) (message : string)
    (s : SignalSubscriber) (app : App) : SignalSubscriber * App * list Downstream :=
  match redis s with
  | Some current =>
      if Nat.eqb current c then
        let '(s', app', calls, _) :=
          handleMessage rt config App onMarketSlug executor_execute clock message s app in
        (s', app', calls)
      else (s, app, [])
  | None => (s, app, [])
  end.

(** The promise chain run to its end over the messages that arrived, in
    arrival order; each call starts when the one before it has settled.  No
    reconfiguration happens in between. *)
Fixpoint drain (arrivals : list (Conn * Clock * string))
    (s : SignalSubscriber) (app : App) : SignalSubscriber * App * list Downstream :=
  match arrivals with
  | [] => (s, app, [])
  | (c, clock, message) :: rest =>
      let '(s1, app1, calls1) := deliver c clock message s app in
      let '(s2, app2, calls2) := drain rest s1 app1 in
      (s2, app2, calls1 ++ calls2)
  end.

End Queue.

(** How many of the arrivals come from connection [c]. *)
Definition arrivals_of (c : Conn) (arrivals : list (Conn * Clock * string)) : nat :=
  length (filter (fun a => Nat.eqb c (fst (fst a))) arrivals).

(** The connection part of a subscriber. *)
Definition connection_of (s : SignalSubscriber)
    : option Conn * string * Q * string * option string * bool :=
  (redis s, currentHost s, currentPort s, currentChannel s, currentPassword s,
   connected s).

(** The trader's slug and its executor's binding agree. *)
Definition trader_coherent (t : Trader) : Prop :=
  match activeMarketSlug t with
  | Some slug =>
      exists m, market (tradeExecutor t) = Some m /\ rm_marketSlug m = slug
  | None => True
  end.

Definition is_new_connection (call : RedisCall) : bool :=
  match call with NewRedis _ _ _ _ => true | _ => false end.

(** A request that names a new channel only. *)
Definition switchChannel (channel : string) : RedisRuntimeConfig :=
  {| rc_host := None; rc_port := None; rc_channel := Some channel; rc_password := None |}.

(** The new host accepts the subscription on connection 2. *)
Definition reachable : RedisWorld :=
  {| attempt := SubscribeResolves 2%nat [true];
     statusOf := fun _ => StReady;
     unsubscribes := Resolves tt;
     subscribes := Resolves tt |}.


(** The signal of [longForm] is read 500 ms after it was emitted. *)
Definition onTime : Clock :=
  {| nowParse := 1700000000500; nowSeen := 1700000000500; nowAge := 1700000000500 |}.

(** Three arrivals: a signal in time from the current connection, the same
    text from a connection that is no longer current, and text that is not
    JSON from the current connection. *)
Definition threeArrivals : list (Conn * Clock * string) :=
  [(1%nat, onTime, longFormText); (2%nat, onTime, longFormText);
   (1%nat, lateBy1001, "not json"%string)].

(* ------------------------------------------------------------------ *)
(** ** [src/config.ts] *)

(** [process.env]: an unset variable reads [undefined]. *)
Definition Env : Type := string -> option string.

Record ClaimConfig : Type := {
  enabled : bool;
  intervalMinutes : Q;
  claimWalletAddress : string;
  safeAddress : option string;
  dataApiUrl : string;
  ctfAddress : string;
  collateralTokenAddress : string
}.

(** The whole of [AppConfig]; [appConfig] below is the part of it that the
    subscriber and the executor read. *)
Record FullConfig : Type := {
  walletAddress : string;
  privateKey : string;
  chainId : Q;
  rpcUrl : string;
  clobHttpUrl : string;
  clobWsUrl : string;
  gammaEventsUrl : string;
  cfg_redisHost : string;
  cfg_redisPort : Q;
  cfg_redisChannel : string;
  cfg_redisPassword : option string;
  cfg_signalMaxAgeMs : Z;
  statusIntervalSeconds : Z;
  cfg_sharesPerTrade : Q;
  claim : ClaimConfig
}.

Definition appConfig (c : FullConfig) : AppConfig :=
  {| redisHost := cfg_redisHost c; redisPort := cfg_redisPort c;
     redisChannel := cfg_redisChannel c; redisPassword := cfg_redisPassword c;
     signalMaxAgeMs := cfg_signalMaxAgeMs c; sharesPerTrade := cfg_sharesPerTrade c |}.

Definition HARD_CODED_STATUS_INTERVAL_SECONDS : Z := 20.
Definition DEFAULT_CLAIM_INTERVAL_MINUTES : Q := 15.

(** The character class [[a-fA-F0-9]]. *)
Definition hex_char (c : ascii) : bool :=
  let n := nat_of_ascii c in
  (Nat.leb 97 n && Nat.leb n 102) || (Nat.leb 65 n && Nat.leb n 70)
  || (Nat.leb 48 n && Nat.leb n 57).

(** [/^0x[a-fA-F0-9]{40}$/.test(value)] *)
Definition isAddress (value : string) : bool :=
  match value with
  | String "0" (String "x" digits) =>
      all_chars hex_char digits && Nat.eqb (String.length digits) 40
  | _ => false
  end.

Local Open Scope string_scope.

(** [value || fallback] for a string that may be [undefined]. *)
Definition or_default (value : option string) (fallback : string) : string :=
  match value with
  | Some s => if String.eqb s "" then fallback else s
  | None => fallback
  end.

(** [!value] for a string that may be [undefined]. *)
Definition absent (value : option string) : bool :=
  match value with
  | Some s => String.eqb s ""
  | None => true
  end.

Section Config.

Variable rt : JsRuntime.
(** [Number.parseInt(s, 10)] *)
Variable parse_int : string -> jsnum.
Variable env : Env.

Fixpoint getEnv (keys : list string) : option string :=
  match keys with
  | [] => None
  | key :: rest =>
      match env key with
      | Some raw => if negb (String.eqb (trim raw) "") then Some (trim raw) else getEnv rest
      | None => getEnv rest
      end
  end.

Definition requireString (keys : list string) : result string :=
  match getEnv keys with
  | Some value =>
      if String.eqb value "" then
        Err (Thrown ("Missing required env var: " ++ String.concat " | " keys))
      else Ok value
  | None => Err (Thrown ("Missing required env var: " ++ String.concat " | " keys))
  end.

Definition parseIntEnv (keys : list string) (fallback : Q) : result Q :=
  match getEnv keys with
  | Some value =>
      if String.eqb value "" then Ok fallback
      else
        match parse_int value with
        | Fin parsed => Ok parsed
        | _ => Err (Thrown ("Invalid integer env var: " ++ String.concat " | " keys))
        end
  | None => Ok fallback
  end.

Definition parseFloatEnv (keys : list string) (fallback : Q) : result Q :=
  match getEnv keys with
  | Some value =>
      if String.eqb value "" then Ok fallback
      else
        match parse_float rt value with
        | Fin parsed => Ok parsed
        | _ => Err (Thrown ("Invalid number env var: " ++ String.concat " | " keys))
        end
  | None => Ok fallback
  end.

Definition assertAddress (name value : string) : result unit :=
  if isAddress value then Ok tt
  else Err (Thrown ("Invalid address for " ++ name ++ ": " ++ value)).

Definition loadConfig : result FullConfig :=
  let! walletAddress := requireString ["WALLET_ADDRESS"; "PROXY_WALLET"] in
  let! privateKey := requireString ["PRIVATE_KEY"] in
  let! chainId := parseIntEnv ["CHAIN_ID"] 137 in
  let rpcUrl := or_default (getEnv ["RPC_URL"]) "https://polygon-rpc.com" in
  let clobHttpUrl := or_default (getEnv ["CLOB_HTTP_URL"]) "https://clob.polymarket.com" in
  let clobWsUrl :=
    or_default (getEnv ["CLOB_WS_URL"])
      "wss://ws-subscriptions-clob.polymarket.com/ws/market" in
  let gammaEventsUrl :=
    or_default (getEnv ["GAMMA_EVENTS_URL"]) "https://gamma-api.polymarket.com/events" in
  let redisHost := or_default (getEnv ["REDIS_HOST"; "COMMUNITY_REDIS_HOST"]) "127.0.0.1" in
  let! redisPort := parseIntEnv ["REDIS_PORT"; "COMMUNITY_REDIS_PORT"] 6379 in
  let redisChannel :=
    or_default (getEnv ["REDIS_CHANNEL"; "COMMUNITY_REDIS_CHANNEL"]) "ODDS_FOR_COMMUNITY" in
  let redisPassword :=
    getEnv ["REDIS_PASSWORD"; "REDIS_PW"; "COMMUNITY_REDIS_PASSWORD";
            "COMMUNITY_REDIS_PW"] in
  let signalMaxAgeMs := HARD_CODED_SIGNAL_MAX_AGE_MS in
  let statusIntervalSeconds := HARD_CODED_STATUS_INTERVAL_SECONDS in
  let! sharesPerTrade := parseFloatEnv ["SHARES_PER_TRADE"; "SIZE_PER_TRADE"] 10 in
  if Qle_bool sharesPerTrade 0 then
    Err (Thrown ("SHARES_PER_TRADE must be > 0. Received: "
                 ++ string_of_num rt (Fin sharesPerTrade)))
  else if Qle_bool redisPort 0 || Qlt_bool 65535 redisPort then
    Err (Thrown ("REDIS_PORT must be in range 1..65535. Received: "
                 ++ string_of_num rt (Fin redisPort)))
  else if String.eqb (trim redisChannel) "" then
    Err (Thrown "REDIS_CHANNEL must not be empty.")
  else
    let! _ := assertAddress "WALLET_ADDRESS / PROXY_WALLET" walletAddress in
    let! claimIntervalMinutes :=
      parseIntEnv ["CLAIM_INTERVAL_MINUTES"] DEFAULT_CLAIM_INTERVAL_MINUTES in
    let! claimWalletAddress := requireString ["CLAIM_WALLET_ADDRESS"] in
    let claimSafeAddressRaw := getEnv ["CLAIM_SAFE_ADDRESS"] in
    let claimSafeAddress :=
      if absent claimSafeAddressRaw then
        if negb (String.eqb (toLowerCase claimWalletAddress) (toLowerCase walletAddress))
        then Some walletAddress else None
      else claimSafeAddressRaw in
    let claimDataApiUrl :=
      or_default (getEnv ["CLAIM_DATA_API_URL"])
        "https://data-api.polymarket.com/positions" in
    let claimCtfAddress :=
      or_default (getEnv ["CTF_ADDRESS"]) "0x4D97DCd97eC945f40cF65F87097ACe5EA0476045" in
    let claimCollateral :=
      or_default (getEnv ["COLLATERAL_TOKEN_ADDRESS"; "USDC_CONTRACT_ADDRESS"])
        "0x2791Bca1f2de4661ED88A30C99A7a9449Aa84174" in
    let! _ := assertAddress "CLAIM_WALLET_ADDRESS" claimWalletAddress in
    let! _ := assertAddress "CTF_ADDRESS" claimCtfAddress in
    let! _ :=
      assertAddress "COLLATERAL_TOKEN_ADDRESS / USDC_CONTRACT_ADDRESS" claimCollateral in
    let! _ :=
      match claimSafeAddress with
      | Some address =>
          if String.eqb address "" then Ok tt
          else assertAddress "CLAIM_SAFE_ADDRESS" address
      | None => Ok tt
      end in
    Ok {| walletAddress := walletAddress;
          privateKey := privateKey;
          chainId := chainId;
          rpcUrl := rpcUrl;
          clobHttpUrl := clobHttpUrl;
          clobWsUrl := clobWsUrl;
          gammaEventsUrl := gammaEventsUrl;
          cfg_redisHost := redisHost;
          cfg_redisPort := redisPort;
          cfg_redisChannel := redisChannel;
          cfg_redisPassword := redisPassword;
          cfg_signalMaxAgeMs := signalMaxAgeMs;
          statusIntervalSeconds := statusIntervalSeconds;
          cfg_sharesPerTrade := sharesPerTrade;
          claim := {| enabled := Qlt_bool 0 claimIntervalMinutes;
                      intervalMinutes := claimIntervalMinutes;
                      claimWalletAddress := claimWalletAddress;
                      safeAddress := claimSafeAddress;
                      dataApiUrl := claimDataApiUrl;
                      ctfAddress := claimCtfAddress;
                      collateralTokenAddress := claimCollateral |} |}.

End Config.

(** A decimal reader for [Number.parseInt(s, 10)]: leading blanks, a sign,
    then the digits up to the first character that is not one. *)
Fixpoint leading_digits (s : string) (acc : Z) (len : nat) : Z * nat :=
  match s with
  | EmptyString => (acc, len)
  | String c rest =>
      match digit_of c with
      | Some d => leading_digits rest (acc * 10 + d)%Z (S len)
      | None => (acc, len)
      end
  end.

Definition read_int (s : string) : jsnum :=
  let unsigned (digits : string) (sign : Z) : jsnum :=
    let '(value, len) := leading_digits digits 0 0 in
    if Nat.eqb len 0 then NaN else Fin (inject_Z (sign * value)) in
  match trimStart s with
  | EmptyString => NaN
  | String c rest =>
      if Ascii.eqb c "-" then unsigned rest (-1)%Z
      else if Ascii.eqb c "+" then unsigned rest 1%Z
      else unsigned (String c rest) 1%Z
  end.

(** An environment given as a list of assignments, as a [.env] file is. *)
Fixpoint envOf (assignments : list (string * string)) : Env :=
  fun key =>
    match assignments with
    | [] => None
    | (k, v) :: rest => if String.eqb key k then Some v else envOf rest key
    end.

(** The three required variables and three optional ones. *)
Definition sampleEnv : Env :=
  envOf [("WALLET_ADDRESS", "0x1111111111111111111111111111111111111111");
         ("PRIVATE_KEY", "0xabc");
         ("CLAIM_WALLET_ADDRESS", "0x2222222222222222222222222222222222222222");
         ("REDIS_HOST", "   ");
         ("COMMUNITY_REDIS_HOST", " 10.0.0.7 ");
         ("REDIS_PORT", "6380");
         ("SHARES_PER_TRADE", "2.5")].

Local Close Scope string_scope.

(** A variable that [getEnv] passes over: unset, or blank. *)
Definition unusable (env : Env) (key : string) : Prop :=
  match env key with
  | Some raw => trim raw = EmptyString
  | None => True
  end.

Definition required_keys : list string :=
  ["WALLET_ADDRESS"; "PRIVATE_KEY"; "CLAIM_WALLET_ADDRESS"]%string.

(** What [loadConfig] returns for [sampleEnv]. *)
Definition loadedSample : FullConfig :=
  {| walletAddress := "0x1111111111111111111111111111111111111111";
     privateKey := "0xabc";
     chainId := 137;
     rpcUrl := "https://polygon-rpc.com";
     clobHttpUrl := "https://clob.polymarket.com";
     clobWsUrl := "wss://ws-subscriptions-clob.polymarket.com/ws/market";
     gammaEventsUrl := "https://gamma-api.polymarket.com/events";
     cfg_redisHost := "10.0.0.7";
     cfg_redisPort := 6380;
     cfg_redisChannel := "ODDS_FOR_COMMUNITY";
     cfg_redisPassword := None;
     cfg_signalMaxAgeMs := 1000;
     statusIntervalSeconds := 20;
     cfg_sharesPerTrade := 25 # 10;
     claim := {| enabled := true;
                 intervalMinutes := 15;
                 claimWalletAddress := "0x2222222222222222222222222222222222222222";
                 safeAddress := Some "0x1111111111111111111111111111111111111111"%string;
                 dataApiUrl := "https://data-api.polymarket.com/positions";
                 ctfAddress := "0x4D97DCd97eC945f40cF65F87097ACe5EA0476045";
                 collateralTokenAddress := "0x2791Bca1f2de4661ED88A30C99A7a9449Aa84174" |} |}.

(** The configuration with every optional variable left unset. *)
Definition defaultConfig (wallet key claimWallet : string) : FullConfig :=
  {| walletAddress := wallet;
     privateKey := key;
     chainId := 137;
     rpcUrl := "https://polygon-rpc.com";
     clobHttpUrl := "https://clob.polymarket.com";
     clobWsUrl := "wss://ws-subscriptions-clob.polymarket.com/ws/market";
     gammaEventsUrl := "https://gamma-api.polymarket.com/events";
     cfg_redisHost := "127.0.0.1";
     cfg_redisPort := 6379;
     cfg_redisChannel := "ODDS_FOR_COMMUNITY";
     cfg_redisPassword := None;
     cfg_signalMaxAgeMs := 1000;
     statusIntervalSeconds := 20;
     cfg_sharesPerTrade := 10;
     claim := {| enabled := true;
                 intervalMinutes := 15;
                 claimWalletAddress := claimWallet;
                 safeAddress :=
                   if String.eqb (toLowerCase claimWallet) (toLowerCase wallet)
                   then None else Some wallet;
                 dataApiUrl := "https://data-api.polymarket.com/positions";
                 ctfAddress := "0x4D97DCd97eC945f40cF65F87097ACe5EA0476045";
                 collateralTokenAddress := "0x2791Bca1f2de4661ED88A30C99A7a9449Aa84174" |} |}.

(** Only the three required variables. *)
Definition minimalEnv : Env :=
  envOf [("WALLET_ADDRESS", "0x1111111111111111111111111111111111111111");
         ("PRIVATE_KEY", " 0xabc ");
         ("CLAIM_WALLET_ADDRESS", "0x1111111111111111111111111111111111111111")]%string.

(* ------------------------------------------------------------------ *)
(** ** [src/marketResolver.ts] *)

(** The Gamma API's answers are read at the types the interfaces
    [GammaMarket] and [GammaEvent] give them; a field that is absent or
    [null] is [None].  [clobTokenIds] and [outcomes] stay JavaScript values:
    [parseStringArray] inspects them. *)
Record GammaEventRef : Type := {
  ref_slug : option string;
  ref_title : option string
}.

Record GammaMarket : Type := {
  gm_slug : option string;
  question : option string;
  gm_title : option string;
  clobTokenIds : jsval;
  outcomes : jsval;
  active : option bool;
  closed : option bool;
  archived : option bool;
  gm_eventSlug : option string;
  event_slug : option string;
  eventTitle : option string;
  event_title : option string;
  event : option GammaEventRef
}.

Record GammaEvent : Type := {
  ge_slug : option string;
  ge_title : option string;
  (** [None] when [event.markets] is not an array *)
  markets : option (list GammaMarket)
}.

Local Open Scope string_scope.

(** [a || b] for two strings. *)
Definition or_else (a b : string) : string := if String.eqb a "" then b else a.

(** [item.length > 0] *)
Definition nonempty (item : string) : bool := negb (Nat.eqb (String.length item) 0).

(** [s.split(c)] for a one-character separator. *)
Fixpoint split_on (sep : ascii) (s : string) : list string :=
  match s with
  | EmptyString => [EmptyString]
  | String c rest =>
      if Ascii.eqb c sep then EmptyString :: split_on sep rest
      else
        match split_on sep rest with
        | head :: tail => String c head :: tail
        | [] => [String c EmptyString]
        end
  end.

(** [s.endsWith(c)] for a one-character suffix. *)
Fixpoint endsWith (c : ascii) (s : string) : bool :=
  match s with
  | EmptyString => false
  | String a rest =>
      match rest with
      | EmptyString => Ascii.eqb a c
      | String _ _ => endsWith c rest
      end
  end.

(** [s.startsWith(c)] for a one-character prefix. *)
Definition startsWith (c : ascii) (s : string) : bool :=
  match s with
  | EmptyString => false
  | String a _ => Ascii.eqb a c
  end.

(** [hay.includes(needle)] *)
Fixpoint includes (needle hay : string) : bool :=
  String.prefix needle hay
  || match hay with
     | EmptyString => false
     | String _ rest => includes needle rest
     end.

(** [list[index]]; [None] is [undefined]. *)
Definition index_at {A : Type} (l : list A) (index : Z) : option A :=
  if (index <? 0)%Z then None else nth_error l (Z.to_nat index).

(** The first match of [/\/events(?=\/|$|\?)/] replaced by [/markets]; the
    string itself when there is no match. *)
Fixpoint replace_events (s : string) : string :=
  match s with
  | EmptyString => EmptyString
  | String c rest =>
      let after := String.substring 7 (String.length s - 7) s in
      if String.prefix "/events" s
         && match after with
            | EmptyString => true
            | String a _ => Ascii.eqb a "/" || Ascii.eqb a "?"
            end
      then "/markets" ++ after
      else String c (replace_events rest)
  end.

Definition deriveMarketsUrl (eventsUrl : string) : string :=
  let replaced := replace_events eventsUrl in
  if negb (String.eqb replaced eventsUrl) then replaced
  else "https://gamma-api.polymarket.com/markets".

(** A computation that recurses on what the engine returns is given fuel. *)
Inductive Fueled (A : Type) : Type :=
| Done (a : A)
| OutOfFuel.
Arguments Done {A} a.
Arguments OutOfFuel {A}.

Section MarketResolver.

Variable rt : JsRuntime.

(** [value.map((item) => String(item).trim()).filter((item) => item.length > 0)] *)
Definition trimmed_items (value : list jsval) : list string :=
  filter nonempty (map (fun item => trim (js_String rt item)) value).

(** The recursive call is on the value that [JSON.parse] returned, which is
    not a part of the argument; [fuel] bounds the depth of the recursion. *)
Fixpoint parseStringArray (fuel : nat) (value : jsval) : Fueled (list string) :=
  match value with
  | JArr items => Done (trimmed_items items)
  | JStr text =>
      let trimmed := trim text in
      if Nat.eqb (String.length trimmed) 0 then Done []
      else if startsWith "[" trimmed && endsWith "]" trimmed then
        match json_parse rt trimmed with
        | Some parsed =>
            match fuel with
            | S fuel' => parseStringArray fuel' parsed
            | O => OutOfFuel
            end
        | None => Done []
        end
      else Done (filter nonempty (map trim (split_on "," trimmed)))
  | _ => Done []
  end.

(** One step of the [forEach] of [chooseUpDownIndices]. *)
Definition choose_step (raw : string) (index : Z) (found : Z * Z) : Z * Z :=
  let '(upIndex, downIndex) := found in
  let outcome := trim (toLowerCase raw) in
  let upIndex' :=
    if (upIndex =? -1)%Z && (String.eqb outcome "yes" || includes "up" outcome)
    then index else upIndex in
  let downIndex' :=
    if (downIndex =? -1)%Z && (String.eqb outcome "no" || includes "down" outcome)
    then index else downIndex in
  (upIndex', downIndex').

Fixpoint choose_scan (outcomes : list string) (index : Z) (found : Z * Z) : Z * Z :=
  match outcomes with
  | [] => found
  | raw :: rest => choose_scan rest (index + 1)%Z (choose_step raw index found)
  end.

Definition chooseUpDownIndices (outcomes : list string) (tokenCount : Z) : Z * Z :=
  let '(upIndex, downIndex) := choose_scan outcomes 0%Z ((-1)%Z, (-1)%Z) in
  if (0 <=? upIndex)%Z && (0 <=? downIndex)%Z && negb (upIndex =? downIndex)%Z
  then (upIndex, downIndex)
  else (0%Z, Z.min 1 (tokenCount - 1)).

Definition buildResolvedMarket (fuel : nat) (candidate : string) (market : GammaMarket)
    (fallbackEventSlug fallbackTitle : string) : Fueled (option ResolvedMarket) :=
  match parseStringArray fuel (clobTokenIds market) with
  | OutOfFuel => OutOfFuel
  | Done tokenIds =>
      if Nat.ltb (length tokenIds) 2 then Done None
      else
        match parseStringArray fuel (outcomes market) with
        | OutOfFuel => OutOfFuel
        | Done outcomes =>
            let '(upIndex, downIndex) :=
              chooseUpDownIndices outcomes (Z.of_nat (length tokenIds)) in
            let upTokenId := index_at tokenIds upIndex in
            let downTokenId := index_at tokenIds downIndex in
            if absent upTokenId || absent downTokenId then Done None
            else
              let eventSlug :=
                or_default (gm_eventSlug market)
                  (or_default (event_slug market)
                     (or_default (match event market with
                                  | Some e => ref_slug e
                                  | None => None
                                  end)
                        (or_else fallbackEventSlug candidate))) in
              let marketQuestion :=
                or_default (question market)
                  (or_default (gm_title market)
                     (or_default (eventTitle market)
                        (or_default (event_title market)
                           (or_default (match event market with
                                        | Some e => ref_title e
                                        | None => None
                                        end)
                              (or_else fallbackTitle candidate))))) in
              Done (Some {| sourceText := candidate;
                            eventSlug := eventSlug;
                            rm_marketSlug := or_default (gm_slug market) candidate;
                            marketQuestion := marketQuestion;
                            upTokenId := or_default upTokenId "";
                            downTokenId := or_default downTokenId "" |})
        end
  end.

End MarketResolver.

Local Close Scope string_scope.

(** What [fetch] resolves to.  The body is given at the type the code reads
    it at, [None] standing for a body that is not an array. *)
Record Response (A : Type) : Type := {
  ok : bool;
  status : Z;
  json : settled A
}.
Arguments ok {A} _.
Arguments status {A} _.
Arguments json {A} _.

(** The Gamma API and [encodeURIComponent].  The first [fetch] of
    [resolveMarketBySlug] reads its answer as [GammaEvent[]], the second as
    [GammaMarket[]]. *)
Record Gamma : Type := {
  encodeURIComponent : string -> string;
  fetchEvents : string -> settled (Response (option (list GammaEvent)));
  fetchMarkets : string -> settled (Response (option (list GammaMarket)))
}.

(** [entry.active !== false && !entry.closed && !entry.archived] *)
Definition tradable (entry : GammaMarket) : bool :=
  negb (match active entry with Some false => true | _ => false end)
  && negb (match closed entry with Some true => true | _ => false end)
  && negb (match archived entry with Some true => true | _ => false end).

(** [markets.find(...) || markets[0]] *)
Definition pick_market (markets : list GammaMarket) : option GammaMarket :=
  match find tradable markets with
  | Some entry => Some entry
  | None => nth_error markets 0
  end.

Section ResolveMarket.

Local Open Scope string_scope.

Variable rt : JsRuntime.
Variable gamma : Gamma.
Variable fuel : nat.

(** The part of [resolveMarketBySlug] that reads the events answer: the
    market resolved from it, if any. *)
Definition fromEvents (normalized : string) (events : option (list GammaEvent))
    : Fueled (option ResolvedMarket) :=
  match events with
  | Some (event :: _) =>
      let markets := match markets event with Some l => l | None => [] end in
      match pick_market markets with
      | Some market =>
          buildResolvedMarket rt fuel normalized market
            (or_default (ge_slug event) normalized)
            (or_default (ge_title event) normalized)
      | None => Done None
      end
  | _ => Done None
  end.

(** The second half of [resolveMarketBySlug], from [deriveMarketsUrl] on. *)
Definition fromMarkets (normalized gammaEventsUrl : string)
    : list string * Fueled (result ResolvedMarket) :=
  let marketsUrl := deriveMarketsUrl gammaEventsUrl in
  let url := marketsUrl ++ "?slug=" ++ encodeURIComponent gamma normalized in
  match fetchMarkets gamma url with
  | Rejects message => ([url], Done (Err (Thrown message)))
  | Resolves marketResponse =>
      if negb (ok marketResponse) then
        ([url],
         Done (Err (Thrown ("Gamma market lookup failed with HTTP "
                            ++ string_of_num rt (Fin (inject_Z (status marketResponse)))
                            ++ " for slug " ++ normalized))))
      else
        match json marketResponse with
        | Rejects message => ([url], Done (Err (Thrown message)))
        | Resolves markets =>
            match pick_market (match markets with Some l => l | None => [] end) with
            | None =>
                ([url], Done (Err (Thrown ("No market found for slug " ++ normalized))))
            | Some market =>
                match buildResolvedMarket rt fuel normalized market normalized normalized with
                | OutOfFuel => ([url], OutOfFuel)
                | Done None =>
                    ([url],
                     Done (Err (Thrown ("Market " ++ normalized
                                        ++ " has no usable token ids."))))
                | Done (Some resolved) => ([url], Done (Ok resolved))
                end
            end
        end
  end.

(** Returns the URLs fetched, in order, and the outcome of the promise. *)
Definition resolveMarketBySlug (candidate gammaEventsUrl : string)
    : list string * Fueled (result ResolvedMarket) :=
  let normalized := toLowerCase (trim candidate) in
  if String.eqb normalized "" then ([], Done (Err (Thrown "Market slug is empty.")))
  else
    let url := gammaEventsUrl ++ "?slug=" ++ encodeURIComponent gamma normalized in
    let continue (_ : unit) :=
      let '(fetched, outcome) := fromMarkets normalized gammaEventsUrl in
      (url :: fetched, outcome) in
    match fetchEvents gamma url with
    | Rejects message => ([url], Done (Err (Thrown message)))
    | Resolves response =>
        if ok response then
          match json response with
          | Rejects message => ([url], Done (Err (Thrown message)))
          | Resolves events =>
              match fromEvents normalized events with
              | OutOfFuel => ([url], OutOfFuel)
              | Done (Some resolved) => ([url], Done (Ok resolved))
              | Done None => continue tt
              end
          end
        else continue tt
    end.

End ResolveMarket.

(** A JSON text that begins with a bracket denotes an array, or nothing:
    what [JSON.parse] returns for it, if it returns, is an array. *)
Definition json_arrays (rt : JsRuntime) : Prop :=
  forall text parsed,
    startsWith "[" text = true -> json_parse rt text = Some parsed ->
    exists items, parsed = JArr items.

(** An entry as [parseStringArray] returns it: not empty, nothing to trim. *)
Definition clean (item : string) : Prop :=
  item <> EmptyString /\ trim item = item.

(** A clean entry without a comma. *)
Definition plain (item : string) : Prop :=
  clean item /\ includes_char "," item = false.

(** The engine of the examples, reading one bracketed text. *)
Definition listRuntime : JsRuntime :=
  sampleRuntime (oneMessage "[111, 222]" (JArr [JNum (Fin 111); JNum (Fin 222)])).

(** An outcome that [chooseUpDownIndices] takes for the UP side, and one it
    takes for the DOWN side. *)
Definition up_label (raw : string) : bool :=
  let outcome := trim (toLowerCase raw) in
  String.eqb outcome "yes" || includes "up" outcome.

Definition down_label (raw : string) : bool :=
  let outcome := trim (toLowerCase raw) in
  String.eqb outcome "no" || includes "down" outcome.

(** The position, counted from [index], of the first entry that satisfies
    [f]; [-1] when there is none. *)
Fixpoint first_index (f : string -> bool) (l : list string) (index : Z) : Z :=
  match l with
  | [] => (-1)%Z
  | x :: rest => if f x then index else first_index f rest (index + 1)%Z
  end.

(** A market of the Gamma API with the given token ids and outcomes. *)
Definition gammaMarket (slug : option string) (tokenIds labels : jsval) : GammaMarket :=
  {| gm_slug := slug; question := None; gm_title := None;
     clobTokenIds := tokenIds; outcomes := labels;
     active := None; closed := None; archived := None;
     gm_eventSlug := None; event_slug := None; eventTitle := None; event_title := None;
     event := None |}.

(** A Gamma API whose events endpoint answers 404 and whose markets endpoint
    returns one market. *)
Definition marketsOnly : Gamma :=
  {| encodeURIComponent := fun s => s;
     fetchEvents := fun _ =>
       Resolves {| ok := false; status := 404; json := Rejects "Unexpected token" |};
     fetchMarkets := fun _ =>
       Resolves {| ok := true; status := 200;
                   json := Resolves (Some [gammaMarket (Some btcSlug)
                                             (JStr "[111, 222]") (JStr "Up,Down")]) |} |}.

(* ------------------------------------------------------------------ *)
(** ** [src/marketWs.ts] *)

(** The connection object is a record; each method and each handler that
    [connect] registers is a function from the record to the new record and
    the calls made on the socket and the timers.  What a handler reads from
    outside the object, the socket's [readyState] and the clock, is an
    argument. *)
Module MarketWs.

Definition Socket : Type := nat.

(** A price that was logged as a tick, with the clock reading it was logged
    at. *)
Record Tick : Type := {
  tickAt : Z;
  tickSide : SignalToken;
  tickPrice : Q
}.

Inductive WsCall : Type :=
| NewSocket (socket : Socket) (url : string)
| Terminate (socket : Socket)
| Send (socket : Socket) (message : jsval)
| Ping (socket : Socket)
| SetPingTimer
| ClearPingTimer
| SetReconnectTimer
| ClearReconnectTimer
| LogTick (tick : Tick).

Record MarketWsConnection : Type := {
  ws : option Socket;
  (** whether a timer handle is held *)
  pingTimer : bool;
  reconnectTimer : bool;
  market : option ResolvedMarket;
  started : bool;
  stopped : bool;
  connected : bool;
  lastPriceLogAt : Z;
  lastTickAtMs : option Z;
  lastTickSummary : string;
  (** the number of sockets created so far, which names the next one *)
  created : nat
}.

Definition newMarketWsConnection : MarketWsConnection :=
  {| ws := None; pingTimer := false; reconnectTimer := false; market := None;
     started := false; stopped := false; connected := false; lastPriceLogAt := 0;
     lastTickAtMs := None; lastTickSummary := "none"; created := 0 |}.

Section Methods.

Variable rt : JsRuntime.
(** [price.toFixed(3)], as text *)
Variable fixed3 : Q -> string.
Variable config : FullConfig.

Definition connect (s : MarketWsConnection) : MarketWsConnection * list WsCall :=
  if stopped s || match market s with None => true | Some _ => false end then (s, [])
  else
    ({| ws := Some (created s); pingTimer := pingTimer s;
        reconnectTimer := reconnectTimer s; market := market s; started := started s;
        stopped := stopped s; connected := connected s;
        lastPriceLogAt := lastPriceLogAt s; lastTickAtMs := lastTickAtMs s;
        lastTickSummary := lastTickSummary s; created := S (created s) |},
     [NewSocket (created s) (clobWsUrl config)]).

Definition start (s : MarketWsConnection) : MarketWsConnection * list WsCall :=
  let s1 :=
    {| ws := ws s; pingTimer := pingTimer s; reconnectTimer := reconnectTimer s;
       market := market s; started := true; stopped := false; connected := connected s;
       lastPriceLogAt := lastPriceLogAt s; lastTickAtMs := lastTickAtMs s;
       lastTickSummary := lastTickSummary s; created := created s |} in
  match market s1 with
  | None => (s1, [])
  | Some _ => connect s1
  end.

Definition stop (s : MarketWsConnection) : MarketWsConnection * list WsCall :=
  ({| ws := None; pingTimer := false; reconnectTimer := false; market := market s;
      started := false; stopped := true; connected := false;
      lastPriceLogAt := lastPriceLogAt s; lastTickAtMs := lastTickAtMs s;
      lastTickSummary := lastTickSummary s; created := created s |},
   (if pingTimer s then [ClearPingTimer] else [])
   ++ (if reconnectTimer s then [ClearReconnectTimer] else [])
   ++ match ws s with Some socket => [Terminate socket] | None => [] end).

Definition updateMarket (m : ResolvedMarket) (s : MarketWsConnection)
    : MarketWsConnection * list WsCall :=
  let changed :=
    match market s with
    | None => true
    | Some current =>
        negb (String.eqb (rm_marketSlug current) (rm_marketSlug m))
        || negb (String.eqb (upTokenId current) (upTokenId m))
        || negb (String.eqb (downTokenId current) (downTokenId m))
    end in
  if negb changed then
    ({| ws := ws s; pingTimer := pingTimer s; reconnectTimer := reconnectTimer s;
        market := Some m; started := started s; stopped := stopped s;
        connected := connected s; lastPriceLogAt := lastPriceLogAt s;
        lastTickAtMs := lastTickAtMs s; lastTickSummary := lastTickSummary s;
        created := created s |}, [])
  else
    let s1 :=
      {| ws := ws s; pingTimer := pingTimer s; reconnectTimer := reconnectTimer s;
         market := Some m; started := started s; stopped := stopped s;
         connected := connected s; lastPriceLogAt := 0;
         lastTickAtMs := None; lastTickSummary := ("market=" ++ rm_marketSlug m)%string;
         created := created s |} in
    if negb (started s1) || stopped s1 then (s1, [])
    else
      match ws s1 with
      | Some socket => (s1, [Terminate socket])
      | None => connect s1
      end.

(** [ready] is [this.ws.readyState === WebSocket.OPEN]. *)
Definition subscribe (ready : bool) (s : MarketWsConnection) : list WsCall :=
  match ws s, market s with
  | Some socket, Some m =>
      if ready then
        [Send socket (JObj [("type"%string, JStr "market");
                            ("assets_ids"%string, JArr [JStr (upTokenId m);
                                                        JStr (downTokenId m)])])]
      else []
  | _, _ => []
  end.

Definition stopPing (s : MarketWsConnection) : MarketWsConnection * list WsCall :=
  if pingTimer s then
    ({| ws := ws s; pingTimer := false; reconnectTimer := reconnectTimer s;
        market := market s; started := started s; stopped := stopped s;
        connected := connected s; lastPriceLogAt := lastPriceLogAt s;
        lastTickAtMs := lastTickAtMs s; lastTickSummary := lastTickSummary s;
        created := created s |}, [ClearPingTimer])
  else (s, []).

Definition startPing (s : MarketWsConnection) : MarketWsConnection * list WsCall :=
  let '(s1, calls) := stopPing s in
  ({| ws := ws s1; pingTimer := true; reconnectTimer := reconnectTimer s1;
      market := market s1; started := started s1; stopped := stopped s1;
      connected := connected s1; lastPriceLogAt := lastPriceLogAt s1;
      lastTickAtMs := lastTickAtMs s1; lastTickSummary := lastTickSummary s1;
      created := created s1 |}, calls ++ [SetPingTimer]).

(** The handler of ['open']. *)
Definition onOpen (ready : bool) (s : MarketWsConnection)
    : MarketWsConnection * list WsCall :=
  match market s with
  | None => (s, [])
  | Some _ =>
      let s1 :=
        {| ws := ws s; pingTimer := pingTimer s; reconnectTimer := reconnectTimer s;
           market := market s; started := started s; stopped := stopped s;
           connected := true; lastPriceLogAt := lastPriceLogAt s;
           lastTickAtMs := lastTickAtMs s; lastTickSummary := lastTickSummary s;
           created := created s |} in
      let sent := subscribe ready s1 in
      let '(s2, calls) := startPing s1 in
      (s2, sent ++ calls)
  end.

(** The callback of the ping interval. *)
Definition onPing (ready : bool) (s : MarketWsConnection) : list WsCall :=
  match ws s with
  | Some socket => if ready then [Ping socket] else []
  | None => []
  end.

(** The handler of ['close']. *)
Definition onClose (s : MarketWsConnection) : MarketWsConnection * list WsCall :=
  let '(s1, calls) := stopPing s in
  let s2 :=
    {| ws := ws s1; pingTimer := pingTimer s1; reconnectTimer := reconnectTimer s1;
       market := market s1; started := started s1; stopped := stopped s1;
       connected := false; lastPriceLogAt := lastPriceLogAt s1;
       lastTickAtMs := lastTickAtMs s1; lastTickSummary := lastTickSummary s1;
       created := created s1 |} in
  if stopped s2 then (s2, calls)
  else
    ({| ws := ws s2; pingTimer := pingTimer s2; reconnectTimer := true;
        market := market s2; started := started s2; stopped := stopped s2;
        connected := connected s2; lastPriceLogAt := lastPriceLogAt s2;
        lastTickAtMs := lastTickAtMs s2; lastTickSummary := lastTickSummary s2;
        created := created s2 |}, calls ++ [SetReconnectTimer]).

Definition recordTick (now : Z) (side : SignalToken) (price : Q)
    (s : MarketWsConnection) : MarketWsConnection :=
  {| ws := ws s; pingTimer := pingTimer s; reconnectTimer := reconnectTimer s;
     market := market s; started := started s; stopped := stopped s;
     connected := connected s; lastPriceLogAt := now; lastTickAtMs := Some now;
     lastTickSummary := (token_name side ++ "=" ++ fixed3 price)%string;
     created := created s |}.

(** The body of the loop of [handleMessage] for one message; [now] is what
    [Date.now()] returns if the message gets that far. *)
Definition handleOne (m : ResolvedMarket) (now : Z) (msg : jsval)
    (s : MarketWsConnection) : MarketWsConnection * list WsCall :=
  match msg with
  | JObj record =>
      let eventType := js_String rt (or_empty (prop record "event_type")) in
      if negb (String.eqb eventType "last_trade_price") then (s, [])
      else
        let tokenId :=
          js_String rt
            (or_empty (if truthy (prop record "token_id") then prop record "token_id"
                       else prop record "asset_id")) in
        match js_Number rt (prop record "price") with
        | Fin price =>
            if (now - lastPriceLogAt s <? 15000)%Z then (s, [])
            else if String.eqb tokenId (upTokenId m) then
              (recordTick now UP price s,
               [LogTick {| tickAt := now; tickSide := UP; tickPrice := price |}])
            else if String.eqb tokenId (downTokenId m) then
              (recordTick now DOWN price s,
               [LogTick {| tickAt := now; tickSide := DOWN; tickPrice := price |}])
            else (s, [])
        | _ => (s, [])
        end
  (* an array has no [event_type]; anything else is falsy or not an object *)
  | _ => (s, [])
  end.

(** The loop; the message at position [index] reads the clock as
    [nowAt index]. *)
Fixpoint handleEach (m : ResolvedMarket) (nowAt : nat -> Z) (index : nat)
    (messages : list jsval) (s : MarketWsConnection)
    : MarketWsConnection * list WsCall :=
  match messages with
  | [] => (s, [])
  | msg :: rest =>
      let '(s1, calls1) := handleOne m (nowAt index) msg s in
      let '(s2, calls2) := handleEach m nowAt (S index) rest s1 in
      (s2, calls1 ++ calls2)
  end.

Definition handleMessage (nowAt : nat -> Z) (raw : string) (s : MarketWsConnection)
    : MarketWsConnection * list WsCall :=
  match market s with
  | None => (s, [])
  | Some m =>
      match json_parse rt raw with
      | None => (s, [])
      | Some payload =>
          let messages := match payload with JArr items => items | _ => [payload] end in
          handleEach m nowAt 0 messages s
      end
  end.

(** What can happen to the connection: a method is called, or a handler or
    timer callback runs. *)
Inductive Event : Type :=
| CallStart
| CallStop
| CallUpdateMarket (m : ResolvedMarket)
| SocketOpen (ready : bool)
| SocketMessage (nowAt : nat -> Z) (raw : string)
| SocketError
| SocketClose
| PingTimerFires (ready : bool)
| ReconnectTimerFires.

Definition dispatch (e : Event) (s : MarketWsConnection)
    : MarketWsConnection * list WsCall :=
  match e with
  | CallStart => start s
  | CallStop => stop s
  | CallUpdateMarket m => updateMarket m s
  | SocketOpen ready => onOpen ready s
  | SocketMessage nowAt raw => handleMessage nowAt raw s
  | SocketError => (s, [])
  | SocketClose => onClose s
  | PingTimerFires ready => (s, onPing ready s)
  | ReconnectTimerFires => connect s
  end.

Fixpoint run (events : list Event) (s : MarketWsConnection)
    : MarketWsConnection * list WsCall :=
  match events with
  | [] => (s, [])
  | e :: rest =>
      let '(s1, calls1) := dispatch e s in
      let '(s2, calls2) := run rest s1 in
      (s2, calls1 ++ calls2)
  end.

End Methods.

(** The clock readings of the ticks among the calls. *)
Fixpoint tick_times (calls : list WsCall) : list Z :=
  match calls with
  | [] => []
  | LogTick t :: rest => tickAt t :: tick_times rest
  | _ :: rest => tick_times rest
  end.

(** Each reading is at least 15 s after the one before it, the first one
    after [last]. *)
Fixpoint spaced (last : Z) (times : list Z) : Prop :=
  match times with
  | [] => True
  | t :: rest => (t - last >= 15000)%Z /\ spaced t rest
  end.

(** The part of the connection that a message cannot change. *)
Definition frame (s : MarketWsConnection) :=
  (ws s, pingTimer s, reconnectTimer s, market s, started s, stopped s, connected s,
   created s).

(** A call that reaches the network. *)
Definition on_the_wire (c : WsCall) : bool :=
  match c with
  | NewSocket _ _ | Send _ _ | Ping _ => true
  | _ => false
  end.

(** A call that touches neither a socket nor the reconnect timer. *)
Definition idle_call (c : WsCall) : bool :=
  match c with
  | SetPingTimer | ClearPingTimer | ClearReconnectTimer | LogTick _ => true
  | _ => false
  end.

Definition is_start (e : Event) : bool :=
  match e with CallStart => true | _ => false end.

Definition is_update (e : Event) : bool :=
  match e with CallUpdateMarket _ => true | _ => false end.

End MarketWs.

(** One tick message for the UP token of [btcMarket]. *)
Definition tickText : string := "{event_type:last_trade_price,asset_id:1001,price:0.47}".

Definition tickRuntime : JsRuntime :=
  sampleRuntime
    (oneMessage tickText
       (JObj [("event_type", JStr "last_trade_price"); ("asset_id", JStr "1001");
              ("price", JStr "0.47")]%string)).

(** A connection that is up for [btcMarket] and logged its last tick at
    1700000000000. *)
Definition liveConnection : MarketWs.MarketWsConnection :=
  {| MarketWs.ws := Some 0%nat; MarketWs.pingTimer := true;
     MarketWs.reconnectTimer := false; MarketWs.market := Some btcMarket;
     MarketWs.started := true; MarketWs.stopped := false; MarketWs.connected := true;
     MarketWs.lastPriceLogAt := 1700000000000;
     MarketWs.lastTickAtMs := Some 1700000000000%Z;
     MarketWs.lastTickSummary := "UP=0.470"; MarketWs.created := 1 |}.
(* ================================================================== *)
(** * Properties *)

(* ------------------------------------------------------------------ *)
(** ** Arithmetic of the rounding helpers *)

Lemma Qlt_bool_iff (x y : Q) : Qlt_bool x y = true <-> (x < y)%Q.
Proof.
  unfold Qlt_bool. rewrite negb_true_iff. split; intros H.
  - apply Qnot_le_lt. intros Hle. apply Qle_bool_iff in Hle. congruence.
  - destruct (Qle_bool y x) eqn:E; [|reflexivity].
    apply Qle_bool_iff in E. exfalso. exact (Qlt_not_le _ _ H E).
Qed.

Lemma Qlt_bool_false_iff (x y : Q) : Qlt_bool x y = false <-> (y <= x)%Q.
Proof.
  unfold Qlt_bool. rewrite negb_false_iff. apply Qle_bool_iff.
Qed.

Lemma Qle_bool_false_iff (x y : Q) : Qle_bool x y = false <-> (y < x)%Q.
Proof.
  split; intros H.
  - apply Qnot_le_lt. intros Hle. apply Qle_bool_iff in Hle. congruence.
  - destruct (Qle_bool x y) eqn:E; [|reflexivity].
    apply Qle_bool_iff in E. exfalso. exact (Qlt_not_le _ _ H E).
Qed.


(** Scaling a fraction by its own denominator gives back the numerator. *)
Lemma scale_by_den (n : Z) (p : positive) : (n # p) * inject_Z (Zpos p) == inject_Z n.
Proof.
  unfold Qeq, Qmult, inject_Z. simpl. rewrite Pos.mul_1_r, Z.mul_1_r. reflexivity.
Qed.

Lemma Qfloor_plus_half (n : Z) : Qfloor (inject_Z n + (1 # 2)) = n.
Proof.
  unfold Qfloor, Qplus, inject_Z. simpl.
  symmetry. apply (Z.div_unique _ _ n 1); lia.
Qed.

Lemma nearest_on_grid (n : Z) (p : positive) :
  Qfloor ((n # p) * inject_Z (Zpos p) + (1 # 2)) = n.
Proof.
  rewrite (Qfloor_comp _ (inject_Z n + (1 # 2))).
  - apply Qfloor_plus_half.
  - rewrite scale_by_den. reflexivity.
Qed.

(** A value that already has [d] decimals is left alone by [toFixed d]. *)
Lemma toFixed_grid (d : nat) (n : Z) : toFixed d (n # pow10 d) == n # pow10 d.
Proof.
  unfold toFixed.
  destruct (Qle_bool _ _); [reflexivity|].
  destruct (Qlt_bool _ _).
  - change (- (n # pow10 d)) with ((- n) # pow10 d).
    rewrite nearest_on_grid. unfold Qeq, Qopp. simpl. lia.
  - rewrite nearest_on_grid. reflexivity.
Qed.

(** [toFixed d] does not depend on how a rational is written. *)
Lemma toFixed_comp (d : nat) (x y : Q) : x == y -> toFixed d x == toFixed d y.
Proof.
  intros Hxy. unfold toFixed, Qlt_bool.
  rewrite (Qleb_comp _ _ (Qeq_refl _) _ _ (Qabs_wd _ _ Hxy)).
  destruct (Qle_bool _ (Qabs y)); [exact Hxy|].
  rewrite (Qleb_comp _ _ (Qeq_refl 0) _ _ Hxy).
  destruct (Qle_bool 0 y); cbn [negb].
  - rewrite (Qfloor_comp (x * inject_Z (Zpos (pow10 d)) + (1 # 2))
               (y * inject_Z (Zpos (pow10 d)) + (1 # 2)));
      [reflexivity | rewrite Hxy; reflexivity].
  - rewrite (Qfloor_comp (- x * inject_Z (Zpos (pow10 d)) + (1 # 2))
               (- y * inject_Z (Zpos (pow10 d)) + (1 # 2)));
      [reflexivity | rewrite Hxy; reflexivity].
Qed.




(** Rounding to [d] decimals keeps a value of [[0,1]] inside [[0,1]]. *)
Lemma toFixed_unit_interval (d : nat) (x : Q) :
  0 <= x -> x <= 1 -> 0 <= toFixed d x /\ toFixed d x <= 1.
Proof.
  intros H0 H1. unfold toFixed.
  assert (Hbig : Qle_bool (inject_Z (10 ^ 21)) (Qabs x) = false).
  { apply Qle_bool_false_iff. rewrite Qabs_pos by assumption.
    eapply Qle_lt_trans; [exact H1|]. reflexivity. }
  rewrite Hbig.
  assert (Hneg : Qlt_bool x 0 = false) by (apply Qlt_bool_false_iff; assumption).
  rewrite Hneg. set (p := pow10 d).
  assert (Hp : 0 < inject_Z (Zpos p)) by (unfold Qlt; simpl; lia).
  set (n := Qfloor (x * inject_Z (Zpos p) + (1 # 2))).
  assert (Hn0 : (0 <= n)%Z).
  { change 0%Z with (Qfloor 0). apply Qfloor_resp_le.
    apply Qle_trans with (x * inject_Z (Zpos p)).
    + apply Qmult_le_0_compat; [assumption|apply Qlt_le_weak; assumption].
    + rewrite <- (Qplus_0_r (x * inject_Z (Zpos p))) at 1.
      apply Qplus_le_r. discriminate. }
  assert (Hn1 : (n <= Zpos p)%Z).
  { assert (Hle : x * inject_Z (Zpos p) + (1 # 2) <= inject_Z (Zpos p) + (1 # 2)).
    { apply Qplus_le_l. rewrite <- (Qmult_1_l (inject_Z (Zpos p))) at 2.
      apply Qmult_le_compat_r; [assumption|apply Qlt_le_weak; assumption]. }
    apply Qfloor_resp_le in Hle. rewrite Qfloor_plus_half in Hle. exact Hle. }
  split; unfold Qle; cbn [Qnum Qden]; lia.
Qed.

(* ------------------------------------------------------------------ *)
(** ** The order execution engine *)

Lemma getShares_setShares (k : Shares) (t : SignalToken) (v : Q) :
  getShares (setShares k t v) t = v.
Proof. destruct t; reflexivity. Qed.

Lemma getShares_setShares_other (k : Shares) (t : SignalToken) (v : Q) :
  getShares (setShares k t v) (other_token t) = getShares k (other_token t).
Proof. destruct t; reflexivity. Qed.

Lemma usable_balance_spec (n : jsnum) (b : Q) :
  usable_balance n = Some b <-> n = Fin b /\ 0 <= b.
Proof.
  unfold usable_balance. destruct n as [q| | |]; try (split; [discriminate|intros [? _]; discriminate]).
  destruct (Qle_bool 0 q) eqn:E; split.
  - intros H. injection H as <-. split; [reflexivity|apply Qle_bool_iff; exact E].
  - intros [H _]. injection H as <-. reflexivity.
  - discriminate.
  - intros [H Hle]. injection H as <-. apply Qle_bool_iff in Hle. congruence.
Qed.

Section ExecutorProperties.

Variable rt : JsRuntime.
Variable client : ClobClient.
Variable config : AppConfig.

(** The balance refresh never throws; it returns the ledger entry it leaves
    behind; it touches nothing but that entry, and only when it fetched a
    non-negative balance; and it makes no order call. *)
Lemma sync_shape (t : SignalToken) (tokenId : string) (s : TradeExecutor) :
  exists s1 calls,
    syncConditionalBalance rt client t tokenId s
      = (s1, calls, Ok (getShares (knownShares s1) t))
    /\ (s1 = s \/ exists b, 0 <= b /\ s1 = set_knownShares (setShares (knownShares s) t b) s)
    /\ existsb is_order_call calls = false.
Proof.
  unfold syncConditionalBalance, try_catch, bind, cachedShares, get_self, ret, await, modify.
  destruct (has_getBalanceAllowance client); cbn [negb].
  2: { exists s, []. auto. }
  destruct (has_updateBalanceAllowance client).
  - destruct (updateBalanceAllowance client tokenId) as [[]|m]; cbn.
    2: { exists s. eexists. split; [reflexivity|]. auto. }
    destruct (getBalanceAllowance client tokenId) as [resp|m]; cbn.
    2: { exists s. eexists. split; [reflexivity|]. auto. }
    destruct (usable_balance _) as [b|] eqn:Hb; cbn.
    + exists (set_knownShares (setShares (knownShares s) t b) s). eexists.
      split; [reflexivity|]. split; [|reflexivity].
      right. exists b. split; [|reflexivity]. apply usable_balance_spec in Hb. tauto.
    + exists s. eexists. split; [reflexivity|]. auto.
  - cbn. destruct (getBalanceAllowance client tokenId) as [resp|m]; cbn.
    2: { exists s. eexists. split; [reflexivity|]. auto. }
    destruct (usable_balance _) as [b|] eqn:Hb; cbn.
    + exists (set_knownShares (setShares (knownShares s) t b) s). eexists.
      split; [reflexivity|]. split; [|reflexivity].
      right. exists b. split; [|reflexivity]. apply usable_balance_spec in Hb. tauto.
    + exists s. eexists. split; [reflexivity|]. auto.
Qed.

(** Sizing never throws and never touches the market binding. *)
Lemma computeOrderSize_shape (signal : TradingSignal) (tokenId : string) (s : TradeExecutor) :
  exists s1 calls size,
    computeOrderSize rt client config signal tokenId s = (s1, calls, Ok size)
    /\ market s1 = market s
    /\ existsb is_order_call calls = false
    /\ match direction signal with
       | BUY => s1 = s /\ calls = [] /\ size = sharesPerTrade config
       | SELL =>
           syncConditionalBalance rt client (token signal) tokenId s
             = (s1, calls, Ok (getShares (knownShares s1) (token signal)))
           /\ size = toFixed SELL_SIZE_DECIMALS
                       (roundDown (Qmin (sharesPerTrade config)
                                     (getShares (knownShares s1) (token signal))
                                   - SELL_SAFETY_BUFFER_SHARES) SELL_SIZE_DECIMALS)
       end.
Proof.
  unfold computeOrderSize. destruct (direction signal).
  - exists s, [], (sharesPerTrade config). cbn. repeat split; reflexivity.
  - destruct (sync_shape (token signal) tokenId s) as (s1 & calls & Hs & Hst & Hc).
    exists s1, calls. eexists. unfold bind. rewrite Hs. cbn. rewrite app_nil_r.
    split; [reflexivity|]. split.
    + destruct Hst as [->|(b & _ & ->)]; reflexivity.
    + split; [exact Hc|]. split; reflexivity.
Qed.

(** [execute] once its two preconditions hold: it sizes the order, and then
    skips, or creates the order and posts it once. *)
Lemma execute_bound (signal : TradingSignal) (now : Z) (s : TradeExecutor)
    (m : ResolvedMarket) (s1 : TradeExecutor) (calls : list ClientCall) (size : Q) :
  market s = Some m ->
  marketSlug signal = rm_marketSlug m ->
  computeOrderSize rt client config signal (tokenIdOf m (token signal)) s
    = (s1, calls, Ok size) ->
  execute rt client config signal now s =
    if Qle_bool size 0 then (recordSkipped rt signal now s1, calls, Ok tt)
    else
      let order := orderOf m signal size in
      match createOrder client order with
      | Rejects msg => (s1, calls ++ [CallCreateOrder order], Err (Thrown msg))
      | Resolves signed =>
          match postOrder client signed FOK with
          | Resolves response =>
              (recordSent rt signal (clampPrice (limitPrice signal)) size now response s1,
               calls ++ [CallCreateOrder order; CallPostOrder signed FOK], Ok tt)
          | Rejects msg =>
              (recordFailed rt signal (clampPrice (limitPrice signal)) size now s1,
               calls ++ [CallCreateOrder order; CallPostOrder signed FOK],
               Err (TradeFailed msg))
          end
      end.
Proof.
  intros Hm Hslug Hsize.
  unfold execute, bind at 1, get_self. rewrite Hm, Hslug, String.eqb_refl. cbn [negb].
  unfold bind at 1, mapTokenToId, bind at 1, get_self. rewrite Hm. unfold ret at 1.
  cbn [app]. fold (tokenIdOf m (token signal)).
  unfold bind at 1. rewrite Hsize.
  destruct (Qle_bool size 0).
  - unfold modify. rewrite app_nil_r. reflexivity.
  - cbv zeta. fold (orderOf m signal size).
    unfold bind at 1, await at 1.
    destruct (createOrder client (orderOf m signal size)) as [signed|msg]; [|reflexivity].
    unfold try_catch, bind, await, modify, throw.
    destruct (postOrder client signed FOK) as [response|msg]; reflexivity.
Qed.

(** C5. [updateMarket] binds the market it is given; when the identity
    triple (marketSlug, upTokenId, downTokenId) differs from the bound
    market's, or nothing was bound, both ledger entries become zero; when the
    triple is the same, the ledger is left as it was.  The counters are not
    touched either way. *)
Theorem updateMarket_resets_ledger_on_identity_change (m : ResolvedMarket) (s : TradeExecutor) :
  market (updateMarket m s) = Some m
  /\ sentCount (updateMarket m s) = sentCount s
  /\ failedCount (updateMarket m s) = failedCount s
  /\ (market s = None -> knownShares (updateMarket m s) = noShares)
  /\ (forall cur, market s = Some cur -> ~ same_identity cur m ->
        knownShares (updateMarket m s) = noShares)
  /\ (forall cur, market s = Some cur -> same_identity cur m ->
        knownShares (updateMarket m s) = knownShares s).
Proof.
  unfold updateMarket. cbn [market sentCount failedCount knownShares].
  repeat split.
  - intros ->. reflexivity.
  - intros cur -> Hdiff.
    destruct (String.eqb_spec (rm_marketSlug cur) (rm_marketSlug m)) as [E1|]; [|reflexivity].
    destruct (String.eqb_spec (upTokenId cur) (upTokenId m)) as [E2|]; [|reflexivity].
    destruct (String.eqb_spec (downTokenId cur) (downTokenId m)) as [E3|]; [|reflexivity].
    exfalso. apply Hdiff. repeat split; assumption.
  - intros cur -> (E1 & E2 & E3). rewrite E1, E2, E3, !String.eqb_refl. reflexivity.
Qed.

(** C3. With no market bound [execute] throws the no-active-market error;
    with a market bound whose slug is not the signal's it throws the
    mismatch error.  In both cases the executor is exactly as before (so is
    the ledger) and no call reaches the client: no order is created or
    submitted for the bound market. *)
Theorem execute_rejects_unbound_and_mismatched (signal : TradingSignal) (now : Z)
    (s : TradeExecutor) :
  (market s = None ->
     execute rt client config signal now s
       = (s, [], Err (NoActiveMarket (marketSlug signal))))
  /\ (forall m, market s = Some m -> marketSlug signal <> rm_marketSlug m ->
        execute rt client config signal now s
          = (s, [], Err (MarketMismatch (rm_marketSlug m) (marketSlug signal)))).
Proof.
  split.
  - intros Hm. unfold execute, bind, get_self. rewrite Hm. reflexivity.
  - intros m Hm Hne. unfold execute, bind, get_self. rewrite Hm.
    destruct (String.eqb_spec (marketSlug signal) (rm_marketSlug m)) as [E|_];
      [contradiction|reflexivity].
Qed.

(** In exact arithmetic the sizing of the code is the rule of the design
    document; where the two differ, they differ by rounding alone. *)
Lemma sell_size_formula (perTrade balance : Q) :
  toFixed SELL_SIZE_DECIMALS
    (roundDown (Qmin perTrade balance - SELL_SAFETY_BUFFER_SHARES) SELL_SIZE_DECIMALS)
  == sellSizeSpec perTrade balance.
Proof.
  unfold roundDown. cbv zeta. rewrite toFixed_grid.
  unfold sellSizeSpec. rewrite (Qmake_Qdiv _ (pow10 SELL_SIZE_DECIMALS)). reflexivity.
Qed.

(** The second half of C1 holds whatever the arithmetic: for a SELL signal
    on the bound market the balance refresh returns a balance without
    throwing, and whenever the computed size is not positive, [execute]
    returns normally, having recorded the SKIPPED summary and made no order
    call (the only calls are those of the balance refresh). *)
Lemma nonpositive_size_is_skipped (signal : TradingSignal) (now : Z) (s : TradeExecutor)
    (m : ResolvedMarket) :
  direction signal = SELL ->
  market s = Some m ->
  marketSlug signal = rm_marketSlug m ->
  exists s1 calls balance size,
    syncConditionalBalance rt client (token signal) (tokenIdOf m (token signal)) s
      = (s1, calls, Ok balance)
    /\ computeOrderSize rt client config signal (tokenIdOf m (token signal)) s
      = (s1, calls, Ok size)
    /\ (size <= 0 ->
        execute rt client config signal now s
          = (recordSkipped rt signal now s1, calls, Ok tt)
        /\ lastTradeSummary (recordSkipped rt signal now s1) = skipped_summary rt signal
        /\ knownShares (recordSkipped rt signal now s1) = knownShares s1
        /\ existsb is_order_call calls = false).
Proof.
  intros Hsell Hm Hslug.
  destruct (computeOrderSize_shape signal (tokenIdOf m (token signal)) s)
    as (s1 & calls & size & Hsize & _ & Hcalls & Hdir).
  rewrite Hsell in Hdir. destruct Hdir as [Hsync Hval].
  exists s1, calls, (getShares (knownShares s1) (token signal)), size.
  split; [exact Hsync|]. split; [exact Hsize|].
  intros Hle. rewrite (execute_bound signal now s m s1 calls size Hm Hslug Hsize).
  apply Qle_bool_iff in Hle. rewrite Hle. repeat split. exact Hcalls.
Qed.


Lemma no_order_call_no_post (calls : list ClientCall) :
  existsb is_order_call calls = false -> filter is_post_call calls = [].
Proof.
  induction calls as [|c calls IH]; [reflexivity|].
  cbn [existsb filter]. intros H. apply orb_false_iff in H as [Hc Hrest].
  destruct c; cbn in Hc |- *; try discriminate; auto.
Qed.

(** Sizing leaves the counters and the other outcome's entry alone, and for
    a BUY leaves the executor as it was. *)
Lemma sizing_frame (signal : TradingSignal) (tokenId : string)
    (s s1 : TradeExecutor) (calls : list ClientCall) (r : result Q) :
  computeOrderSize rt client config signal tokenId s = (s1, calls, r) ->
  sentCount s1 = sentCount s /\ failedCount s1 = failedCount s
  /\ getShares (knownShares s1) (other_token (token signal))
     = getShares (knownShares s) (other_token (token signal))
  /\ (direction signal = BUY -> s1 = s).
Proof.
  destruct (computeOrderSize_shape signal tokenId s)
    as (s1' & calls' & size & Hsize & _ & _ & Hdir).
  rewrite Hsize. intros H. injection H as <- <- <-.
  destruct (direction signal).
  - destruct Hdir as (-> & _ & _). auto.
  - destruct Hdir as [Hsync _].
    destruct (sync_shape (token signal) tokenId s) as (s2 & c2 & Hs2 & Hst & _).
    rewrite Hs2 in Hsync. injection Hsync as <- <-.
    destruct Hst as [->|(b & _ & ->)].
    + repeat split; discriminate.
    + cbn. rewrite getShares_setShares_other. repeat split; discriminate.
Qed.


(** An order that cannot be created is not posted; the error leaves
    [execute] as it is, past the [try] block, so nothing is counted. *)
Lemma uncreated_order_is_not_counted (signal : TradingSignal) (now : Z)
    (s : TradeExecutor) (m : ResolvedMarket) (s1 : TradeExecutor)
    (calls : list ClientCall) (size : Q) (msg : string) :
  market s = Some m ->
  marketSlug signal = rm_marketSlug m ->
  computeOrderSize rt client config signal (tokenIdOf m (token signal)) s
    = (s1, calls, Ok size) ->
  0 < size ->
  createOrder client (orderOf m signal size) = Rejects msg ->
  execute rt client config signal now s
    = (s1, calls ++ [CallCreateOrder (orderOf m signal size)], Err (Thrown msg)).
Proof.
  intros Hm Hslug Hsize Hpos Hcreate.
  rewrite (execute_bound signal now s m s1 calls size Hm Hslug Hsize).
  apply Qle_bool_false_iff in Hpos. rewrite Hpos. cbv zeta. rewrite Hcreate. reflexivity.
Qed.

Lemma parseMaybeFixed6_finite (value : jsval) : isFinite (parseMaybeFixed6 rt value) = true.
Proof.
  unfold parseMaybeFixed6.
  destruct (nullish value); [reflexivity|].
  destruct (String.eqb _ _); [reflexivity|].
  destruct (includes_char _ _).
  - destruct (parse_float rt _); reflexivity.
  - destruct (num_of_string rt _) as [q| | |]; try reflexivity.
    destruct (Qle_bool _ _); reflexivity.
Qed.

(** C10. [parseMaybeFixed6]: a present value whose text (trimmed, one quote
    off each end) is not empty, has no decimal point and reads as a number
    of absolute value at least 100000 is that number divided by 1,000,000
    (below 100000 it is the number itself); a missing value ([undefined] or
    [null]), an empty text, and a text the applicable reader ([parseFloat]
    with a decimal point, [Number] without) does not read as a finite number
    all parse to 0; the result is always finite.
    [syncConditionalBalance] never throws and returns the ledger entry it
    leaves; that entry is overwritten exactly when a balance was fetched and
    parsed to a non-negative number, and then it is that balance; in every
    other case the executor is unchanged, so the cached entry is what is
    returned. *)
Theorem balance_parsing_and_refresh (t : SignalToken) (tokenId : string) (s : TradeExecutor) :
  (forall value n,
      nullish value = false ->
      strip_quotes (trim (js_String rt value)) <> EmptyString ->
      includes_char "." (strip_quotes (trim (js_String rt value))) = false ->
      num_of_string rt (strip_quotes (trim (js_String rt value))) = Fin n ->
      (100000 <= Qabs n -> parseMaybeFixed6 rt value = Fin (n / 1000000))
      /\ (Qabs n < 100000 -> parseMaybeFixed6 rt value = Fin n))
  /\ parseMaybeFixed6 rt JUndefined = Fin 0
  /\ parseMaybeFixed6 rt JNull = Fin 0
  /\ (forall value,
        strip_quotes (trim (js_String rt value)) = EmptyString ->
        parseMaybeFixed6 rt value = Fin 0)
  /\ (forall value,
        isFinite (if includes_char "." (strip_quotes (trim (js_String rt value)))
                  then parse_float rt (strip_quotes (trim (js_String rt value)))
                  else num_of_string rt (strip_quotes (trim (js_String rt value)))) = false ->
        parseMaybeFixed6 rt value = Fin 0)
  /\ (forall value, isFinite (parseMaybeFixed6 rt value) = true)
  /\ exists s1 calls,
       syncConditionalBalance rt client t tokenId s
         = (s1, calls, Ok (getShares (knownShares s1) t))
       /\ match fetchedBalance rt client tokenId with
          | Some (Fin b) =>
              if Qle_bool 0 b
              then s1 = set_knownShares (setShares (knownShares s) t b) s
                   /\ getShares (knownShares s1) t = b
              else s1 = s
          | _ => s1 = s
          end.
Proof.
  split; [|split; [reflexivity|split; [reflexivity|split; [|split; [|split]]]]].
  - intros value n Hnn Hne Hdot Hnum. unfold parseMaybeFixed6.
    rewrite Hnn, Hdot, Hnum.
    destruct (String.eqb_spec (strip_quotes (trim (js_String rt value))) "") as [E|_];
      [contradiction|].
    split; intros Hn.
    + apply Qle_bool_iff in Hn. rewrite Hn. reflexivity.
    + apply Qle_bool_false_iff in Hn. rewrite Hn. reflexivity.
  - intros value Hempty. unfold parseMaybeFixed6. rewrite Hempty.
    destruct (nullish value); reflexivity.
  - intros value Hnf. unfold parseMaybeFixed6.
    destruct (nullish value); [reflexivity|].
    destruct (String.eqb _ _); [reflexivity|].
    destruct (includes_char _ _).
    + destruct (parse_float rt _); [discriminate|reflexivity..].
    + destruct (num_of_string rt _); [discriminate|reflexivity..].
  - exact parseMaybeFixed6_finite.
  - unfold syncConditionalBalance, fetchedBalance, try_catch, bind, cachedShares,
      get_self, ret, await, modify, usable_balance.
    destruct (has_getBalanceAllowance client); cbn [negb];
      [|exists s; eexists; split; reflexivity].
    destruct (has_updateBalanceAllowance client);
      [destruct (updateBalanceAllowance client tokenId) as [[]|msg]; cbn;
         [|exists s; eexists; split; reflexivity]
      |cbn];
      (destruct (getBalanceAllowance client tokenId) as [response|msg]; cbn;
         [|exists s; eexists; split; reflexivity]);
      (destruct (parseMaybeFixed6 rt (opt_member response "balance")) as [b| | |];
         [destruct (Qle_bool 0 b)|..]; cbn;
         [exists (set_knownShares (setShares (knownShares s) t b) s); eexists;
          split; [reflexivity|split; [reflexivity|apply getShares_setShares]]
         |exists s; eexists; split; reflexivity..]).
Qed.

End ExecutorProperties.

(** The sizing example of the design document: ten shares per trade and a
    balance of 3.2 give a SELL of 2.7. *)
Example sell_of_3_2_is_2_7 :
  exists s1 calls size,
    computeOrderSize plainRuntime (clientWith (JStr "3.2") accepted) tenShares
      sellUp "1001" (boundTo btcMarket noShares) = (s1, calls, Ok size)
    /\ size == 27 # 10
    /\ getShares (knownShares s1) UP == 32 # 10.
Proof. do 3 eexists. split; [vm_compute; reflexivity|]. split; reflexivity. Qed.

(** C1, at the failing inputs.  The size of a SELL is
    [Number(roundDown(Math.min(sharesPerTrade, balance) - 0.5, 1).toFixed(1))]
    evaluated in binary64, and that is not always the capped and buffered
    amount rounded down to one decimal.  With ten shares per trade and a
    balance of 0.6 (reported as such, or as 600000 millionths),
    [(0.6 - 0.5) * 10] is [0.9999999999999998], its floor is 0, and the
    SELL is skipped, where the rule gives 0.1; with a balance of 0.7 the
    size is 0.1, where the rule gives 0.2.  At the balances of the design
    document, 3.2 and 0.3, the two agree. *)
Theorem sell_size_falls_short_in_binary64 :
  let ten := Binary64.of_Z 10 in
  let size_at balance := Binary64.computeOrderSize SELL ten balance in
  let scaled balance :=
    Binary64.mul (Binary64.sub (Binary64.min ten balance)
                    Binary64.SELL_SAFETY_BUFFER_SHARES) ten in
  Binary64.value (scaled (Binary64.of_decimal 6 1))
    = Some (9007199254740990 # 9007199254740992)
  /\ size_at (Binary64.of_decimal 6 1) = Binary64.of_Z 0
  /\ Binary64.skipped (size_at (Binary64.of_decimal 6 1)) = true
  /\ sellSizeSpec 10 (6 # 10) == 1 # 10
  /\ Binary64.fixed6 (Binary64.of_Z 600000) = Binary64.of_decimal 6 1
  /\ size_at (Binary64.of_decimal 7 1) = Binary64.of_decimal 1 1
  /\ sellSizeSpec 10 (7 # 10) == 2 # 10
  /\ size_at (Binary64.of_decimal 32 1) = Binary64.of_decimal 27 1
  /\ sellSizeSpec 10 (32 # 10) == 27 # 10
  /\ Binary64.skipped (size_at (Binary64.of_decimal 3 1)) = true
  /\ sellSizeSpec 10 (3 # 10) <= 0.
Proof.
  cbv zeta. repeat split; try (vm_compute; reflexivity); vm_compute; discriminate.
Qed.




(** Balances as the exchange reports them: micro-shares, plain shares below
    the threshold, decimals, quoted numbers, and values that are no number;
    a negative report leaves the cached entry in place. *)
Example reported_balances :
  parseMaybeFixed6 plainRuntime (JStr "5000000") = Fin (5000000 / 1000000)
  /\ parseMaybeFixed6 plainRuntime (JStr "100000") = Fin (100000 / 1000000)
  /\ parseMaybeFixed6 plainRuntime (JStr "99999") = Fin 99999
  /\ parseMaybeFixed6 plainRuntime (JStr "3.2") = Fin (32 # 10)
  /\ parseMaybeFixed6 plainRuntime (JStr "'250000'") = Fin (250000 / 1000000)
  /\ parseMaybeFixed6 plainRuntime (JStr "n/a") = Fin 0
  /\ parseMaybeFixed6 plainRuntime (JStr "  ") = Fin 0
  /\ parseMaybeFixed6 plainRuntime JUndefined = Fin 0
  /\ syncConditionalBalance plainRuntime (clientWith (JStr "-7") accepted) UP "1001"
       (boundTo btcMarket {| sharesUP := 4; sharesDOWN := 2 |})
     = (boundTo btcMarket {| sharesUP := 4; sharesDOWN := 2 |},
        [CallUpdateBalanceAllowance "1001"; CallGetBalanceAllowance "1001"], Ok 4).
Proof. repeat split. Qed.

(** A signal for another market than the bound one, and one with nothing
    bound. *)
Example mismatched_signal_is_rejected :
  execute plainRuntime (clientWith JNull accepted) tenShares
    (signalFor BUY UP "eth-updown-15m-1700000000") 5 (boundTo btcMarket noShares)
  = (boundTo btcMarket noShares, [],
     Err (MarketMismatch btcSlug "eth-updown-15m-1700000000"))
  /\ execute plainRuntime (clientWith JNull accepted) tenShares buyUp 5 newTradeExecutor
     = (newTradeExecutor, [], Err (NoActiveMarket btcSlug)).
Proof. split; reflexivity. Qed.

(** Rebinding to another market clears a ledger that held shares;
    re-resolving the same market keeps it. *)
Example rebinding_clears_the_ledger :
  knownShares (updateMarket ethMarket
                 (boundTo btcMarket {| sharesUP := 4; sharesDOWN := 2 |})) = noShares
  /\ knownShares (updateMarket btcMarket
                    (boundTo btcMarket {| sharesUP := 4; sharesDOWN := 2 |}))
     = {| sharesUP := 4; sharesDOWN := 2 |}.
Proof. split; reflexivity. Qed.

(* ------------------------------------------------------------------ *)
(** ** The message normaliser *)

Section ParserProperties.

Variable rt : JsRuntime.

(** Reading the alias chain of a field held under one name gives the value
    held there. *)
Ltac read_chain Hin Hv Hnn Hoth :=
  unfold coalesce;
  repeat (destruct Hin as [<-|Hin];
          [rewrite ?Hoth by (solve [cbv; tauto | discriminate]);
           rewrite Hv, ?Hnn; reflexivity|]);
  contradiction.

Lemma read_held_field (p : payload) (k : string) (v : jsval) :
  (holds_under p timestamp_aliases k v -> timestampOf p = v)
  /\ (holds_under p direction_aliases k v -> directionOf p = v)
  /\ (holds_under p token_aliases k v -> tokenOf p = v)
  /\ (holds_under p price_aliases k v -> limitPriceOf p = v)
  /\ (holds_under p slug_aliases k v -> marketSlugOf p = v).
Proof.
  unfold holds_under, timestampOf, directionOf, tokenOf, limitPriceOf, marketSlugOf.
  repeat split; intros (Hin & Hv & Hnn & Hoth);
    cbn [In timestamp_aliases direction_aliases token_aliases price_aliases slug_aliases]
      in Hin, Hoth;
    read_chain Hin Hv Hnn Hoth.
Qed.

Lemma normalizeDirection_spelled (d : SignalDirection) (s : string) :
  spells_direction d s -> normalizeDirection rt (JStr s) = Ok d.
Proof.
  unfold spells_direction, normalizeDirection. intros H.
  destruct s as [|c r].
  - destruct d; cbn in H; intuition discriminate.
  - change (or_empty (JStr (String c r))) with (JStr (String c r)). cbn [js_String].
    destruct d; cbn [In] in H; destruct H as [<-|[<-|[]]]; reflexivity.
Qed.

Lemma normalizeToken_spelled (t : SignalToken) (s : string) :
  spells_token t s -> normalizeToken rt (JStr s) = Ok t.
Proof.
  unfold spells_token, normalizeToken. intros H.
  destruct s as [|c r].
  - destruct t; cbn in H; intuition discriminate.
  - change (or_empty (JStr (String c r))) with (JStr (String c r)). cbn [js_String].
    destruct t; cbn [In] in H; destruct H as [<-|[<-|[<-|[<-|[]]]]]; reflexivity.
Qed.

(** C8.  Two payloads that hold the same timestamp, price and slug values
    and spell the same direction and the same outcome, each field under any
    one of its wire names and in any letter case, normalise to the same
    signal: the same timestamp, direction, outcome, price and slug (or they
    fail with the same error); the direction and outcome are the ones
    spelled.  The remaining field, [raw], is no product of the
    normalisation: it is the payload itself, retained for diagnostics. *)
Theorem alias_payloads_normalize_alike (p p' : payload)
    (kt kd kk kp ks kt' kd' kk' kp' ks' : string) (vt vp vs : jsval)
    (d d' k k' : string) (D : SignalDirection) (T : SignalToken) :
  holds_under p timestamp_aliases kt vt -> holds_under p' timestamp_aliases kt' vt ->
  holds_under p direction_aliases kd (JStr d) ->
  holds_under p' direction_aliases kd' (JStr d') ->
  holds_under p token_aliases kk (JStr k) -> holds_under p' token_aliases kk' (JStr k') ->
  holds_under p price_aliases kp vp -> holds_under p' price_aliases kp' vp ->
  holds_under p slug_aliases ks vs -> holds_under p' slug_aliases ks' vs ->
  spells_direction D d -> spells_direction D d' ->
  spells_token T k -> spells_token T k' ->
  result_map normalized (parseSignalPayload rt p)
    = result_map normalized (parseSignalPayload rt p')
  /\ (forall s, parseSignalPayload rt p = Ok s ->
        direction s = D /\ token s = T /\ raw s = p)
  /\ (forall s', parseSignalPayload rt p' = Ok s' ->
        direction s' = D /\ token s' = T /\ raw s' = p').
Proof.
  intros Ht Ht' Hd Hd' Hk Hk' Hp Hp' Hs Hs' HD HD' HT HT'.
  unfold parseSignalPayload.
  rewrite (proj1 (read_held_field p kt vt) Ht),
    (proj1 (read_held_field p' kt' vt) Ht'),
    (proj1 (proj2 (read_held_field p kd (JStr d))) Hd),
    (proj1 (proj2 (read_held_field p' kd' (JStr d'))) Hd'),
    (proj1 (proj2 (proj2 (read_held_field p kk (JStr k)))) Hk),
    (proj1 (proj2 (proj2 (read_held_field p' kk' (JStr k')))) Hk'),
    (proj1 (proj2 (proj2 (proj2 (read_held_field p kp vp)))) Hp),
    (proj1 (proj2 (proj2 (proj2 (read_held_field p' kp' vp)))) Hp'),
    (proj2 (proj2 (proj2 (proj2 (read_held_field p ks vs)))) Hs),
    (proj2 (proj2 (proj2 (proj2 (read_held_field p' ks' vs)))) Hs').
  rewrite (normalizeDirection_spelled D d HD), (normalizeDirection_spelled D d' HD').
  rewrite (normalizeToken_spelled T k HT), (normalizeToken_spelled T k' HT').
  destruct (normalizeTimestamp rt vt) as [ts|e]; cbn [rbind result_map].
  2: { repeat split; discriminate. }
  destruct (normalizePrice rt vp) as [price|e]; cbn [rbind result_map].
  2: { repeat split; discriminate. }
  destruct (normalizeMarketSlug rt vs) as [slug|e]; cbn [rbind result_map].
  2: { repeat split; discriminate. }
  split; [reflexivity|].
  split; intros s Hs0; injection Hs0 as <-; repeat split.
Qed.

Lemma defined_iff (v : jsval) : defined v = true <-> v <> JUndefined.
Proof. destruct v; cbn; split; intros H; congruence. Qed.

Lemma hasDirection_carries (p : payload) :
  hasDirection p = true <-> carries p direction_aliases.
Proof.
  unfold hasDirection, carries, direction_aliases.
  rewrite !orb_true_iff, !defined_iff. cbn [In]. split.
  - intros [[[H|H]|H]|H]; eexists; (split; [|exact H]); tauto.
  - intros (k & [<-|[<-|[<-|[<-|[]]]]] & H); tauto.
Qed.

Lemma hasToken_carries (p : payload) :
  hasToken p = true <-> carries p token_aliases.
Proof.
  unfold hasToken, carries, token_aliases.
  rewrite !orb_true_iff, !defined_iff. cbn [In]. split.
  - intros [[[H|H]|H]|H]; eexists; (split; [|exact H]); tauto.
  - intros (k & [<-|[<-|[<-|[<-|[]]]]] & H); tauto.
Qed.

Lemma hasPrice_carries (p : payload) :
  hasPrice p = true <-> carries p price_aliases.
Proof.
  unfold hasPrice, carries, price_aliases.
  rewrite !orb_true_iff, !defined_iff. cbn [In]. split.
  - intros [[H|H]|H]; eexists; (split; [|exact H]); tauto.
  - intros (k & [<-|[<-|[<-|[]]]] & H); tauto.
Qed.

Lemma coalesce_nullish (a b : jsval) :
  nullish a = true -> nullish b = true -> nullish (a ?? b) = true.
Proof. intros Ha Hb. unfold coalesce. rewrite Ha. exact Hb. Qed.

(** A field that is absent or [null] under all its names reads as
    [null] or [undefined]. *)
Lemma lacks_reads_nullish (p : payload) :
  (lacks p timestamp_aliases -> nullish (timestampOf p) = true)
  /\ (lacks p direction_aliases -> nullish (directionOf p) = true)
  /\ (lacks p token_aliases -> nullish (tokenOf p) = true)
  /\ (lacks p price_aliases -> nullish (limitPriceOf p) = true)
  /\ (lacks p slug_aliases -> nullish (marketSlugOf p) = true).
Proof.
  unfold lacks, timestampOf, directionOf, tokenOf, limitPriceOf, marketSlugOf.
  repeat split; intros H; repeat apply coalesce_nullish; apply H; cbv; tauto.
Qed.

(** No normaliser accepts [null] or [undefined]. *)
Lemma normalizers_reject_nullish (v : jsval) :
  nullish v = true ->
  is_ok (normalizeTimestamp rt v) = false
  /\ is_ok (normalizeDirection rt v) = false
  /\ is_ok (normalizeToken rt v) = false
  /\ is_ok (normalizePrice rt v) = false
  /\ is_ok (normalizeMarketSlug rt v) = false.
Proof.
  destruct v; try discriminate; intros _; repeat split.
Qed.

Lemma parseSignalPayload_needs_every_field (p : payload) :
  lacks p timestamp_aliases \/ lacks p direction_aliases \/ lacks p token_aliases
  \/ lacks p price_aliases \/ lacks p slug_aliases ->
  is_ok (parseSignalPayload rt p) = false.
Proof.
  destruct (lacks_reads_nullish p) as (L1 & L2 & L3 & L4 & L5).
  unfold parseSignalPayload, rbind.
  intros [H|[H|[H|[H|H]]]].
  - apply L1, normalizers_reject_nullish in H. destruct H as (H & _).
    destruct (normalizeTimestamp rt _); [discriminate|reflexivity].
  - apply L2, normalizers_reject_nullish in H. destruct H as (_ & H & _).
    destruct (normalizeTimestamp rt _); [|reflexivity].
    destruct (normalizeDirection rt _); [discriminate|reflexivity].
  - apply L3, normalizers_reject_nullish in H. destruct H as (_ & _ & H & _).
    destruct (normalizeTimestamp rt _); [|reflexivity].
    destruct (normalizeDirection rt _); [|reflexivity].
    destruct (normalizeToken rt _); [discriminate|reflexivity].
  - apply L4, normalizers_reject_nullish in H. destruct H as (_ & _ & _ & H & _).
    destruct (normalizeTimestamp rt _); [|reflexivity].
    destruct (normalizeDirection rt _); [|reflexivity].
    destruct (normalizeToken rt _); [|reflexivity].
    destruct (normalizePrice rt _); [discriminate|reflexivity].
  - apply L5, normalizers_reject_nullish in H. destruct H as (_ & _ & _ & _ & H).
    destruct (normalizeTimestamp rt _); [|reflexivity].
    destruct (normalizeDirection rt _); [|reflexivity].
    destruct (normalizeToken rt _); [|reflexivity].
    destruct (normalizePrice rt _); [|reflexivity].
    destruct (normalizeMarketSlug rt _); [discriminate|reflexivity].
Qed.

(** C4. A payload that carries neither a direction, nor an outcome, nor a
    limit price under any of their names goes down the market-update path:
    the result is the market update made of the normalised timestamp (the
    clock reading when the payload has none) and slug, or the error of the
    first of those two that fails; it is never a signal.  A payload that
    carries at least one of the three is parsed as a signal: the result is
    what [parseSignalPayload] gives, never a market update, and it is an
    error as soon as one of the five signal fields (timestamp, direction,
    outcome, price, slug) is absent or [null] under all its names. *)
Theorem classification_by_signal_fields (now : Z) (p : payload) :
  (~ carries p direction_aliases /\ ~ carries p token_aliases
   /\ ~ carries p price_aliases ->
     parseRedisPayload rt now p
       = (let! ts := normalizeTimestamp rt (timestampOf p ?? JNum (Fin (inject_Z now))) in
          let! slug := normalizeMarketSlug rt (marketSlugOf p) in
          Ok (KindMarket {| mu_timestampMs := ts; mu_marketSlug := slug; mu_raw := p |}))
     /\ (forall s, parseRedisPayload rt now p <> Ok (KindSignal s)))
  /\ (carries p direction_aliases \/ carries p token_aliases
      \/ carries p price_aliases ->
     parseRedisPayload rt now p
       = (let! s := parseSignalPayload rt p in Ok (KindSignal s))
     /\ (forall u, parseRedisPayload rt now p <> Ok (KindMarket u))
     /\ (lacks p timestamp_aliases \/ lacks p direction_aliases
         \/ lacks p token_aliases \/ lacks p price_aliases \/ lacks p slug_aliases ->
         exists e, parseRedisPayload rt now p = Err e)).
Proof.
  rewrite <- hasDirection_carries, <- hasToken_carries, <- hasPrice_carries.
  unfold parseRedisPayload. split.
  - intros (Hd & Ht & Hp).
    apply not_true_is_false in Hd, Ht, Hp. rewrite Hd, Ht, Hp. cbn [negb andb].
    split; [reflexivity|]. intros s. unfold rbind.
    destruct (normalizeTimestamp rt _); [|discriminate].
    destruct (normalizeMarketSlug rt _); discriminate.
  - intros Hany.
    assert (Hsel : negb (hasDirection p) && negb (hasToken p) && negb (hasPrice p) = false).
    { destruct Hany as [H|[H|H]]; rewrite H; cbn;
        rewrite ?andb_false_r; reflexivity. }
    rewrite Hsel. split; [reflexivity|]. split.
    + intros u. unfold rbind. destruct (parseSignalPayload rt p); discriminate.
    + intros Hlack. apply parseSignalPayload_needs_every_field in Hlack.
      unfold rbind. destruct (parseSignalPayload rt p) as [s|e]; [discriminate|].
      exists e. reflexivity.
Qed.

(** What [normalizePrice] accepts and what it returns: the raw value must
    read as a finite number; above 1 it is a percentage; the converted price
    must lie strictly between 0 and 1; the result is that price rounded to
    four decimals, which lies between 0 and 1, both included. *)
Lemma normalizePrice_spec (v : jsval) (r : Q) :
  normalizePrice rt v = Ok r <->
  exists value,
    js_Number rt v = Fin value
    /\ let price := if Qlt_bool 1 value then value / 100 else value in
       0 < price /\ price < 1 /\ r = toFixed 4 price.
Proof.
  unfold normalizePrice. split.
  - destruct (js_Number rt v) as [value| | |]; try discriminate.
    destruct (Qle_bool _ 0) eqn:E0; [discriminate|].
    destruct (Qle_bool 1 _) eqn:E1; [discriminate|]. cbn [orb].
    intros H. injection H as <-. exists value.
    apply Qle_bool_false_iff in E0, E1. auto.
  - intros (value & -> & H0 & H1 & ->).
    apply Qle_bool_false_iff in H0, H1. rewrite H0, H1. reflexivity.
Qed.

Lemma normalizePrice_range (v : jsval) (r : Q) :
  normalizePrice rt v = Ok r -> 0 <= r /\ r <= 1.
Proof.
  intros H. apply normalizePrice_spec in H. destruct H as (value & _ & H0 & H1 & ->).
  apply toFixed_unit_interval; apply Qlt_le_weak; assumption.
Qed.

(** C2, at the failing inputs.  [normalizePrice] accepts 0.99996 (and
    99.996, read as a percentage) and returns 1; it accepts 0.00004 and
    returns 0.  The range check runs on the price before it is rounded. *)
Theorem normalizePrice_accepts_then_rounds_out_of_range :
  normalizePrice rt (JNum (Fin (99996 # 100000))) = Ok (10000 # 10000)
  /\ normalizePrice rt (JNum (Fin (99996 # 1000))) = Ok (10000 # 10000)
  /\ normalizePrice rt (JNum (Fin (4 # 100000))) = Ok (0 # 10000)
  /\ ~ (10000 # 10000) < 1
  /\ ~ 0 < (0 # 10000).
Proof. repeat split; discriminate. Qed.

End ParserProperties.

(** The design document's own pair: [side:"b"] against [direction:"BUY"],
    [token:"yes"] against [outcome:"UP"]. *)
Lemma alias_payloads_normalize_alike_witness :
  (holds_under shortForm direction_aliases "side" (JStr "b")
   /\ holds_under longForm direction_aliases "direction" (JStr "BUY")
   /\ holds_under shortForm token_aliases "token" (JStr "yes")
   /\ holds_under longForm token_aliases "outcome" (JStr "UP")
   /\ spells_direction BUY "b" /\ spells_direction BUY "BUY"
   /\ spells_token UP "yes" /\ spells_token UP "UP")
  /\ result_map normalized (parseSignalPayload plainRuntime shortForm)
     = result_map normalized (parseSignalPayload plainRuntime longForm).
Proof.
  assert (Held : forall p aliases k v,
            In k aliases -> prop p k = v -> nullish v = false ->
            forallb (fun k' => String.eqb k' k || nullish (prop p k')) aliases = true ->
            holds_under p aliases k v).
  { intros p aliases k v Hin Hv Hnn Hall. repeat split; try assumption.
    intros k' Hin' Hne. rewrite forallb_forall in Hall. specialize (Hall k' Hin').
    apply String.eqb_neq in Hne. rewrite Hne in Hall. exact Hall. }
  split.
  { split; [apply Held; solve [cbv; tauto | reflexivity]|].
    split; [apply Held; solve [cbv; tauto | reflexivity]|].
    split; [apply Held; solve [cbv; tauto | reflexivity]|].
    split; [apply Held; solve [cbv; tauto | reflexivity]|].
    cbv; tauto. }
  refine (proj1 (alias_payloads_normalize_alike plainRuntime shortForm longForm
    "timestamp" "side" "token" "price" "slug"
    "timestamp" "direction" "outcome" "price" "slug"
    (JNum (Fin 1700000000000)) (JNum (Fin (47 # 100))) (JStr btcSlug)
    "b" "BUY" "yes" "UP" BUY UP _ _ _ _ _ _ _ _ _ _ _ _ _ _));
    solve [apply Held; solve [cbv; tauto | reflexivity] | cbv; tauto].
Defined.

(** A market announcement is a market update stamped with the clock; a
    signal that lost its outcome and price is an error, not an update. *)
Example announcement_and_partial_signal :
  parseRedisPayload plainRuntime 1700000000123 marketConfig
    = Ok (KindMarket {| mu_timestampMs := 1700000000123; mu_marketSlug := btcSlug;
                        mu_raw := marketConfig |})
  /\ parseRedisPayload plainRuntime 1700000000123 partialSignal
     = Err (InvalidToken JUndefined).
Proof. split; reflexivity. Qed.

(* ------------------------------------------------------------------ *)
(** ** The event consumer *)

Lemma password_eqb_eq (a b : option string) : password_eqb a b = true <-> a = b.
Proof.
  destruct a as [x|], b as [y|]; cbn; try (split; congruence).
  rewrite String.eqb_eq. split; congruence.
Qed.

(** What the [catch] block of [updateRedisTarget] achieves.  A request that
    changes the host, the port or the credential and whose connection
    attempt ends in an exception returns normally and leaves the subscriber
    with the connection object, host, port, channel and credential it had,
    and with its counters; the previous connection was neither disconnected
    nor unsubscribed, and the connected flag is either untouched or re-read
    from that connection's status.  A request whose effective target equals
    the current one changes nothing and sends nothing. *)
Lemma rejected_switch_keeps_previous_target (w : RedisWorld) (next : RedisRuntimeConfig)
    (s : SignalSubscriber) :
  (hostChanged next s || portChanged next s || passwordChanged next s = true ->
   attempt_fails (attempt w) = true ->
   exists s' calls,
     updateRedisTarget w next s = (s', calls, Settles (Ok tt))
     /\ redis s' = redis s
     /\ currentHost s' = currentHost s
     /\ currentPort s' = currentPort s
     /\ currentChannel s' = currentChannel s
     /\ currentPassword s' = currentPassword s
     /\ (receivedCount s', staleCount s', processedCount s', sub_failedCount s')
        = (receivedCount s, staleCount s, processedCount s, sub_failedCount s)
     /\ (forall c0, redis s = Some c0 -> existsb (tears_down c0) calls = false)
     /\ (connected s' = connected s
         \/ connected s' = match redis s with
                           | Some c0 => status_up (statusOf w c0)
                           | None => false
                           end))
  /\ (nextHost next s = currentHost s -> nextPort next s == currentPort s ->
      nextChannel next s = currentChannel s -> nextPassword next s = currentPassword s ->
      updateRedisTarget w next s = (s, [], Settles (Ok tt))).
Proof.
  split.
  - intros Hchg Hfail. unfold updateRedisTarget.
    destruct (_ || _ || Qle_bool _ 0).
    { exists s, []. repeat split; auto. }
    destruct (negb (hostChanged next s) && _ && _ && _).
    { exists s, []. repeat split; auto. }
    rewrite Hchg. unfold connectAndSubscribe.
    destruct (attempt w) as [msg|c events msg|c events|c events];
      [| |discriminate|discriminate].
    + destruct (redis s) as [c0|] eqn:Hr;
        (eexists; eexists; split; [reflexivity|]); cbn; repeat split; auto;
        intros c1 H1; try discriminate.
      rewrite Nat.eqb_refl. reflexivity.
    + destruct (redis s) as [c0|] eqn:Hr;
        (eexists; eexists; split; [reflexivity|]); cbn; repeat split; auto;
        intros c1 H1; try discriminate.
      injection H1 as <-.
      destruct (Nat.eqb_spec c c0) as [->|Hne]; [reflexivity|].
      cbn. rewrite orb_false_r. apply Nat.eqb_neq. congruence.
  - intros Hh Hp Hc Hpw. unfold updateRedisTarget.
    destruct (_ || _ || Qle_bool _ 0); [reflexivity|].
    unfold hostChanged, portChanged, channelChanged, passwordChanged.
    rewrite Hh, Hc, Hpw, !String.eqb_refl.
    apply Qeq_bool_iff in Hp. rewrite Hp.
    rewrite (proj2 (password_eqb_eq _ _) eq_refl). reflexivity.
Qed.

(** Moving to a host that answers and rejects the subscription keeps
    connection 1 and its target; asking for the current host again does
    nothing. *)
Example refused_switch_keeps_connection_1 :
  updateRedisTarget refusing (moveTo "10.0.0.2") liveSubscriber
    = (liveSubscriber,
       [NewRedis 2%nat "10.0.0.2" 6379 None; Subscribe 2%nat "ODDS_FOR_COMMUNITY";
        Disconnect 2%nat],
       Settles (Ok tt))
  /\ updateRedisTarget refusing (moveTo "10.0.0.1") liveSubscriber
     = (liveSubscriber, [], Settles (Ok tt)).
Proof.
  split.
  - destruct (proj1 (rejected_switch_keeps_previous_target refusing (moveTo "10.0.0.2")
                       liveSubscriber) eq_refl eq_refl) as (s' & calls & Hrun & _).
    vm_compute in Hrun. injection Hrun as <- <-. vm_compute. reflexivity.
  - apply (proj2 (rejected_switch_keeps_previous_target refusing (moveTo "10.0.0.1")
                    liveSubscriber)); reflexivity.
Qed.

(** C6, where it fails.  The connection is created with
    [maxRetriesPerRequest: null] and a [retryStrategy] that never gives up,
    so towards a target that cannot be reached [subscribe] never settles.
    A valid request that changes the host, the port or the credential and
    meets such a target never returns: the [catch] block does not run.  The
    subscriber is left on the new connection while it still records the
    previous host, port, channel and credential; the previous connection is
    not disconnected, but it is no longer the current one, so every message
    it delivers from then on is dropped: nothing is counted and no
    collaborator is called. *)
Theorem unreachable_target_leaves_the_switch_half_applied (w : RedisWorld)
    (next : RedisRuntimeConfig) (s : SignalSubscriber) (c c0 : Conn)
    (events : list bool) :
  nextHost next s <> EmptyString ->
  nextChannel next s <> EmptyString ->
  0 < nextPort next s ->
  hostChanged next s || portChanged next s || passwordChanged next s = true ->
  attempt w = SubscribeNeverSettles c events ->
  redis s = Some c0 -> c0 <> c ->
  exists s',
    updateRedisTarget w next s
      = (s',
         [NewRedis c (nextHost next s) (nextPort next s) (nextPassword next s);
          Subscribe c (nextChannel next s)],
         NeverSettles)
    /\ redis s' = Some c
    /\ redis s' <> redis s
    /\ (currentHost s', currentPort s', currentChannel s', currentPassword s')
       = (currentHost s, currentPort s, currentChannel s, currentPassword s)
    /\ (receivedCount s', staleCount s', processedCount s', sub_failedCount s')
       = (receivedCount s, staleCount s, processedCount s, sub_failedCount s)
    /\ (forall (rt : JsRuntime) (config : AppConfig) (App : Type)
               (onMarketSlug : string -> SlugSource -> App -> App * result unit)
               (executor_execute : TradingSignal -> App -> App * result unit)
               (clock : Clock) (message : string) (app : App),
          deliver rt config App onMarketSlug executor_execute c0 clock message s' app
          = (s', app, [])).
Proof.
  intros Hh Hc Hp Hchg Hatt Hr Hne. unfold updateRedisTarget.
  apply String.eqb_neq in Hh, Hc. apply Qle_bool_false_iff in Hp.
  rewrite Hh, Hc, Hp, Hchg. cbn [orb].
  assert (Hsome : negb (hostChanged next s) && negb (portChanged next s)
                  && negb (channelChanged next s) && negb (passwordChanged next s) = false).
  { destruct (hostChanged next s), (portChanged next s), (passwordChanged next s),
      (channelChanged next s); try reflexivity; discriminate Hchg. }
  rewrite Hsome, Hatt. cbn [connectAndSubscribe].
  eexists. split; [reflexivity|]. cbn [redis with_connection currentHost currentPort
    currentChannel currentPassword receivedCount staleCount processedCount
    sub_failedCount].
  split; [reflexivity|]. split; [rewrite Hr; congruence|].
  split; [reflexivity|]. split; [reflexivity|].
  intros rt config App onMarketSlug executor_execute clock message app.
  unfold deliver. cbn [redis with_connection].
  apply Nat.eqb_neq in Hne. rewrite Nat.eqb_sym, Hne. reflexivity.
Qed.

(** Moving to a host where nothing listens: the call never returns, the
    subscriber is on connection 2 with the target of connection 1, and a
    message of connection 1 is dropped. *)
Lemma unreachable_target_leaves_the_switch_half_applied_witness :
  exists s',
    updateRedisTarget unreachable (moveTo "10.0.0.2") liveSubscriber
      = (s', [NewRedis 2%nat "10.0.0.2" 6379 None; Subscribe 2%nat "ODDS_FOR_COMMUNITY"],
         NeverSettles)
    /\ redis s' = Some 2%nat
    /\ currentHost s' = "10.0.0.1"%string
    /\ deliver wireRuntime tenShares Trader (setActiveMarket (fun _ => btcMarket))
         (traderExecute wireRuntime (clientWith JNull accepted) tenShares 1700000000500)
         1%nat onTime longFormText s' idleTrader
       = (s', idleTrader, []).
Proof.
  destruct (unreachable_target_leaves_the_switch_half_applied unreachable
              (moveTo "10.0.0.2") liveSubscriber 2%nat 1%nat [false]
              ltac:(discriminate) ltac:(discriminate) eq_refl eq_refl eq_refl eq_refl
              ltac:(discriminate))
    as (s' & Hrun & Hredis & _ & Htarget & _ & Hdrop).
  exists s'. split; [exact Hrun|]. split; [exact Hredis|].
  split; [injection Htarget as -> _ _ _; reflexivity|apply Hdrop].
Defined.

Section HandleMessageProperties.

Variable rt : JsRuntime.
Variable config : AppConfig.
Variable App : Type.
Variable onMarketSlug : string -> SlugSource -> App -> App * result unit.
Variable executor_execute : TradingSignal -> App -> App * result unit.

(** C9. A message that parses to a trading signal older than the hard-coded
    1000 ms: the stale counter and the received counter go up by one, the
    processed counter does not; exactly one call goes downstream, the
    rebinding of the active market to the signal's slug, and none to
    [execute]; what lies behind the subscriber is as that rebinding left it,
    and the promise settles as the rebinding did (a rebinding that throws is
    counted as a failure). *)
Theorem stale_signal_rebinds_but_is_not_executed (clock : Clock) (rawMessage : string)
    (s : SignalSubscriber) (app : App) (signal : TradingSignal) :
  parseRedisMessage rt (nowParse clock) rawMessage = Ok (KindSignal signal) ->
  signalMaxAgeMs config = HARD_CODED_SIGNAL_MAX_AGE_MS ->
  (nowAge clock - timestampMs signal > 1000)%Z ->
  exists s',
    handleMessage rt config App onMarketSlug executor_execute clock rawMessage s app
      = (s', fst (onMarketSlug (marketSlug signal) FromSignal app),
         [CallOnMarketSlug (marketSlug signal) FromSignal],
         snd (onMarketSlug (marketSlug signal) FromSignal app))
    /\ staleCount s' = (staleCount s + 1)%nat
    /\ receivedCount s' = (receivedCount s + 1)%nat
    /\ processedCount s' = processedCount s
    /\ sub_failedCount s'
       = (if is_ok (snd (onMarketSlug (marketSlug signal) FromSignal app))
          then sub_failedCount s else sub_failedCount s + 1)%nat
    /\ existsb is_execute_call [CallOnMarketSlug (marketSlug signal) FromSignal] = false.
Proof.
  intros Hparse Hmax Hage. unfold handleMessage. rewrite Hparse, Hmax.
  assert (Hstale : Z.ltb HARD_CODED_SIGNAL_MAX_AGE_MS
                     (nowAge clock - timestampMs signal) = true).
  { apply Z.ltb_lt. unfold HARD_CODED_SIGNAL_MAX_AGE_MS. lia. }
  rewrite Hstale.
  destruct (onMarketSlug (marketSlug signal) FromSignal app) as [app1 [[]|e]];
    eexists; (split; [reflexivity|]); repeat split.
Qed.

(** The other side of the threshold: a signal of age at most 1000 ms is
    rebound and then handed to [execute]. *)
Lemma fresh_signal_is_executed (clock : Clock) (rawMessage : string)
    (s : SignalSubscriber) (app app1 : App) (signal : TradingSignal) :
  parseRedisMessage rt (nowParse clock) rawMessage = Ok (KindSignal signal) ->
  signalMaxAgeMs config = HARD_CODED_SIGNAL_MAX_AGE_MS ->
  (nowAge clock - timestampMs signal <= 1000)%Z ->
  onMarketSlug (marketSlug signal) FromSignal app = (app1, Ok tt) ->
  exists s',
    handleMessage rt config App onMarketSlug executor_execute clock rawMessage s app
      = (s', fst (executor_execute signal app1),
         [CallOnMarketSlug (marketSlug signal) FromSignal; CallExecute signal],
         snd (executor_execute signal app1))
    /\ staleCount s' = staleCount s.
Proof.
  intros Hparse Hmax Hage Hbind. unfold handleMessage. rewrite Hparse, Hmax.
  assert (Hfresh : Z.ltb HARD_CODED_SIGNAL_MAX_AGE_MS
                     (nowAge clock - timestampMs signal) = false).
  { apply Z.ltb_ge. unfold HARD_CODED_SIGNAL_MAX_AGE_MS. lia. }
  rewrite Hfresh, Hbind.
  destruct (executor_execute signal app1) as [app2 [[]|e]];
    eexists; (split; [reflexivity|]); reflexivity.
Qed.

End HandleMessageProperties.

(** A signal read 1001 ms after it was emitted binds the trader to the
    signal's market, and no client call is made. *)
Lemma stale_signal_rebinds_but_is_not_executed_witness :
  (exists signal,
     parseRedisMessage wireRuntime (nowParse lateBy1001) longFormText
       = Ok (KindSignal signal)
     /\ (nowAge lateBy1001 - timestampMs signal > 1000)%Z)
  /\ exists s' t',
       handleMessage wireRuntime tenShares Trader
         (setActiveMarket (fun _ => btcMarket))
         (traderExecute wireRuntime (clientWith JNull accepted) tenShares 1700000001001)
         lateBy1001 longFormText liveSubscriber idleTrader
       = (s', t', [CallOnMarketSlug btcSlug FromSignal], Ok tt)
       /\ staleCount s' = 2%nat
       /\ activeMarketSlug t' = Some btcSlug
       /\ clientCalls t' = [].
Proof.
  split.
  - eexists. split; [vm_compute; reflexivity|]. reflexivity.
  - destruct (stale_signal_rebinds_but_is_not_executed wireRuntime tenShares Trader
                (setActiveMarket (fun _ => btcMarket))
                (traderExecute wireRuntime (clientWith JNull accepted) tenShares
                   1700000001001)
                lateBy1001 longFormText liveSubscriber idleTrader
                {| timestampMs := 1700000000000; direction := BUY; token := UP;
                   limitPrice := 4700 # 10000; marketSlug := btcSlug; raw := longForm |}
                eq_refl eq_refl eq_refl) as (s' & Hrun & Hstale & _).
    exists s'. eexists. split; [exact Hrun|]. split; [exact Hstale|].
    split; reflexivity.
Defined.

(* ================================================================== *)
(** * Further properties of the code *)

(* ------------------------------------------------------------------ *)
(** ** Rounding, continued *)

Lemma toFixed_nonneg (d : nat) (x : Q) : 0 <= x -> 0 <= toFixed d x.
Proof.
  intros H0. unfold toFixed.
  destruct (Qle_bool _ _); [exact H0|].
  assert (Hneg : Qlt_bool x 0 = false) by (apply Qlt_bool_false_iff; exact H0).
  rewrite Hneg.
  assert (Hn : (0 <= Qfloor (x * inject_Z (Zpos (pow10 d)) + (1 # 2)))%Z).
  { change 0%Z with (Qfloor 0). apply Qfloor_resp_le.
    apply Qle_trans with (x * inject_Z (Zpos (pow10 d))).
    - apply Qmult_le_0_compat; [exact H0|discriminate].
    - rewrite <- (Qplus_0_r (x * inject_Z (Zpos (pow10 d)))) at 1.
      apply Qplus_le_r. discriminate. }
  unfold Qle. cbn [Qnum Qden]. lia.
Qed.

(* ------------------------------------------------------------------ *)
(** ** The message normaliser, continued *)

Lemma slug_char_plain (c : ascii) :
  slug_char c = true -> is_ws c = false /\ lower_ascii c = c.
Proof.
  destruct c as [[] [] [] [] [] [] [] []]; vm_compute; intros H;
    first [discriminate H | split; reflexivity].
Qed.

Lemma trimEnd_plain (s : string) :
  all_chars (fun c => negb (is_ws c)) s = true -> trimEnd s = s.
Proof.
  induction s as [|c r IH]; [reflexivity|].
  cbn [all_chars trimEnd]. intros H. apply andb_true_iff in H as [Hc Hr].
  rewrite (IH Hr). apply negb_true_iff in Hc. rewrite Hc.
  destruct r; reflexivity.
Qed.

Lemma all_chars_impl (f g : ascii -> bool) (s : string) :
  (forall c, f c = true -> g c = true) -> all_chars f s = true -> all_chars g s = true.
Proof.
  intros Hfg. induction s as [|c r IH]; [reflexivity|].
  cbn [all_chars]. intros H. apply andb_true_iff in H as [Hc Hr].
  rewrite (Hfg c Hc), (IH Hr). reflexivity.
Qed.

(** A string of slug characters is already trimmed and in lower case. *)
Lemma slug_chars_canonical (s : string) :
  all_chars slug_char s = true -> trim s = s /\ toLowerCase s = s.
Proof.
  intros H. split.
  - unfold trim.
    assert (Hs : trimStart s = s).
    { destruct s as [|c r]; [reflexivity|]. cbn [all_chars] in H.
      apply andb_true_iff in H as [Hc _].
      cbn [trimStart]. rewrite (proj1 (slug_char_plain c Hc)). reflexivity. }
    rewrite Hs. apply trimEnd_plain.
    apply (all_chars_impl slug_char); [|exact H].
    intros c Hc. rewrite (proj1 (slug_char_plain c Hc)). reflexivity.
  - induction s as [|c r IH]; [reflexivity|].
    cbn [all_chars] in H. apply andb_true_iff in H as [Hc Hr].
    cbn [toLowerCase]. rewrite (proj2 (slug_char_plain c Hc)), (IH Hr). reflexivity.
Qed.

Section ParserInvariants.

Variable rt : JsRuntime.

(** X1. A slug that [normalizeMarketSlug] returns is the lower-cased, trimmed
    text of the raw value; it has at least six characters, all of them in
    [a-z0-9-]; trimming and lower-casing leave it as it is; and normalising
    it again returns it unchanged. *)
Theorem normalized_slug_is_canonical (raw : jsval) (slug : string) :
  normalizeMarketSlug rt raw = Ok slug ->
  slug = toLowerCase (trim (js_String rt (or_empty raw)))
  /\ all_chars slug_char slug = true
  /\ (6 <= String.length slug)%nat
  /\ toLowerCase (trim slug) = slug
  /\ normalizeMarketSlug rt (JStr slug) = Ok slug.
Proof.
  unfold normalizeMarketSlug.
  set (value := toLowerCase (trim (js_String rt (or_empty raw)))).
  destruct (String.eqb_spec value "") as [|Hne]; [discriminate|].
  destruct (slug_regex value) eqn:Hre; [|discriminate].
  cbn [negb]. intros H. injection H as <-.
  unfold slug_regex in Hre. apply andb_true_iff in Hre as [Hchars Hlen].
  destruct (slug_chars_canonical value Hchars) as [Htrim Hlow].
  split; [reflexivity|]. split; [exact Hchars|].
  split; [apply Nat.leb_le; exact Hlen|].
  split; [rewrite Htrim; exact Hlow|].
  assert (Hor : or_empty (JStr value) = JStr value).
  { unfold or_empty, truthy. destruct (String.eqb_spec value ""); [contradiction|reflexivity]. }
  rewrite Hor. cbn [js_String]. rewrite Htrim, Hlow.
  destruct (String.eqb_spec value ""); [contradiction|].
  unfold slug_regex. rewrite Hchars, Hlen. reflexivity.
Qed.

(** X2. A numeric timestamp that is a whole number of seconds between 10^9
    and 10^12 is read as seconds: it normalises to that number times 1000,
    the same value as the instant written in milliseconds normalises to;
    that value is at least 10^12, so normalising it again leaves it
    unchanged.  (For whole seconds in this range the product is below 10^15
    and so exact in binary64 as well.) *)
Theorem timestamps_in_seconds_and_milliseconds_agree (n : Z) :
  (10 ^ 9 <= n)%Z -> (n < 10 ^ 12)%Z ->
  normalizeTimestamp rt (JNum (Fin (inject_Z n))) = Ok (n * 1000)%Z
  /\ normalizeTimestamp rt (JNum (Fin (inject_Z (n * 1000)))) = Ok (n * 1000)%Z
  /\ (10 ^ 12 <= n * 1000)%Z
  /\ (n * 1000 < 2 ^ 53)%Z.
Proof.
  intros Hlo Hhi.
  assert (Hms : (10 ^ 12 <= n * 1000)%Z) by lia.
  cbn [normalizeTimestamp]. unfold scaleTimestamp.
  rewrite (proj2 (Qlt_bool_iff (inject_Z n) (inject_Z (10 ^ 12))));
    [|rewrite <- Zlt_Qlt; exact Hhi].
  rewrite (proj2 (Qlt_bool_false_iff (inject_Z (n * 1000)) (inject_Z (10 ^ 12))));
    [|rewrite <- Zle_Qle; exact Hms].
  assert (Hq : inject_Z n * 1000 == inject_Z (n * 1000)).
  { rewrite inject_Z_mult. reflexivity. }
  rewrite (Qfloor_comp _ _ Hq), Qfloor_Z.
  repeat split; [exact Hms|lia].
Qed.

(** X3. Whatever [parseRedisPayload] returns is validated: a signal has a
    canonical slug (six or more characters of [a-z0-9-]), a price between 0
    and 1, retains the payload, and comes from a payload that carries a
    direction, an outcome or a price; a market update has a canonical slug,
    retains the payload, and comes from a payload that carries none of the
    three. *)
Theorem parsed_messages_are_validated (now : Z) (p : payload) (msg : ParsedRedisMessage) :
  parseRedisPayload rt now p = Ok msg ->
  match msg with
  | KindSignal s =>
      slug_regex (marketSlug s) = true
      /\ 0 <= limitPrice s /\ limitPrice s <= 1
      /\ raw s = p
      /\ (carries p direction_aliases \/ carries p token_aliases
          \/ carries p price_aliases)
  | KindMarket u =>
      slug_regex (mu_marketSlug u) = true
      /\ mu_raw u = p
      /\ ~ carries p direction_aliases /\ ~ carries p token_aliases
      /\ ~ carries p price_aliases
  end.
Proof.
  assert (Hslug : forall v slug, normalizeMarketSlug rt v = Ok slug -> slug_regex slug = true).
  { intros v slug. unfold normalizeMarketSlug.
    destruct (String.eqb _ ""); [discriminate|].
    destruct (slug_regex _) eqn:Hre; [|discriminate].
    cbn [negb]. intros H. injection H as <-. exact Hre. }
  pose proof (hasDirection_carries p) as Cd.
  pose proof (hasToken_carries p) as Ct.
  pose proof (hasPrice_carries p) as Cp.
  unfold parseRedisPayload.
  destruct (negb (hasDirection p) && negb (hasToken p) && negb (hasPrice p)) eqn:Hsel.
  - apply andb_true_iff in Hsel as [Hsel Hp]. apply andb_true_iff in Hsel as [Hd Ht].
    apply negb_true_iff in Hd, Ht, Hp.
    unfold rbind.
    destruct (normalizeTimestamp rt _) as [ts|e]; [|discriminate].
    destruct (normalizeMarketSlug rt _) as [slug|e] eqn:Hs; [|discriminate].
    intros H. injection H as <-. cbn.
    split; [exact (Hslug _ _ Hs)|]. split; [reflexivity|].
    rewrite <- Cd, <- Ct, <- Cp, Hd, Ht, Hp. repeat split; discriminate.
  - unfold rbind, parseSignalPayload.
    destruct (normalizeTimestamp rt _) as [ts|e]; [|discriminate].
    destruct (normalizeDirection rt _) as [dir|e]; [|discriminate].
    destruct (normalizeToken rt _) as [tok|e]; [|discriminate].
    destruct (normalizePrice rt _) as [price|e] eqn:Hprice; [|discriminate].
    destruct (normalizeMarketSlug rt _) as [slug|e] eqn:Hs; [|discriminate].
    intros H. injection H as <-. cbn.
    destruct (normalizePrice_range rt _ _ Hprice) as [P0 P1].
    split; [exact (Hslug _ _ Hs)|]. split; [exact P0|]. split; [exact P1|].
    split; [reflexivity|].
    rewrite <- Cd, <- Ct, <- Cp.
    destruct (hasDirection p); [left; reflexivity|].
    destruct (hasToken p); [right; left; reflexivity|].
    destruct (hasPrice p); [right; right; reflexivity|discriminate].
Qed.

(** X4. [normalizeDirection] and [normalizeToken] accept exactly the listed
    spellings of the text of the raw value (letter case and surrounding
    blanks aside) and reject everything else; a falsy raw value (absent,
    [null], [false], the number 0, [NaN], the empty string) is rejected by
    both. *)
Theorem direction_and_token_spellings (raw : jsval) :
  (forall d, normalizeDirection rt raw = Ok d
             <-> spells_direction d (js_String rt (or_empty raw)))
  /\ (forall t, normalizeToken rt raw = Ok t
                <-> spells_token t (js_String rt (or_empty raw)))
  /\ (truthy raw = false ->
      normalizeDirection rt raw = Err (InvalidDirection raw)
      /\ normalizeToken rt raw = Err (InvalidToken raw)).
Proof.
  split; [|split].
  - intros d. unfold normalizeDirection, spells_direction.
    set (value := toLowerCase (trim (js_String rt (or_empty raw)))). split.
    + destruct (String.eqb_spec value "buy") as [E1|N1]; cbn [orb].
      { intros H. injection H as <-. left. auto. }
      destruct (String.eqb_spec value "b") as [E2|N2]; cbn [orb].
      { intros H. injection H as <-. right. left. auto. }
      destruct (String.eqb_spec value "sell") as [E3|N3]; cbn [orb].
      { intros H. injection H as <-. left. auto. }
      destruct (String.eqb_spec value "s") as [E4|N4]; cbn [orb]; [|discriminate].
      intros H. injection H as <-. right. left. auto.
    + destruct d; cbn [In]; intros [<-|[<-|[]]]; reflexivity.
  - intros t. unfold normalizeToken, spells_token.
    set (value := toLowerCase (trim (js_String rt (or_empty raw)))). split.
    + destruct (String.eqb_spec value "up") as [E|N1]; cbn [orb].
      { intros H. injection H as <-. cbn. auto. }
      destruct (String.eqb_spec value "yes") as [E|N2]; cbn [orb].
      { intros H. injection H as <-. cbn. auto. }
      destruct (String.eqb_spec value "long") as [E|N3]; cbn [orb].
      { intros H. injection H as <-. cbn. auto. }
      destruct (String.eqb_spec value "1") as [E|N4]; cbn [orb].
      { intros H. injection H as <-. cbn. auto. }
      destruct (String.eqb_spec value "down") as [E|N5]; cbn [orb].
      { intros H. injection H as <-. cbn. auto. }
      destruct (String.eqb_spec value "no") as [E|N6]; cbn [orb].
      { intros H. injection H as <-. cbn. auto. }
      destruct (String.eqb_spec value "short") as [E|N7]; cbn [orb].
      { intros H. injection H as <-. cbn. auto. }
      destruct (String.eqb_spec value "0") as [E|N8]; cbn [orb]; [|discriminate].
      intros H. injection H as <-. cbn. auto.
    + destruct t; cbn [In]; intros [<-|[<-|[<-|[<-|[]]]]]; reflexivity.
  - intros Hf. unfold normalizeDirection, normalizeToken, or_empty. rewrite Hf.
    split; reflexivity.
Qed.

End ParserInvariants.

Lemma normalized_slug_is_canonical_witness :
  normalizeMarketSlug plainRuntime (JStr "  BTC-UpDown-15m-1700000000 ") = Ok btcSlug
  /\ normalizeMarketSlug plainRuntime (JStr btcSlug) = Ok btcSlug.
Proof.
  split; [reflexivity|].
  exact (proj2 (proj2 (proj2 (proj2
    (normalized_slug_is_canonical plainRuntime
       (JStr "  BTC-UpDown-15m-1700000000 ") btcSlug eq_refl))))).
Defined.

(** 1700000000 s and 1700000000000 ms are the same instant. *)
Lemma timestamps_in_seconds_and_milliseconds_agree_witness :
  ((10 ^ 9 <= 1700000000)%Z /\ (1700000000 < 10 ^ 12)%Z)
  /\ normalizeTimestamp plainRuntime (JNum (Fin 1700000000))
     = Ok 1700000000000%Z
  /\ normalizeTimestamp plainRuntime (JNum (Fin 1700000000000))
     = Ok 1700000000000%Z.
Proof.
  split; [split; [discriminate|reflexivity]|].
  destruct (timestamps_in_seconds_and_milliseconds_agree plainRuntime 1700000000
              ltac:(discriminate) eq_refl) as (Hs & Hms & _).
  split; [exact Hs|exact Hms].
Defined.

(** The long form of a signal parses to a validated signal. *)
Lemma parsed_messages_are_validated_witness :
  parseRedisPayload plainRuntime 1700000000123 longForm
    = Ok (KindSignal {| timestampMs := 1700000000000; direction := BUY; token := UP;
                        limitPrice := 4700 # 10000; marketSlug := btcSlug;
                        raw := longForm |})
  /\ slug_regex btcSlug = true.
Proof.
  split; [reflexivity|].
  exact (proj1 (parsed_messages_are_validated plainRuntime 1700000000123 longForm
                  (KindSignal {| timestampMs := 1700000000000; direction := BUY;
                                 token := UP; limitPrice := 4700 # 10000;
                                 marketSlug := btcSlug; raw := longForm |}) eq_refl)).
Defined.

(* ------------------------------------------------------------------ *)
(** ** The order execution engine, continued *)


Lemma clampPrice_grid (limit : Q) :
  exists n : Z, clampPrice limit = n # 100 /\ (1 <= n <= 99)%Z.
Proof.
  unfold clampPrice. set (x := Qmin (99 # 100) (Qmax (1 # 100) limit)).
  assert (Hlo : 1 # 100 <= x).
  { apply Q.min_glb; [discriminate|apply Q.le_max_l]. }
  assert (Hhi : x <= 99 # 100) by apply Q.le_min_l.
  assert (H0 : 0 <= x) by (eapply Qle_trans; [|exact Hlo]; discriminate).
  unfold toFixed.
  assert (Hbig : Qle_bool (inject_Z (10 ^ 21)) (Qabs x) = false).
  { apply Qle_bool_false_iff. rewrite Qabs_pos by exact H0.
    eapply Qle_lt_trans; [exact Hhi|reflexivity]. }
  rewrite Hbig, (proj2 (Qlt_bool_false_iff x 0) H0).
  change (pow10 2) with 100%positive.
  exists (Qfloor (x * inject_Z 100 + (1 # 2))). split; [reflexivity|]. split.
  - change 1%Z with (Qfloor (inject_Z 1 + (1 # 2))). apply Qfloor_resp_le.
    apply Qplus_le_l.
    setoid_replace (inject_Z 1) with ((1 # 100) * inject_Z 100) by reflexivity.
    apply Qmult_le_compat_r; [exact Hlo|discriminate].
  - change 99%Z with (Qfloor (inject_Z 99 + (1 # 2))). apply Qfloor_resp_le.
    apply Qplus_le_l.
    setoid_replace (inject_Z 99) with ((99 # 100) * inject_Z 100) by reflexivity.
    apply Qmult_le_compat_r; [exact Hhi|discriminate].
Qed.

(** X5. The price of an order is a whole number of cents between 0.01 and
    0.99, whatever the limit price of the signal, and clamping it again
    leaves it as it is. *)
Theorem clamped_price_is_a_tick (limit : Q) :
  (exists n : Z, clampPrice limit = n # 100 /\ (1 <= n <= 99)%Z)
  /\ clampPrice (clampPrice limit) == clampPrice limit.
Proof.
  destruct (clampPrice_grid limit) as (n & E & Hn).
  split; [exists n; split; [exact E|exact Hn]|].
  rewrite E. unfold clampPrice.
  assert (Hlo : 1 # 100 <= n # 100) by (unfold Qle; cbn [Qnum Qden]; lia).
  assert (Hhi : n # 100 <= 99 # 100) by (unfold Qle; cbn [Qnum Qden]; lia).
  assert (Hx : Qmin (99 # 100) (Qmax (1 # 100) (n # 100)) == n # 100).
  { rewrite (Q.max_r _ _ Hlo). apply Q.min_r. exact Hhi. }
  rewrite (toFixed_comp 2 _ _ Hx). apply (toFixed_grid 2 n).
Qed.

Section ExecutorInvariants.

Variable rt : JsRuntime.
Variable client : ClobClient.
Variable config : AppConfig.

(** [execute] by cases: the two precondition failures, then sizing, then
    skip, create and post. *)
Lemma execute_cases (signal : TradingSignal) (now : Z) (s : TradeExecutor) :
  (market s = None
   /\ execute rt client config signal now s
      = (s, [], Err (NoActiveMarket (marketSlug signal))))
  \/ (exists m, market s = Some m /\ marketSlug signal <> rm_marketSlug m
      /\ execute rt client config signal now s
         = (s, [], Err (MarketMismatch (rm_marketSlug m) (marketSlug signal))))
  \/ (exists m s1 calls size,
        market s = Some m /\ marketSlug signal = rm_marketSlug m
        /\ computeOrderSize rt client config signal (tokenIdOf m (token signal)) s
           = (s1, calls, Ok size)
        /\ existsb is_order_call calls = false
        /\ ((size <= 0
             /\ execute rt client config signal now s
                = (recordSkipped rt signal now s1, calls, Ok tt))
            \/ (0 < size
                /\ exists msg, createOrder client (orderOf m signal size) = Rejects msg
                /\ execute rt client config signal now s
                   = (s1, calls ++ [CallCreateOrder (orderOf m signal size)],
                      Err (Thrown msg)))
            \/ (0 < size
                /\ exists signed response,
                   createOrder client (orderOf m signal size) = Resolves signed
                /\ postOrder client signed FOK = Resolves response
                /\ execute rt client config signal now s
                   = (recordSent rt signal (clampPrice (limitPrice signal)) size now
                        response s1,
                      calls ++ [CallCreateOrder (orderOf m signal size);
                                CallPostOrder signed FOK], Ok tt))
            \/ (0 < size
                /\ exists signed msg,
                   createOrder client (orderOf m signal size) = Resolves signed
                /\ postOrder client signed FOK = Rejects msg
                /\ execute rt client config signal now s
                   = (recordFailed rt signal (clampPrice (limitPrice signal)) size now s1,
                      calls ++ [CallCreateOrder (orderOf m signal size);
                                CallPostOrder signed FOK],
                      Err (TradeFailed msg))))).
Proof.
  destruct (market s) as [m|] eqn:Hm.
  2: { left. split; [reflexivity|]. unfold execute, bind, get_self. rewrite Hm. reflexivity. }
  right.
  destruct (String.eqb_spec (marketSlug signal) (rm_marketSlug m)) as [Hslug|Hslug].
  2: { left. exists m. split; [reflexivity|]. split; [exact Hslug|].
       unfold execute, bind, get_self. rewrite Hm.
       apply String.eqb_neq in Hslug. rewrite Hslug. reflexivity. }
  right.
  destruct (computeOrderSize_shape rt client config signal (tokenIdOf m (token signal)) s)
    as (s1 & calls & size & Hsize & _ & Hcalls & _).
  exists m, s1, calls, size.
  split; [reflexivity|]. split; [exact Hslug|]. split; [exact Hsize|]. split; [exact Hcalls|].
  rewrite (execute_bound rt client config signal now s m s1 calls size Hm Hslug Hsize).
  destruct (Qle_bool size 0) eqn:Hpos.
  { left. apply Qle_bool_iff in Hpos. split; [exact Hpos|reflexivity]. }
  apply Qle_bool_false_iff in Hpos. right. cbv zeta.
  destruct (createOrder client (orderOf m signal size)) as [signed|msg].
  2: { left. split; [exact Hpos|]. exists msg. split; reflexivity. }
  right. destruct (postOrder client signed FOK) as [response|msg] eqn:Hpost.
  - left. split; [exact Hpos|]. exists signed, response.
    split; [reflexivity|]. split; [exact Hpost|reflexivity].
  - right. split; [exact Hpos|]. exists signed, msg.
    split; [reflexivity|]. split; [exact Hpost|reflexivity].
Qed.

Lemma not_order_call_in (calls : list ClientCall) (c : ClientCall) :
  existsb is_order_call calls = false -> In c calls -> is_order_call c = false.
Proof.
  intros H Hin. destruct (is_order_call c) eqn:E; [|reflexivity].
  assert (existsb is_order_call calls = true) by (apply existsb_exists; eauto).
  congruence.
Qed.

(** Sizing either leaves the executor alone or overwrites the entry of the
    signal's outcome with a non-negative balance. *)
Lemma sizing_ledger (signal : TradingSignal) (tokenId : string)
    (s s1 : TradeExecutor) (calls : list ClientCall) (r : result Q) :
  computeOrderSize rt client config signal tokenId s = (s1, calls, r) ->
  s1 = s
  \/ exists b, 0 <= b
       /\ s1 = set_knownShares (setShares (knownShares s) (token signal) b) s.
Proof.
  unfold computeOrderSize. destruct (direction signal).
  - intros H. injection H as <- _ _. left. reflexivity.
  - destruct (sync_shape rt client (token signal) tokenId s) as (s2 & c2 & Hs & Hst & _).
    unfold bind. rewrite Hs. cbn. intros H. injection H as <- _ _. exact Hst.
Qed.

Lemma tick_bounds (limit : Q) :
  1 # 100 <= clampPrice limit /\ clampPrice limit <= 99 # 100.
Proof.
  destruct (clampPrice_grid limit) as (n & -> & Hn).
  split; unfold Qle; cbn [Qnum Qden]; lia.
Qed.

(** X6. Whatever [execute] does, it leaves the market binding alone and
    makes at most two order calls.  An order is only ever created for the
    bound market, when the signal names that market: for the token of the
    signal's outcome, on the signal's side, with a positive size and a price
    between 0.01 and 0.99, never expiring, at a fee rate of 1000 bps.  An
    order is only ever posted as fill-or-kill, and it is the signed form of
    an order created in the same run. *)
Theorem orders_are_well_formed (signal : TradingSignal) (now : Z)
    (s s' : TradeExecutor) (calls : list ClientCall) (r : result unit) :
  execute rt client config signal now s = (s', calls, r) ->
  market s' = market s
  /\ (length (filter is_order_call calls) <= 2)%nat
  /\ (forall o, In (CallCreateOrder o) calls ->
        exists m,
          market s = Some m /\ marketSlug signal = rm_marketSlug m
          /\ tokenID o = tokenIdOf m (token signal)
          /\ side o = mapDirection (direction signal)
          /\ 0 < size o
          /\ 1 # 100 <= price o /\ price o <= 99 # 100
          /\ expiration o = 0%Z /\ feeRateBps o = 1000%Z)
  /\ (forall signed kind, In (CallPostOrder signed kind) calls ->
        kind = FOK
        /\ exists o, In (CallCreateOrder o) calls
                     /\ createOrder client o = Resolves signed).
Proof.
  intros Hrun.
  destruct (execute_cases signal now s)
    as [(Hm & Hex)|[(m & Hm & Hne & Hex)|(m & s1 & c1 & qty & Hm & Hslug & Hsize & Hc1 & Hex)]].
  1,2: rewrite Hex in Hrun; injection Hrun as <- <- <-;
       split; [reflexivity|]; split; [cbn; lia|]; split; intros; contradiction.
  assert (Hmk : market s1 = market s).
  { destruct (sizing_ledger _ _ _ _ _ _ Hsize) as [->|(b & _ & ->)]; reflexivity. }
  assert (Hnone : filter is_order_call c1 = []).
  { clear - Hc1. induction c1 as [|c c1 IH]; [reflexivity|].
    cbn [existsb filter] in *. apply orb_false_iff in Hc1 as [Hc Hr].
    rewrite Hc. auto. }
  assert (Hok : forall o, o = orderOf m signal qty -> 0 < qty ->
            exists m0, market s = Some m0 /\ marketSlug signal = rm_marketSlug m0
              /\ tokenID o = tokenIdOf m0 (token signal)
              /\ side o = mapDirection (direction signal)
              /\ 0 < size o
              /\ 1 # 100 <= price o /\ price o <= 99 # 100
              /\ expiration o = 0%Z /\ feeRateBps o = 1000%Z).
  { intros o -> Hpos. exists m. destruct (tick_bounds (limitPrice signal)) as [T1 T2].
    repeat split; try assumption; reflexivity. }
  destruct Hex as [(Hle & Hex)|[(Hpos & msg & Hcr & Hex)
    |[(Hpos & signed & response & Hcr & Hpo & Hex)|(Hpos & signed & msg & Hcr & Hpo & Hex)]]];
    rewrite Hex in Hrun; injection Hrun as <- <- <-.
  - split; [exact Hmk|]. split; [rewrite Hnone; cbn; lia|].
    split; [intros o Hin|intros signed kind Hin];
      apply (not_order_call_in _ _ Hc1) in Hin; discriminate.
  - split; [exact Hmk|]. split; [rewrite filter_app, Hnone; cbn; lia|].
    split; [intros o Hin|intros signed kind Hin]; apply in_app_or in Hin as [Hin|Hin].
    + apply (not_order_call_in _ _ Hc1) in Hin. discriminate.
    + destruct Hin as [Hin|[]]. injection Hin as <-. apply Hok; [reflexivity|exact Hpos].
    + apply (not_order_call_in _ _ Hc1) in Hin. discriminate.
    + destruct Hin as [Hin|[]]. discriminate.
  - split; [exact Hmk|]. split; [rewrite filter_app, Hnone; cbn; lia|].
    split; [intros o Hin|intros signed' kind Hin]; apply in_app_or in Hin as [Hin|Hin].
    + apply (not_order_call_in _ _ Hc1) in Hin. discriminate.
    + destruct Hin as [Hin|[Hin|[]]]; [|discriminate].
      injection Hin as <-. apply Hok; [reflexivity|exact Hpos].
    + apply (not_order_call_in _ _ Hc1) in Hin. discriminate.
    + destruct Hin as [Hin|[Hin|[]]]; [discriminate|]. injection Hin as <- <-.
      split; [reflexivity|]. exists (orderOf m signal qty).
      split; [apply in_or_app; right; left; reflexivity|exact Hcr].
  - split; [exact Hmk|]. split; [rewrite filter_app, Hnone; cbn; lia|].
    split; [intros o Hin|intros signed' kind Hin]; apply in_app_or in Hin as [Hin|Hin].
    + apply (not_order_call_in _ _ Hc1) in Hin. discriminate.
    + destruct Hin as [Hin|[Hin|[]]]; [|discriminate].
      injection Hin as <-. apply Hok; [reflexivity|exact Hpos].
    + apply (not_order_call_in _ _ Hc1) in Hin. discriminate.
    + destruct Hin as [Hin|[Hin|[]]]; [discriminate|]. injection Hin as <- <-.
      split; [reflexivity|]. exists (orderOf m signal qty).
      split; [apply in_or_app; right; left; reflexivity|exact Hcr].
Qed.


(** X8. The ledger never goes negative: if both entries are non-negative,
    they still are after [updateMarket] and after [execute], however the
    client answers; and [execute] never touches the entry of the outcome
    the signal is not about. *)
Theorem ledger_stays_non_negative (s : TradeExecutor) :
  ledger_nonneg (knownShares s) ->
  (forall m, ledger_nonneg (knownShares (updateMarket m s)))
  /\ (forall signal now s' calls r,
        execute rt client config signal now s = (s', calls, r) ->
        ledger_nonneg (knownShares s')
        /\ getShares (knownShares s') (other_token (token signal))
           = getShares (knownShares s) (other_token (token signal))).
Proof.
  intros Hnn. split.
  - intros m. unfold updateMarket. cbn [knownShares].
    destruct (match market s with Some _ => _ | None => true end);
      [split; discriminate|exact Hnn].
  - intros signal now s' calls r Hrun.
    assert (Hset : forall k t v, ledger_nonneg k -> 0 <= v -> ledger_nonneg (setShares k t v)).
    { intros k t v [Hu Hd] Hv. destruct t; split; assumption. }
    assert (Hget : forall k t, ledger_nonneg k -> 0 <= getShares k t).
    { intros k t [Hu Hd]. destruct t; assumption. }
    destruct (execute_cases signal now s)
      as [(Hm & Hex)|[(m & Hm & Hne & Hex)
         |(m & s1 & c1 & qty & Hm & Hslug & Hsize & Hc1 & Hex)]].
    1,2: rewrite Hex in Hrun; injection Hrun as <- <- <-; split; [exact Hnn|reflexivity].
    assert (Hnn1 : ledger_nonneg (knownShares s1)).
    { destruct (sizing_ledger _ _ _ _ _ _ Hsize) as [->|(b & Hb & ->)];
        [exact Hnn|apply Hset; assumption]. }
    destruct (sizing_frame rt client config _ _ _ _ _ _ Hsize) as (_ & _ & Hother & _).
    destruct Hex as [(Hle & Hex)|[(Hpos & msg & Hcr & Hex)
      |[(Hpos & signed & response & Hcr & Hpo & Hex)|(Hpos & signed & msg & Hcr & Hpo & Hex)]]];
      rewrite Hex in Hrun; injection Hrun as <- <- <-;
      try (split; [exact Hnn1|exact Hother]).
    cbn [recordSent knownShares]. split.
    + apply Hset; [exact Hnn1|]. destruct (direction signal).
      * apply toFixed_nonneg.
        apply Qle_trans with (0 + 0); [discriminate|].
        apply Qplus_le_compat; [apply Hget; exact Hnn1|apply Qlt_le_weak; exact Hpos].
      * apply Q.le_max_l.
    + rewrite getShares_setShares_other. exact Hother.
Qed.

(** X9. Every posted order is counted once: the number of [postOrder] calls
    of a run is what the run added to the sent and failed counts together;
    neither count ever decreases; a run that returns normally adds nothing
    to the failed count; and the failed count goes up exactly when the run
    throws the trade-failed error. *)
Theorem posted_orders_are_counted (signal : TradingSignal) (now : Z)
    (s s' : TradeExecutor) (calls : list ClientCall) (r : result unit) :
  execute rt client config signal now s = (s', calls, r) ->
  (sentCount s' + failedCount s'
   = sentCount s + failedCount s + length (filter is_post_call calls))%nat
  /\ (sentCount s <= sentCount s')%nat
  /\ (failedCount s <= failedCount s')%nat
  /\ (failedCount s' = (failedCount s + 1)%nat <-> exists msg, r = Err (TradeFailed msg))
  /\ (sentCount s' = (sentCount s + 1)%nat ->
      r = Ok tt /\ exists signed, In (CallPostOrder signed FOK) calls).
Proof.
  intros Hrun.
  destruct (execute_cases signal now s)
    as [(Hm & Hex)|[(m & Hm & Hne & Hex)
       |(m & s1 & c1 & qty & Hm & Hslug & Hsize & Hc1 & Hex)]].
  1,2: rewrite Hex in Hrun; injection Hrun as <- <- <-; cbn;
       repeat split; try lia; try (intros (msg & H); discriminate).
  destruct (sizing_frame rt client config _ _ _ _ _ _ Hsize) as (Hsent & Hfailed & _ & _).
  pose proof (no_order_call_no_post _ Hc1) as Hnp.
  destruct Hex as [(Hle & Hex)|[(Hpos & msg & Hcr & Hex)
    |[(Hpos & signed & response & Hcr & Hpo & Hex)|(Hpos & signed & msg & Hcr & Hpo & Hex)]]];
    rewrite Hex in Hrun; injection Hrun as <- <- <-;
    cbn [recordSkipped recordSent recordFailed sentCount failedCount];
    rewrite ?filter_app, ?Hnp, Hsent, Hfailed; cbn [filter is_post_call app length].
  - repeat split; try lia. intros (msg & H); discriminate.
  - repeat split; try lia. intros (msg' & H); discriminate.
  - repeat split; try lia.
    + intros (msg' & H); discriminate.
    + exists signed. apply in_or_app. right. right. left. reflexivity.
  - repeat split; try lia. intros _. exists msg. reflexivity.
Qed.

(** X10. A BUY never consults the balance: every client call of the run is
    an order call, the ledger is not refreshed, and an order that is created
    has the configured shares per trade as its size. *)
Theorem buy_never_reads_the_balance (signal : TradingSignal) (now : Z)
    (s s' : TradeExecutor) (calls : list ClientCall) (r : result unit) :
  direction signal = BUY ->
  execute rt client config signal now s = (s', calls, r) ->
  existsb is_balance_call calls = false
  /\ (forall o, In (CallCreateOrder o) calls -> size o = sharesPerTrade config)
  /\ (sentCount s' = sentCount s -> knownShares s' = knownShares s).
Proof.
  intros Hbuy Hrun.
  destruct (execute_cases signal now s)
    as [(Hm & Hex)|[(m & Hm & Hne & Hex)
       |(m & s1 & c1 & qty & Hm & Hslug & Hsize & Hc1 & Hex)]].
  1,2: rewrite Hex in Hrun; injection Hrun as <- <- <-;
       repeat split; intros; contradiction.
  destruct (computeOrderSize_shape rt client config signal (tokenIdOf m (token signal)) s)
    as (s1' & c1' & qty' & Hsize' & _ & _ & Hdir).
  rewrite Hsize in Hsize'. injection Hsize' as <- <- <-.
  rewrite Hbuy in Hdir. destruct Hdir as (-> & -> & ->).
  destruct Hex as [(Hle & Hex)|[(Hpos & msg & Hcr & Hex)
    |[(Hpos & signed & response & Hcr & Hpo & Hex)|(Hpos & signed & msg & Hcr & Hpo & Hex)]]];
    rewrite Hex in Hrun; injection Hrun as <- <- <-; cbn [app];
    (split; [reflexivity|]); split.
  - intros o [].
  - reflexivity.
  - intros o [H|[]]. injection H as <-. reflexivity.
  - reflexivity.
  - intros o [H|[H|[]]]; [|discriminate]. injection H as <-. reflexivity.
  - cbn. lia.
  - intros o [H|[H|[]]]; [|discriminate]. injection H as <-. reflexivity.
  - reflexivity.
Qed.

End ExecutorInvariants.

(** A SELL against a reported balance of 3.2: one order of 2.7 shares at
    0.47 for the UP token, posted fill-or-kill. *)
Lemma orders_are_well_formed_witness :
  exists s' calls,
    execute plainRuntime (clientWith (JStr "3.2") accepted) tenShares sellUp 5
      (boundTo btcMarket noShares) = (s', calls, Ok tt)
    /\ market s' = Some btcMarket
    /\ (length (filter is_order_call calls) <= 2)%nat
    /\ filter is_post_call calls
       = [CallPostOrder
            {| signedOrder := {| tokenID := "1001"; side := SideSELL; price := 47 # 100;
                                 size := 27 # 10; expiration := 0; feeRateBps := 1000 |};
               signature := "0xsig" |} FOK].
Proof.
  destruct (execute plainRuntime (clientWith (JStr "3.2") accepted) tenShares sellUp 5
              (boundTo btcMarket noShares)) as [[s' calls] r] eqn:Hrun.
  destruct (orders_are_well_formed plainRuntime (clientWith (JStr "3.2") accepted)
              tenShares sellUp 5 (boundTo btcMarket noShares) s' calls r Hrun)
    as (Hmk & Hlen & _).
  vm_compute in Hrun. injection Hrun as <- <- <-.
  do 2 eexists. split; [reflexivity|]. split; [exact Hmk|]. split; [exact Hlen|reflexivity].
Defined.


Lemma ledger_stays_non_negative_witness :
  ledger_nonneg (knownShares (boundTo btcMarket noShares))
  /\ forall signal now s' calls r,
       execute plainRuntime (clientWith (JStr "3.2") accepted) tenShares signal now
         (boundTo btcMarket noShares) = (s', calls, r) ->
       ledger_nonneg (knownShares s').
Proof.
  assert (H0 : ledger_nonneg (knownShares (boundTo btcMarket noShares)))
    by (split; discriminate).
  split; [exact H0|].
  intros signal now s' calls r Hrun.
  exact (proj1 (proj2 (ledger_stays_non_negative plainRuntime
                         (clientWith (JStr "3.2") accepted) tenShares
                         (boundTo btcMarket noShares) H0)
                 signal now s' calls r Hrun)).
Defined.

Lemma posted_orders_are_counted_witness :
  exists s' calls,
    execute plainRuntime (clientWith JNull refused) tenShares buyUp 5
      (boundTo btcMarket noShares)
      = (s', calls, Err (TradeFailed "not enough balance"))
    /\ (sentCount s' + failedCount s' = 1)%nat
    /\ length (filter is_post_call calls) = 1%nat.
Proof.
  destruct (execute plainRuntime (clientWith JNull refused) tenShares buyUp 5
              (boundTo btcMarket noShares)) as [[s' calls] r] eqn:Hrun.
  destruct (posted_orders_are_counted plainRuntime (clientWith JNull refused) tenShares
              buyUp 5 (boundTo btcMarket noShares) s' calls r Hrun) as (Hsum & _).
  vm_compute in Hrun. injection Hrun as <- <- <-.
  do 2 eexists. split; [reflexivity|]. split; [exact Hsum|reflexivity].
Defined.

Lemma buy_never_reads_the_balance_witness :
  direction buyUp = BUY
  /\ exists s' calls,
       execute plainRuntime (clientWith (JStr "3.2") accepted) tenShares buyUp 5
         (boundTo btcMarket noShares) = (s', calls, Ok tt)
       /\ existsb is_balance_call calls = false
       /\ getShares (knownShares s') UP == 10.
Proof.
  split; [reflexivity|].
  destruct (execute plainRuntime (clientWith (JStr "3.2") accepted) tenShares buyUp 5
              (boundTo btcMarket noShares)) as [[s' calls] r] eqn:Hrun.
  destruct (buy_never_reads_the_balance plainRuntime (clientWith (JStr "3.2") accepted)
              tenShares buyUp 5 (boundTo btcMarket noShares) s' calls r eq_refl Hrun)
    as (Hbal & _).
  vm_compute in Hrun. injection Hrun as <- <- <-.
  do 2 eexists. split; [reflexivity|]. split; [exact Hbal|reflexivity].
Defined.

(* ------------------------------------------------------------------ *)
(** ** The event consumer, continued *)

Section ConsumerInvariants.

Variable rt : JsRuntime.
Variable config : AppConfig.
Variable App : Type.
Variable onMarketSlug : string -> SlugSource -> App -> App * result unit.
Variable executor_execute : TradingSignal -> App -> App * result unit.

(** The counters and the connection across one message. *)
Lemma handleMessage_step (clock : Clock) (rawMessage : string)
    (s s' : SignalSubscriber) (app app' : App) (calls : list Downstream)
    (r : result unit) :
  handleMessage rt config App onMarketSlug executor_execute clock rawMessage s app
    = (s', app', calls, r) ->
  receivedCount s' = (receivedCount s + 1)%nat
  /\ connection_of s' = connection_of s
  /\ match r with
     | Ok _ =>
         sub_failedCount s' = sub_failedCount s
         /\ (processedCount s' + staleCount s'
             = processedCount s + staleCount s + 1)%nat
         /\ (processedCount s <= processedCount s')%nat
         /\ (staleCount s <= staleCount s')%nat
     | Err _ =>
         sub_failedCount s' = (sub_failedCount s + 1)%nat
         /\ processedCount s' = processedCount s
         /\ (staleCount s <= staleCount s' <= staleCount s + 1)%nat
     end.
Proof.
  unfold handleMessage, failed.
  destruct (parseRedisMessage rt (nowParse clock) rawMessage) as [[signal|update]|e].
  - destruct (Z.ltb _ _).
    + destruct (onMarketSlug _ _ _) as [app1 [[]|e]];
        intros H; injection H as <- <- <- <-; cbn; repeat split; lia.
    + destruct (onMarketSlug _ _ _) as [app1 [[]|e]].
      * destruct (executor_execute _ _) as [app2 [[]|e]];
          intros H; injection H as <- <- <- <-; cbn; repeat split; lia.
      * intros H; injection H as <- <- <- <-; cbn; repeat split; lia.
  - destruct (onMarketSlug _ _ _) as [app1 [[]|e]];
      intros H; injection H as <- <- <- <-; cbn; repeat split; lia.
  - intros H; injection H as <- <- <- <-; cbn; repeat split; lia.
Qed.

(** X11. One message, whatever it is: the received count goes up by one and
    the connection part of the subscriber is not touched.  If the promise
    resolves, the failed count is unchanged and exactly one of the processed
    and stale counts went up by one; if it rejects, the failed count went up
    by one and the processed count is unchanged. *)
Theorem every_message_is_accounted_for (clock : Clock) (rawMessage : string)
    (s s' : SignalSubscriber) (app app' : App) (calls : list Downstream)
    (r : result unit) :
  handleMessage rt config App onMarketSlug executor_execute clock rawMessage s app
    = (s', app', calls, r) ->
  receivedCount s' = (receivedCount s + 1)%nat
  /\ connection_of s' = connection_of s
  /\ match r with
     | Ok _ =>
         sub_failedCount s' = sub_failedCount s
         /\ (processedCount s' + staleCount s'
             = processedCount s + staleCount s + 1)%nat
         /\ (processedCount s <= processedCount s')%nat
         /\ (staleCount s <= staleCount s')%nat
     | Err _ =>
         sub_failedCount s' = (sub_failedCount s + 1)%nat
         /\ processedCount s' = processedCount s
         /\ (staleCount s <= staleCount s' <= staleCount s + 1)%nat
     end.
Proof. apply handleMessage_step. Qed.

(** X12. What reaches the collaborators.  A message that does not parse
    reaches neither and leaves what lies behind the subscriber untouched.  A
    market update reaches the rebinding only.  [execute] is called at most
    once, only for a parsed signal whose age is at most the configured
    maximum, only after the rebinding to that signal's slug has returned
    normally, and with that very signal. *)
Theorem downstream_call_discipline (clock : Clock) (rawMessage : string)
    (s s' : SignalSubscriber) (app app' : App) (calls : list Downstream)
    (r : result unit) :
  handleMessage rt config App onMarketSlug executor_execute clock rawMessage s app
    = (s', app', calls, r) ->
  match parseRedisMessage rt (nowParse clock) rawMessage with
  | Err e => calls = [] /\ app' = app /\ r = Err e
  | Ok (KindMarket update) =>
      calls = [CallOnMarketSlug (mu_marketSlug update) FromMarket]
      /\ app' = fst (onMarketSlug (mu_marketSlug update) FromMarket app)
  | Ok (KindSignal signal) =>
      (calls = [CallOnMarketSlug (marketSlug signal) FromSignal]
       /\ app' = fst (onMarketSlug (marketSlug signal) FromSignal app))
      \/ (calls = [CallOnMarketSlug (marketSlug signal) FromSignal; CallExecute signal]
          /\ (nowAge clock - timestampMs signal <= signalMaxAgeMs config)%Z
          /\ snd (onMarketSlug (marketSlug signal) FromSignal app) = Ok tt
          /\ app' = fst (executor_execute signal
                           (fst (onMarketSlug (marketSlug signal) FromSignal app))))
  end.
Proof.
  unfold handleMessage, failed.
  destruct (parseRedisMessage rt (nowParse clock) rawMessage) as [[signal|update]|e].
  - destruct (Z.ltb_spec (signalMaxAgeMs config) (nowAge clock - timestampMs signal))
      as [Hold|Hage].
    + destruct (onMarketSlug _ _ _) as [app1 [[]|e]];
        intros H; injection H as <- <- <- <-; left; split; reflexivity.
    + destruct (onMarketSlug _ _ _) as [app1 [[]|e]].
      * destruct (executor_execute _ _) as [app2 [[]|e]] eqn:Hx;
          intros H; injection H as <- <- <- <-; right; cbn [fst snd];
          rewrite ?Hx; repeat split; assumption.
      * intros H; injection H as <- <- <- <-; left; split; reflexivity.
  - destruct (onMarketSlug _ _ _) as [app1 [[]|e]];
      intros H; injection H as <- <- <- <-; split; reflexivity.
  - intros H; injection H as <- <- <- <-. repeat split.
Qed.

Lemma deliver_step (c : Conn) (clock : Clock) (message : string)
    (s s' : SignalSubscriber) (app app' : App) (calls : list Downstream) :
  deliver rt config App onMarketSlug executor_execute c clock message s app
    = (s', app', calls) ->
  connection_of s' = connection_of s
  /\ (redis s = Some c ->
      exists r,
        handleMessage rt config App onMarketSlug executor_execute clock message s app
          = (s', app', calls, r))
  /\ (redis s <> Some c -> s' = s /\ app' = app /\ calls = []).
Proof.
  unfold deliver. destruct (redis s) as [current|] eqn:Hr.
  - destruct (Nat.eqb_spec current c) as [->|Hne].
    + destruct (handleMessage _ _ _ _ _ _ _ _ _) as [[[s1 app1] calls1] r] eqn:Hh.
      intros H. injection H as <- <- <-.
      split; [exact (proj1 (proj2 (handleMessage_step _ _ _ _ _ _ _ _ Hh)))|].
      split; [intros _; exists r; reflexivity|]. intros Hne. contradiction.
    + intros H. injection H as <- <- <-. split; [reflexivity|].
      split; [intros E; injection E as E; contradiction|]. intros _. repeat split.
  - intros H. injection H as <- <- <-. split; [reflexivity|].
    split; [discriminate|]. intros _. repeat split.
Qed.

(** X13. The queue always advances.  After the arrivals have been drained,
    the connection part of the subscriber is as before, and the received
    count has grown by the number of arrivals that came from the current
    connection, whether or not earlier ones failed; arrivals of any other
    connection are dropped without a trace.  Each accepted message added one
    or two to the processed, stale and failed counts taken together, and
    made at most two downstream calls. *)
Theorem queue_always_advances (arrivals : list (Conn * Clock * string))
    (s s' : SignalSubscriber) (app app' : App) (calls : list Downstream) :
  drain rt config App onMarketSlug executor_execute arrivals s app = (s', app', calls) ->
  let accepted :=
    match redis s with Some c => arrivals_of c arrivals | None => 0%nat end in
  connection_of s' = connection_of s
  /\ receivedCount s' = (receivedCount s + accepted)%nat
  /\ (processedCount s + staleCount s + sub_failedCount s + accepted
      <= processedCount s' + staleCount s' + sub_failedCount s'
      <= processedCount s + staleCount s + sub_failedCount s + 2 * accepted)%nat
  /\ (length calls <= 2 * accepted)%nat.
Proof.
  revert s s' app app' calls.
  induction arrivals as [|[[c clock] message] rest IH]; intros s s' app app' calls.
  - cbn. intros H. injection H as <- <- <-.
    destruct (redis s); cbn; repeat split; lia.
  - cbn [drain].
    destruct (deliver _ _ _ _ _ c clock message s app) as [[s1 app1] calls1] eqn:Hd.
    destruct (drain _ _ _ _ _ rest s1 app1) as [[s2 app2] calls2] eqn:Hrest.
    intros H. injection H as <- <- <-.
    destruct (deliver_step _ _ _ _ _ _ _ _ Hd) as (Hconn & Hacc & Hdrop).
    specialize (IH _ _ _ _ _ Hrest). cbv zeta in IH.
    assert (Hredis : redis s1 = redis s) by (injection Hconn; auto).
    rewrite Hredis in IH. destruct IH as (IH1 & IH2 & IH3 & IH4).
    cbv zeta. split; [rewrite IH1; exact Hconn|].
    unfold arrivals_of in *. cbn [filter fst].
    destruct (redis s) as [cur|] eqn:Hr.
    + destruct (Nat.eqb_spec cur c) as [->|Hne].
      * destruct (Hacc eq_refl) as (r & Hh).
        pose proof (handleMessage_step _ _ _ _ _ _ _ _ Hh) as (Hrecv & _ & Hcnt).
        assert (Hcalls : (length calls1 <= 2)%nat).
        { revert Hh. unfold handleMessage, failed.
          destruct (parseRedisMessage _ _ _) as [[sig|upd]|e];
            [destruct (Z.ltb _ _)|..];
            repeat match goal with
                   | |- context [onMarketSlug ?a ?b ?c] =>
                       destruct (onMarketSlug a b c) as [? [[]|?]]
                   | |- context [executor_execute ?a ?b] =>
                       destruct (executor_execute a b) as [? [[]|?]]
                   end;
            intros E; injection E as <- <- <- <-; cbn; lia. }
        cbn [length]. rewrite length_app.
        destruct r; repeat split; lia.
      * destruct (Hdrop ltac:(congruence)) as (-> & -> & ->).
        cbn [List.app]. repeat split; lia.
    + destruct (Hdrop ltac:(discriminate)) as (-> & -> & ->).
      cbn [List.app]. repeat split; lia.
Qed.

(** X14. When the rebinding callback never throws, every received message
    is counted exactly once as processed, stale or failed: if the received
    count equals the sum of the three before the queue is drained, it does
    after. *)
Theorem counters_balance_when_rebinding_never_throws
    (arrivals : list (Conn * Clock * string))
    (s s' : SignalSubscriber) (app app' : App) (calls : list Downstream) :
  (forall slug source a, snd (onMarketSlug slug source a) = Ok tt) ->
  receivedCount s = (processedCount s + staleCount s + sub_failedCount s)%nat ->
  drain rt config App onMarketSlug executor_execute arrivals s app = (s', app', calls) ->
  receivedCount s' = (processedCount s' + staleCount s' + sub_failedCount s')%nat.
Proof.
  intros Hnever. revert s s' app app' calls.
  induction arrivals as [|[[c clock] message] rest IH]; intros s s' app app' calls Hbal.
  - cbn. intros H. injection H as <- <- <-. exact Hbal.
  - cbn [drain].
    destruct (deliver _ _ _ _ _ c clock message s app) as [[s1 app1] calls1] eqn:Hd.
    destruct (drain _ _ _ _ _ rest s1 app1) as [[s2 app2] calls2] eqn:Hrest.
    intros H. injection H as <- <- <-.
    apply (IH _ _ _ _ _) in Hrest; [exact Hrest|].
    revert Hd. unfold deliver.
    destruct (redis s) as [cur|]; [destruct (Nat.eqb cur c)|];
      try (intros E; injection E as <- <- <-; exact Hbal).
    unfold handleMessage, failed.
    destruct (parseRedisMessage _ _ _) as [[sig|upd]|e];
      [destruct (Z.ltb _ _)|..];
      repeat match goal with
             | |- context [onMarketSlug ?a ?b ?c] =>
                 let Hs := fresh "Hs" in
                 pose proof (Hnever a b c) as Hs;
                 destruct (onMarketSlug a b c) as [? [[]|?]];
                 cbn [snd] in Hs; try discriminate Hs; clear Hs
             | |- context [executor_execute ?a ?b] =>
                 destruct (executor_execute a b) as [? [[]|?]]
             end;
      intros E; injection E as <- <- <-; cbn; lia.
Qed.

End ConsumerInvariants.

(** X15. A request that changes the host, the port or the credential, passes
    the validity check and meets a connection that subscribes: the new
    connection is created and subscribed to the requested channel first, and
    only then is the previous connection (if there was one, and it is
    another object) disconnected, once; the subscriber ends on the new
    connection with exactly the requested effective target, and its counters
    are untouched. *)
Theorem successful_switch_replaces_the_connection (w : RedisWorld)
    (next : RedisRuntimeConfig) (s : SignalSubscriber) (c : Conn) (events : list bool) :
  nextHost next s <> EmptyString ->
  nextChannel next s <> EmptyString ->
  0 < nextPort next s ->
  hostChanged next s || portChanged next s || passwordChanged next s = true ->
  attempt w = SubscribeResolves c events ->
  exists s',
    updateRedisTarget w next s
      = (s',
         [NewRedis c (nextHost next s) (nextPort next s) (nextPassword next s);
          Subscribe c (nextChannel next s)]
         ++ match redis s with
            | Some c0 => if Nat.eqb c0 c then [] else [Disconnect c0]
            | None => []
            end,
         Settles (Ok tt))
    /\ redis s' = Some c
    /\ currentHost s' = nextHost next s
    /\ currentPort s' = nextPort next s
    /\ currentChannel s' = nextChannel next s
    /\ currentPassword s' = nextPassword next s
    /\ (receivedCount s', staleCount s', processedCount s', sub_failedCount s')
       = (receivedCount s, staleCount s, processedCount s, sub_failedCount s).
Proof.
  intros Hh Hc Hp Hchg Hatt. unfold updateRedisTarget.
  apply String.eqb_neq in Hh, Hc. apply Qle_bool_false_iff in Hp.
  rewrite Hh, Hc, Hp, Hchg. cbn [orb].
  assert (Hsome : negb (hostChanged next s) && negb (portChanged next s)
                  && negb (channelChanged next s) && negb (passwordChanged next s) = false).
  { destruct (hostChanged next s), (portChanged next s), (passwordChanged next s),
      (channelChanged next s); try reflexivity; discriminate Hchg. }
  rewrite Hsome, Hatt. cbn [connectAndSubscribe].
  exists (with_connection (Some c) (nextHost next s) (nextPort next s)
            (nextChannel next s) (nextPassword next s)
            (apply_events events (connected s)) s).
  split; [|cbn; repeat split].
  cbn [redis with_connection]. destruct (redis s) as [c0|]; reflexivity.
Qed.

(** X16. A request that changes the channel only, on a live connection,
    never opens or closes a connection: it unsubscribes the old channel and
    subscribes the new one on the same connection, and then records the new
    channel.  If the unsubscription is rejected nothing else is sent; if the
    subscription is rejected the error reaches the caller and the subscriber
    still records the old channel, although it was unsubscribed. *)
Theorem channel_change_keeps_the_connection (w : RedisWorld)
    (next : RedisRuntimeConfig) (s : SignalSubscriber) (c : Conn) :
  nextHost next s <> EmptyString ->
  nextChannel next s <> EmptyString ->
  0 < nextPort next s ->
  hostChanged next s = false -> portChanged next s = false ->
  passwordChanged next s = false -> channelChanged next s = true ->
  redis s = Some c ->
  exists s' calls r,
    updateRedisTarget w next s = (s', calls, r)
    /\ existsb is_new_connection calls = false
    /\ existsb (tears_down c) calls = true
    /\ redis s' = Some c
    /\ (currentHost s', currentPort s', currentPassword s', connected s')
       = (currentHost s, currentPort s, currentPassword s, connected s)
    /\ match unsubscribes w, subscribes w with
       | Resolves _, Resolves _ =>
           r = Settles (Ok tt)
           /\ calls = [Unsubscribe c (currentChannel s); Subscribe c (nextChannel next s)]
           /\ currentChannel s' = nextChannel next s
       | Resolves _, Rejects msg =>
           r = Settles (Err (Thrown msg))
           /\ calls = [Unsubscribe c (currentChannel s); Subscribe c (nextChannel next s)]
           /\ s' = s
       | Rejects msg, _ =>
           r = Settles (Err (Thrown msg)) /\ calls = [Unsubscribe c (currentChannel s)] /\ s' = s
       end.
Proof.
  intros Hh Hc Hp H1 H2 H3 H4 Hr. unfold updateRedisTarget.
  apply String.eqb_neq in Hh, Hc. apply Qle_bool_false_iff in Hp.
  rewrite Hh, Hc, Hp, H1, H2, H3, H4, Hr. cbn [orb negb andb].
  destruct (unsubscribes w) as [[]|msg]; [destruct (subscribes w) as [[]|msg]|];
    do 3 eexists; (split; [reflexivity|]); cbn; rewrite ?Nat.eqb_refl, ?Hr;
    repeat split; reflexivity.
Qed.

(** X17. A request whose port is zero or negative, or whose host or channel
    consists of blanks only, is ignored as a whole: nothing is sent and the
    subscriber is unchanged, whatever else the request asks for. *)
Theorem invalid_request_is_ignored (w : RedisWorld) (next : RedisRuntimeConfig)
    (s : SignalSubscriber) :
  (exists q, rc_port next = Some (Fin q) /\ q <= 0)
  \/ (exists h, rc_host next = Some h /\ h <> EmptyString /\ trim h = EmptyString)
  \/ (exists ch, rc_channel next = Some ch /\ ch <> EmptyString /\ trim ch = EmptyString) ->
  updateRedisTarget w next s = (s, [], Settles (Ok tt)).
Proof.
  intros H. unfold updateRedisTarget.
  assert (Hguard : String.eqb (nextHost next s) "" || String.eqb (nextChannel next s) ""
                   || Qle_bool (nextPort next s) 0 = true).
  { destruct H as [(q & Hq & Hle)|[(h & Hh & Hne & Htrim)|(ch & Hch & Hne & Htrim)]].
    - unfold nextPort. rewrite Hq. apply Qle_bool_iff in Hle. rewrite Hle.
      apply orb_true_r.
    - unfold nextHost. rewrite Hh. apply String.eqb_neq in Hne. rewrite Hne, Htrim.
      reflexivity.
    - unfold nextChannel. rewrite Hch. apply String.eqb_neq in Hne. rewrite Hne, Htrim.
      cbn. rewrite orb_true_r. reflexivity. }
  rewrite Hguard. reflexivity.
Qed.

Lemma successful_switch_replaces_the_connection_witness :
  exists s',
    updateRedisTarget reachable (moveTo "10.0.0.2") liveSubscriber
      = (s', [NewRedis 2%nat "10.0.0.2" 6379 None;
              Subscribe 2%nat "ODDS_FOR_COMMUNITY"; Disconnect 1%nat],
         Settles (Ok tt))
    /\ redis s' = Some 2%nat
    /\ currentHost s' = "10.0.0.2"%string.
Proof.
  destruct (successful_switch_replaces_the_connection reachable (moveTo "10.0.0.2")
              liveSubscriber 2%nat [true]
              ltac:(discriminate) ltac:(discriminate) eq_refl eq_refl eq_refl)
    as (s' & Hrun & Hredis & Hhost & _).
  exists s'. split; [exact Hrun|]. split; [exact Hredis|exact Hhost].
Defined.

Lemma channel_change_keeps_the_connection_witness :
  exists s',
    updateRedisTarget reachable (switchChannel "ODDS_V2") liveSubscriber
      = (s', [Unsubscribe 1%nat "ODDS_FOR_COMMUNITY"; Subscribe 1%nat "ODDS_V2"],
         Settles (Ok tt))
    /\ redis s' = Some 1%nat
    /\ currentChannel s' = "ODDS_V2"%string.
Proof.
  destruct (channel_change_keeps_the_connection reachable (switchChannel "ODDS_V2")
              liveSubscriber 1%nat
              ltac:(discriminate) ltac:(discriminate) eq_refl eq_refl eq_refl eq_refl
              eq_refl eq_refl)
    as (s' & calls & r & Hrun & _ & _ & Hredis & _ & Hr & Hcalls & Hch).
  exists s'. rewrite Hr, Hcalls in Hrun.
  split; [exact Hrun|]. split; [exact Hredis|exact Hch].
Defined.

(** Port 0 spoils a request that also names a new host. *)
Lemma invalid_request_is_ignored_witness :
  updateRedisTarget reachable
    {| rc_host := Some "10.0.0.2"%string; rc_port := Some (Fin 0);
       rc_channel := None; rc_password := None |} liveSubscriber
  = (liveSubscriber, [], Settles (Ok tt)).
Proof.
  apply invalid_request_is_ignored. left. exists 0. split; [reflexivity|discriminate].
Defined.

Section StoppedConsumer.

Variable rt : JsRuntime.
Variable config : AppConfig.
Variable App : Type.
Variable onMarketSlug : string -> SlugSource -> App -> App * result unit.
Variable executor_execute : TradingSignal -> App -> App * result unit.

(** X18. [stop] disconnects the current connection, once, and leaves the
    subscriber without a connection but with its target and counters; a
    second [stop] sends nothing and changes nothing; and whatever still
    arrives after [stop] is dropped: draining it changes neither the
    subscriber nor what lies behind it, and reaches no collaborator. *)
Theorem stop_halts_the_queue (s : SignalSubscriber)
    (arrivals : list (Conn * Clock * string)) (app : App) :
  let stopped := fst (stop s) in
  snd (stop s) = match redis s with Some c => [Disconnect c] | None => [] end
  /\ redis stopped = None /\ connected stopped = false
  /\ (currentHost stopped, currentPort stopped, currentChannel stopped,
      currentPassword stopped)
     = (currentHost s, currentPort s, currentChannel s, currentPassword s)
  /\ (receivedCount stopped, staleCount stopped, processedCount stopped,
      sub_failedCount stopped)
     = (receivedCount s, staleCount s, processedCount s, sub_failedCount s)
  /\ stop stopped = (stopped, [])
  /\ drain rt config App onMarketSlug executor_execute arrivals stopped app
     = (stopped, app, []).
Proof.
  cbv zeta. repeat split.
  induction arrivals as [|[[c clock] message] rest IH]; [reflexivity|].
  cbn [drain]. unfold deliver at 1. cbn [stop fst redis with_connection].
  cbn [stop fst] in IH. rewrite IH. reflexivity.
Qed.

End StoppedConsumer.

(* ------------------------------------------------------------------ *)
(** ** The active market *)

Section ActiveMarket.

Variable rt : JsRuntime.
Variable client : ClobClient.
Variable config : AppConfig.
Variable resolved : string -> ResolvedMarket.

Lemma traderExecute_result (now : Z) (signal : TradingSignal) (t : Trader) :
  exists e calls r,
    execute rt client config signal now (tradeExecutor t) = (e, calls, r)
    /\ traderExecute rt client config now signal t
       = ({| activeMarketSlug := activeMarketSlug t; tradeExecutor := e;
             clientCalls := clientCalls t ++ calls |}, r).
Proof.
  unfold traderExecute.
  destruct (execute rt client config signal now (tradeExecutor t)) as [[e calls] r].
  exists e, calls, r. split; reflexivity.
Qed.

Lemma setActiveMarket_returns (nextSlugRaw : string) (source : SlugSource) (t : Trader) :
  snd (setActiveMarket resolved nextSlugRaw source t) = Ok tt.
Proof.
  unfold setActiveMarket.
  destruct (String.eqb (toLowerCase (trim nextSlugRaw)) ""); [reflexivity|].
  destruct (match activeMarketSlug t with Some cur => _ | None => false end); reflexivity.
Qed.

(** X19. The active-market callback, followed up to and including
    [tradeExecutor.updateMarket] (the update of the price feed that comes
    after it is not part of this statement), makes no client call.  A blank
    slug, or the slug already active (letter case and surrounding blanks
    aside), returns at once and changes nothing: the market is not resolved
    again.  The trader's slug and the market its executor is bound to stay
    in agreement through every rebinding and every execution. *)
Theorem rebinding_keeps_the_trader_coherent (nextSlugRaw : string) (source : SlugSource)
    (t : Trader) :
  trader_coherent t ->
  clientCalls (fst (setActiveMarket resolved nextSlugRaw source t)) = clientCalls t
  /\ (toLowerCase (trim nextSlugRaw) = EmptyString
      \/ activeMarketSlug t = Some (toLowerCase (trim nextSlugRaw)) ->
      setActiveMarket resolved nextSlugRaw source t = (t, Ok tt))
  /\ trader_coherent (fst (setActiveMarket resolved nextSlugRaw source t))
  /\ (forall now signal,
        trader_coherent (fst (traderExecute rt client config now signal t))).
Proof.
  intros Hco. unfold setActiveMarket.
  set (n := toLowerCase (trim nextSlugRaw)).
  split; [|split; [|split]].
  - destruct (String.eqb n ""); [reflexivity|].
    destruct (match activeMarketSlug t with Some cur => _ | None => false end); reflexivity.
  - intros [E|E].
    + rewrite E. reflexivity.
    + rewrite E, String.eqb_refl. destruct (String.eqb n ""); reflexivity.
  - destruct (String.eqb n ""); [exact Hco|].
    destruct (match activeMarketSlug t with Some cur => _ | None => false end);
      [exact Hco|].
    cbn. exists (resolved n). split; reflexivity.
  - intros now signal.
    destruct (traderExecute_result now signal t) as (e & calls & r & Hex & ->).
    cbn [fst]. unfold trader_coherent in *. cbn [activeMarketSlug tradeExecutor].
    destruct (activeMarketSlug t) as [slug|]; [|exact I].
    destruct Hco as (m & Hm & Hs). exists m. split; [|exact Hs].
    destruct (execute_cases rt client config signal now (tradeExecutor t))
      as [(_ & Hx)|[(m0 & _ & _ & Hx)|(m0 & s1 & c1 & qty & _ & _ & Hsize & _ & Hx)]].
    1,2: rewrite Hx in Hex; injection Hex as <- _ _; exact Hm.
    assert (Hmk : market s1 = market (tradeExecutor t)).
    { destruct (sizing_ledger rt client config _ _ _ _ _ _ Hsize) as [->|(b & _ & ->)];
        reflexivity. }
    destruct Hx as [(_ & Hx)|[(_ & msg & _ & Hx)
      |[(_ & sg & rsp & _ & _ & Hx)|(_ & sg & msg & _ & _ & Hx)]]];
      rewrite Hx in Hex; injection Hex as <- _ _; cbn; rewrite Hmk; exact Hm.
Qed.

(** X20. Rebind, then check.  When the resolver returns the market under the
    slug it was asked for, a signal is always checked against its own
    market: after the rebinding that precedes the execution, the executor is
    bound to a market with the signal's slug, so the execution never fails
    for want of an active market or for a market mismatch; and if the
    executor was bound to a market with another slug, the ledger has been
    reset on the way. *)
Theorem rebound_signal_passes_the_market_check (now : Z) (signal : TradingSignal)
    (t : Trader) :
  trader_coherent t ->
  marketSlug signal <> EmptyString ->
  toLowerCase (trim (marketSlug signal)) = marketSlug signal ->
  rm_marketSlug (resolved (marketSlug signal)) = marketSlug signal ->
  let bound := fst (setActiveMarket resolved (marketSlug signal) FromSignal t) in
  (exists m, market (tradeExecutor bound) = Some m
             /\ rm_marketSlug m = marketSlug signal)
  /\ (forall e, snd (traderExecute rt client config now signal bound) = Err e ->
        exists msg, e = Thrown msg \/ e = TradeFailed msg)
  /\ (forall m0, market (tradeExecutor t) = Some m0 ->
        rm_marketSlug m0 <> marketSlug signal ->
        knownShares (tradeExecutor bound) = noShares).
Proof.
  intros Hco Hne Hcanon Hecho. cbv zeta.
  assert (Hbound : exists m,
            market (tradeExecutor (fst (setActiveMarket resolved (marketSlug signal)
                                          FromSignal t))) = Some m
            /\ rm_marketSlug m = marketSlug signal).
  { unfold setActiveMarket. rewrite Hcanon.
    apply String.eqb_neq in Hne. rewrite Hne.
    destruct (activeMarketSlug t) as [cur|] eqn:Ha.
    - destruct (String.eqb_spec cur (marketSlug signal)) as [E|N].
      + cbn [fst]. unfold trader_coherent in Hco. rewrite Ha in Hco.
        destruct Hco as (m & Hm & Hs). exists m. split; [exact Hm|congruence].
      + cbn. exists (resolved (marketSlug signal)). split; [reflexivity|exact Hecho].
    - cbn. exists (resolved (marketSlug signal)). split; [reflexivity|exact Hecho]. }
  split; [exact Hbound|]. split.
  - intros e He. destruct Hbound as (m & Hm & Hs).
    destruct (traderExecute_result now signal
                (fst (setActiveMarket resolved (marketSlug signal) FromSignal t)))
      as (ex & calls & r & Hex & Hte).
    rewrite Hte in He. cbn [snd] in He. subst r.
    destruct (execute_cases rt client config signal now
                (tradeExecutor (fst (setActiveMarket resolved (marketSlug signal)
                                       FromSignal t))))
      as [(Hnone & _)|[(m0 & Hm0 & Hdiff & _)|(m0 & s1 & c1 & qty & _ & _ & _ & _ & Hx)]].
    + congruence.
    + rewrite Hm in Hm0. injection Hm0 as <-. congruence.
    + destruct Hx as [(_ & Hx)|[(_ & msg & _ & Hx)
        |[(_ & sg & rsp & _ & _ & Hx)|(_ & sg & msg & _ & _ & Hx)]]];
        rewrite Hx in Hex; try discriminate Hex;
        injection Hex as _ _ <-; exists msg; auto.
  - intros m0 Hm0 Hdiff. unfold setActiveMarket. rewrite Hcanon.
    apply String.eqb_neq in Hne. rewrite Hne.
    assert (Hnot : match activeMarketSlug t with
                   | Some cur => String.eqb cur (marketSlug signal)
                   | None => false
                   end = false).
    { destruct (activeMarketSlug t) as [cur|] eqn:Ha; [|reflexivity].
      unfold trader_coherent in Hco. rewrite Ha in Hco.
      destruct Hco as (m & Hm & Hs). rewrite Hm0 in Hm. injection Hm as <-.
      apply String.eqb_neq. congruence. }
    rewrite Hnot. cbn [fst tradeExecutor]. unfold updateMarket. rewrite Hm0, Hecho.
    apply String.eqb_neq in Hdiff. rewrite Hdiff. reflexivity.
Qed.

End ActiveMarket.

(** A trader bound to the ether market, holding four UP shares, receives a
    signal for the bitcoin market. *)
Lemma rebound_signal_passes_the_market_check_witness :
  (trader_coherent {| activeMarketSlug := Some "eth-updown-15m-1700000000"%string;
                      tradeExecutor := boundTo ethMarket {| sharesUP := 4; sharesDOWN := 0 |};
                      clientCalls := [] |}
   /\ rm_marketSlug btcMarket = marketSlug buyUp)
  /\ knownShares
       (tradeExecutor
          (fst (setActiveMarket (fun _ => btcMarket) (marketSlug buyUp) FromSignal
                  {| activeMarketSlug := Some "eth-updown-15m-1700000000"%string;
                     tradeExecutor := boundTo ethMarket {| sharesUP := 4; sharesDOWN := 0 |};
                     clientCalls := [] |})))
     = noShares.
Proof.
  assert (Hco : trader_coherent
                  {| activeMarketSlug := Some "eth-updown-15m-1700000000"%string;
                     tradeExecutor := boundTo ethMarket {| sharesUP := 4; sharesDOWN := 0 |};
                     clientCalls := [] |}).
  { exists ethMarket. split; reflexivity. }
  split; [split; [exact Hco|reflexivity]|].
  refine (proj2 (proj2 (rebound_signal_passes_the_market_check plainRuntime
            (clientWith JNull accepted) tenShares (fun _ => btcMarket) 5 buyUp _
            Hco _ eq_refl eq_refl)) ethMarket eq_refl _); discriminate.
Defined.

Lemma rebinding_keeps_the_trader_coherent_witness :
  trader_coherent idleTrader
  /\ setActiveMarket (fun _ => btcMarket) "   " FromMarket idleTrader = (idleTrader, Ok tt)
  /\ trader_coherent (fst (setActiveMarket (fun _ => btcMarket) btcSlug FromMarket idleTrader)).
Proof.
  split; [exact I|]. split.
  - apply (proj1 (proj2 (rebinding_keeps_the_trader_coherent plainRuntime
             (clientWith JNull accepted) tenShares (fun _ => btcMarket) "   " FromMarket
             idleTrader I))).
    left. reflexivity.
  - apply (proj1 (proj2 (proj2 (rebinding_keeps_the_trader_coherent plainRuntime
             (clientWith JNull accepted) tenShares (fun _ => btcMarket) btcSlug FromMarket
             idleTrader I)))).
Defined.

(* ------------------------------------------------------------------ *)
(** ** The consumer at work *)

(** A signal read 1001 ms late is counted as received and as stale. *)
Lemma every_message_is_accounted_for_witness :
  exists s' t' calls,
    handleMessage wireRuntime tenShares Trader (setActiveMarket (fun _ => btcMarket))
      (traderExecute wireRuntime (clientWith JNull accepted) tenShares 1700000001001)
      lateBy1001 longFormText liveSubscriber idleTrader
    = (s', t', calls, Ok tt)
    /\ receivedCount s' = 8%nat
    /\ (processedCount s' + staleCount s' = 7)%nat.
Proof.
  destruct (handleMessage wireRuntime tenShares Trader (setActiveMarket (fun _ => btcMarket))
              (traderExecute wireRuntime (clientWith JNull accepted) tenShares 1700000001001)
              lateBy1001 longFormText liveSubscriber idleTrader)
    as [[[s' t'] calls] r] eqn:Hrun.
  assert (Hr : r = Ok tt) by (vm_compute in Hrun; congruence).
  pose proof (every_message_is_accounted_for wireRuntime tenShares Trader
                (setActiveMarket (fun _ => btcMarket))
                (traderExecute wireRuntime (clientWith JNull accepted) tenShares 1700000001001)
                lateBy1001 longFormText liveSubscriber s' idleTrader t' calls r Hrun)
    as (Hrecv & _ & Hcount).
  subst r. destruct Hcount as (_ & Hsum & _).
  exists s', t', calls. split; [reflexivity|]. split; [exact Hrecv|exact Hsum].
Defined.

(** A signal read in time reaches the rebinding and then [execute]. *)
Lemma downstream_call_discipline_witness :
  exists s' t' calls r,
    handleMessage wireRuntime tenShares Trader (setActiveMarket (fun _ => btcMarket))
      (traderExecute wireRuntime (clientWith JNull accepted) tenShares 1700000000500)
      onTime longFormText liveSubscriber idleTrader
    = (s', t', calls, r)
    /\ (calls = [CallOnMarketSlug btcSlug FromSignal]
        \/ exists signal,
             calls = [CallOnMarketSlug btcSlug FromSignal; CallExecute signal]
             /\ (nowAge onTime - timestampMs signal <= signalMaxAgeMs tenShares)%Z).
Proof.
  destruct (handleMessage wireRuntime tenShares Trader (setActiveMarket (fun _ => btcMarket))
              (traderExecute wireRuntime (clientWith JNull accepted) tenShares 1700000000500)
              onTime longFormText liveSubscriber idleTrader)
    as [[[s' t'] calls] r] eqn:Hrun.
  pose proof (downstream_call_discipline wireRuntime tenShares Trader
                (setActiveMarket (fun _ => btcMarket))
                (traderExecute wireRuntime (clientWith JNull accepted) tenShares 1700000000500)
                onTime longFormText liveSubscriber s' idleTrader t' calls r Hrun) as H.
  assert (Hp : parseRedisMessage wireRuntime (nowParse onTime) longFormText
               = Ok (KindSignal
                       {| timestampMs := 1700000000000; direction := BUY; token := UP;
                          limitPrice := 4700 # 10000; marketSlug := btcSlug;
                          raw := longForm |}))
    by (vm_compute; reflexivity).
  rewrite Hp in H. exists s', t', calls, r. split; [reflexivity|].
  destruct H as [[Hc _]|(Hc & Hage & _)].
  - left. exact Hc.
  - right. eexists. split; [exact Hc|exact Hage].
Defined.

(** Of three arrivals, the two from the current connection are counted, the
    second of them although it is not JSON. *)
Lemma queue_always_advances_witness :
  exists s' t' calls,
    drain wireRuntime tenShares Trader (setActiveMarket (fun _ => btcMarket))
      (traderExecute wireRuntime (clientWith JNull accepted) tenShares 1700000000500)
      threeArrivals liveSubscriber idleTrader
    = (s', t', calls)
    /\ receivedCount s' = 9%nat
    /\ (length calls <= 4)%nat.
Proof.
  destruct (drain wireRuntime tenShares Trader (setActiveMarket (fun _ => btcMarket))
              (traderExecute wireRuntime (clientWith JNull accepted) tenShares 1700000000500)
              threeArrivals liveSubscriber idleTrader)
    as [[s' t'] calls] eqn:Hrun.
  pose proof (queue_always_advances wireRuntime tenShares Trader
                (setActiveMarket (fun _ => btcMarket))
                (traderExecute wireRuntime (clientWith JNull accepted) tenShares 1700000000500)
                threeArrivals liveSubscriber s' idleTrader t' calls Hrun)
    as (_ & Hrecv & _ & Hcalls).
  exists s', t', calls. split; [reflexivity|]. split; [exact Hrecv|exact Hcalls].
Defined.

(** The trader's rebinding never throws, and the live subscriber's counts
    balance: 7 = 5 + 1 + 1. *)
Lemma counters_balance_when_rebinding_never_throws_witness :
  receivedCount liveSubscriber
  = (processedCount liveSubscriber + staleCount liveSubscriber
     + sub_failedCount liveSubscriber)%nat
  /\ exists s' t' calls,
       drain wireRuntime tenShares Trader (setActiveMarket (fun _ => btcMarket))
         (traderExecute wireRuntime (clientWith JNull accepted) tenShares 1700000000500)
         threeArrivals liveSubscriber idleTrader
       = (s', t', calls)
       /\ receivedCount s'
          = (processedCount s' + staleCount s' + sub_failedCount s')%nat.
Proof.
  split; [reflexivity|].
  destruct (drain wireRuntime tenShares Trader (setActiveMarket (fun _ => btcMarket))
              (traderExecute wireRuntime (clientWith JNull accepted) tenShares 1700000000500)
              threeArrivals liveSubscriber idleTrader)
    as [[s' t'] calls] eqn:Hrun.
  exists s', t', calls. split; [reflexivity|].
  exact (counters_balance_when_rebinding_never_throws wireRuntime tenShares Trader
           (setActiveMarket (fun _ => btcMarket))
           (traderExecute wireRuntime (clientWith JNull accepted) tenShares 1700000000500)
           threeArrivals liveSubscriber s' idleTrader t' calls
           (setActiveMarket_returns (fun _ => btcMarket)) eq_refl Hrun).
Defined.

(* ------------------------------------------------------------------ *)
(** ** The configuration *)

Lemma trimEnd_idem (s : string) : trimEnd (trimEnd s) = trimEnd s.
Proof.
  induction s as [|c r IH]; [reflexivity|].
  cbn [trimEnd]. destruct (trimEnd r) as [|a r'] eqn:E.
  - destruct (is_ws c) eqn:Hc; [reflexivity|]. cbn [trimEnd]. rewrite Hc. reflexivity.
  - change (trimEnd (String c (String a r')))
      with (match trimEnd (String a r') with
            | EmptyString => if is_ws c then EmptyString else String c EmptyString
            | String a' r2 => String c (String a' r2)
            end).
    rewrite IH. reflexivity.
Qed.

Lemma trimStart_head (s : string) :
  trimStart s = EmptyString
  \/ exists c r, trimStart s = String c r /\ is_ws c = false.
Proof.
  induction s as [|c r IH]; [left; reflexivity|].
  cbn [trimStart]. destruct (is_ws c) eqn:Hc; [exact IH|].
  right. exists c, r. split; [reflexivity|exact Hc].
Qed.

Lemma trimEnd_head (c : ascii) (r : string) :
  is_ws c = false -> exists r', trimEnd (String c r) = String c r'.
Proof.
  intros Hc. cbn [trimEnd]. destruct (trimEnd r) as [|a r'].
  - rewrite Hc. eexists. reflexivity.
  - eexists. reflexivity.
Qed.

Lemma trim_idem (s : string) : trim (trim s) = trim s.
Proof.
  unfold trim. destruct (trimStart_head s) as [E|(c & r & E & Hc)]; rewrite E.
  - reflexivity.
  - destruct (trimEnd_head c r Hc) as (r' & E').
    rewrite E' at 1. cbn [trimStart]. rewrite Hc. rewrite <- E'. apply trimEnd_idem.
Qed.

Lemma Ok_inj {A : Type} (a b : A) : Ok a = Ok b -> a = b.
Proof. intros H. injection H as ->. reflexivity. Qed.

Lemma rbind_ok {A B : Type} (r : result A) (k : A -> result B) (b : B) :
  rbind r k = Ok b -> exists a, r = Ok a /\ k a = Ok b.
Proof. destruct r as [a|e]; [|discriminate]. intros H. exists a. auto. Qed.

Ltac reduce_config :=
  cbv beta iota delta
    [cfg_signalMaxAgeMs statusIntervalSeconds cfg_sharesPerTrade cfg_redisPort
     cfg_redisHost cfg_redisChannel cfg_redisPassword privateKey walletAddress claim
     claimWalletAddress ctfAddress collateralTokenAddress safeAddress enabled
     intervalMinutes chainId rpcUrl clobHttpUrl clobWsUrl gammaEventsUrl dataApiUrl].

Section ConfigInvariants.

Variable rt : JsRuntime.
Variable parse_int : string -> jsnum.
Variable env : Env.

Lemma getEnv_spec (keys : list string) :
  match getEnv env keys with
  | Some value =>
      value <> EmptyString /\ trim value = value
      /\ exists before key raw after,
           keys = before ++ key :: after
           /\ Forall (unusable env) before
           /\ env key = Some raw /\ value = trim raw
  | None => Forall (unusable env) keys
  end.
Proof.
  induction keys as [|key rest IH]; [constructor|].
  cbn [getEnv]. destruct (env key) as [raw|] eqn:Hk.
  - destruct (String.eqb_spec (trim raw) "") as [E|N]; cbn [negb].
    + destruct (getEnv env rest) as [value|].
      * destruct IH as (Hne & Htrim & before & key' & raw' & after & -> & Hb & Hk' & Hv).
        split; [exact Hne|]. split; [exact Htrim|].
        exists (key :: before), key', raw', after.
        split; [reflexivity|]. split; [|split; assumption].
        constructor; [|exact Hb]. unfold unusable. rewrite Hk. exact E.
      * constructor; [|exact IH]. unfold unusable. rewrite Hk. exact E.
    + split; [exact N|]. split; [apply trim_idem|].
      exists [], key, raw, rest. repeat split; [constructor|exact Hk].
  - destruct (getEnv env rest) as [value|].
    + destruct IH as (Hne & Htrim & before & key' & raw' & after & -> & Hb & Hk' & Hv).
      split; [exact Hne|]. split; [exact Htrim|].
      exists (key :: before), key', raw', after.
      split; [reflexivity|]. split; [|split; assumption].
      constructor; [|exact Hb]. unfold unusable. rewrite Hk. exact I.
    + constructor; [|exact IH]. unfold unusable. rewrite Hk. exact I.
Qed.

(** X21. [getEnv] returns the value of the first of the keys that is set to
    something other than blanks, with its surrounding blanks removed: the
    keys before it are unset or blank, and the value returned is never empty
    and has no blanks left to trim.  It returns nothing exactly when every
    key is unset or blank.  So a required variable is missing exactly when
    [getEnv] finds nothing, and a default never replaces a value that was
    found. *)
Theorem getEnv_takes_the_first_usable_key (keys : list string) (fallback : string) :
  match getEnv env keys with
  | Some value =>
      value <> EmptyString /\ trim value = value
      /\ (exists before key raw after,
            keys = before ++ key :: after
            /\ Forall (unusable env) before
            /\ env key = Some raw /\ value = trim raw)
      /\ requireString env keys = Ok value
      /\ or_default (getEnv env keys) fallback = value
  | None =>
      Forall (unusable env) keys
      /\ requireString env keys
         = Err (Thrown ("Missing required env var: " ++ String.concat " | " keys))
      /\ or_default (getEnv env keys) fallback = fallback
  end.
Proof.
  pose proof (getEnv_spec keys) as H. unfold requireString.
  destruct (getEnv env keys) as [value|].
  - destruct H as (Hne & Htrim & Hex). apply String.eqb_neq in Hne.
    cbn [or_default]. rewrite Hne. apply String.eqb_neq in Hne. repeat split; assumption.
  - repeat split. exact H.
Qed.

Lemma requireString_ok (keys : list string) (value : string) :
  requireString env keys = Ok value -> value <> EmptyString /\ trim value = value.
Proof.
  unfold requireString. pose proof (getEnv_spec keys) as H.
  destruct (getEnv env keys) as [v|]; [|discriminate].
  destruct H as (Hne & Htrim & _).
  destruct (String.eqb v ""); [discriminate|]. intros E. injection E as <-. auto.
Qed.

Lemma or_default_usable (keys : list string) (fallback : string) :
  fallback <> EmptyString -> trim fallback = fallback ->
  or_default (getEnv env keys) fallback <> EmptyString
  /\ trim (or_default (getEnv env keys) fallback) = or_default (getEnv env keys) fallback.
Proof.
  intros Hf Ht. pose proof (getEnv_spec keys) as H.
  destruct (getEnv env keys) as [v|]; cbn [or_default]; [|auto].
  destruct H as (Hne & Htrim & _). apply String.eqb_neq in Hne. rewrite Hne.
  apply String.eqb_neq in Hne. auto.
Qed.

Lemma assertAddress_ok (name value : string) :
  assertAddress name value = Ok tt -> isAddress value = true.
Proof.
  unfold assertAddress. destruct (isAddress value); [reflexivity|discriminate].
Qed.

Lemma loadConfig_shares_positive (c : FullConfig) :
  loadConfig rt parse_int env = Ok c -> 0 < cfg_sharesPerTrade c.
Proof.
  unfold loadConfig. intros H. cbv zeta in H.
  apply rbind_ok in H as (wallet & _ & H). apply rbind_ok in H as (key & _ & H).
  apply rbind_ok in H as (chain & _ & H). apply rbind_ok in H as (port & _ & H).
  apply rbind_ok in H as (shares & _ & H).
  destruct (Qle_bool shares 0) eqn:Hshares in H; [discriminate H|].
  apply Qle_bool_false_iff in Hshares.
  destruct (_ || _) in H; [discriminate H|].
  destruct (String.eqb _ _) in H; [discriminate H|].
  do 7 (apply rbind_ok in H as (? & _ & H)).
  apply Ok_inj in H. subst c. exact Hshares.
Qed.

(** X22. A configuration that [loadConfig] returns is valid: the maximum
    signal age is 1000 ms and the status interval 20 s whatever the
    environment says; the shares per trade are positive; the Redis port is
    in 1..65535; host, channel and private key are not empty, and a password,
    if any, is not empty; the wallet, claim wallet, CTF and collateral
    addresses, and the safe address if there is one, are 0x followed by 40
    hexadecimal digits; claiming is enabled exactly when its interval is
    positive; and there is no safe address exactly when none is configured
    and the claim wallet is the trading wallet, letter case aside. *)
Theorem loaded_config_is_valid (c : FullConfig) :
  loadConfig rt parse_int env = Ok c ->
  cfg_signalMaxAgeMs c = 1000%Z /\ statusIntervalSeconds c = 20%Z
  /\ 0 < cfg_sharesPerTrade c
  /\ (0 < cfg_redisPort c /\ cfg_redisPort c <= 65535)
  /\ cfg_redisHost c <> EmptyString
  /\ (cfg_redisChannel c <> EmptyString /\ trim (cfg_redisChannel c) = cfg_redisChannel c)
  /\ cfg_redisPassword c <> Some EmptyString
  /\ privateKey c <> EmptyString
  /\ isAddress (walletAddress c) = true
  /\ isAddress (claimWalletAddress (claim c)) = true
  /\ isAddress (ctfAddress (claim c)) = true
  /\ isAddress (collateralTokenAddress (claim c)) = true
  /\ (forall a, safeAddress (claim c) = Some a -> isAddress a = true)
  /\ (enabled (claim c) = true <-> 0 < intervalMinutes (claim c))
  /\ (safeAddress (claim c) = None <->
      getEnv env ["CLAIM_SAFE_ADDRESS"%string] = None
      /\ toLowerCase (claimWalletAddress (claim c)) = toLowerCase (walletAddress c)).
Proof.
  unfold loadConfig. intros H.
  destruct (requireString env _) as [wallet|] eqn:Hwallet in H; [|discriminate H].
  cbv beta iota zeta delta [rbind orb absent negb] in H.
  destruct (requireString env _) as [key|] eqn:Hkey in H; [|discriminate H].
  cbv beta iota zeta delta [rbind orb absent negb] in H.
  destruct (parseIntEnv parse_int env _ _) as [chain|] in H; [|discriminate H].
  cbv beta iota zeta delta [rbind orb absent negb] in H.
  destruct (parseIntEnv parse_int env _ _) as [port|] in H; [|discriminate H].
  cbv beta iota zeta delta [rbind orb absent negb] in H.
  destruct (parseFloatEnv rt env _ _) as [shares|] in H; [|discriminate H].
  cbv beta iota zeta delta [rbind orb absent negb] in H.
  destruct (Qle_bool shares 0) eqn:Hshares in H; [discriminate H|].
  destruct (Qle_bool port 0) eqn:Hport0 in H; [discriminate H|].
  destruct (Qlt_bool 65535 port) eqn:Hport1 in H; [discriminate H|].
  cbv beta iota zeta delta [rbind orb absent negb] in H.
  destruct (String.eqb _ _) in H; [discriminate H|].
  destruct (assertAddress _ wallet) as [[]|] eqn:Haw in H; [|discriminate H].
  cbv beta iota zeta delta [rbind orb absent negb] in H.
  destruct (parseIntEnv parse_int env _ _) as [minutes|] in H; [|discriminate H].
  cbv beta iota zeta delta [rbind orb absent negb] in H.
  destruct (requireString env _) as [cw|] eqn:Hcw in H; [|discriminate H].
  cbv beta iota zeta delta [rbind orb absent negb] in H.
  destruct (assertAddress _ cw) as [[]|] eqn:Hacw in H; [|discriminate H].
  cbv beta iota zeta delta [rbind orb absent negb] in H.
  destruct (assertAddress "CTF_ADDRESS" _) as [[]|] eqn:Hctf in H; [|discriminate H].
  cbv beta iota zeta delta [rbind orb absent negb] in H.
  destruct (assertAddress _ _) as [[]|] eqn:Hcol in H; [|discriminate H].
  cbv beta iota zeta delta [rbind orb absent negb] in H.
  pose proof (getEnv_spec ["CLAIM_SAFE_ADDRESS"%string]) as Hsafe.
  pose proof (getEnv_spec ["REDIS_PASSWORD"; "REDIS_PW"; "COMMUNITY_REDIS_PASSWORD";
                           "COMMUNITY_REDIS_PW"]%string) as Hpw.
  apply Qle_bool_false_iff in Hshares, Hport0.
  apply Qlt_bool_false_iff in Hport1.
  apply assertAddress_ok in Haw, Hacw, Hctf, Hcol.
  apply requireString_ok in Hkey.
  assert (Hhost : forall keys, or_default (getEnv env keys) "127.0.0.1" <> EmptyString).
  { intros keys. apply or_default_usable; [discriminate|reflexivity]. }
  assert (Hchan : forall keys,
             or_default (getEnv env keys) "ODDS_FOR_COMMUNITY" <> EmptyString
             /\ trim (or_default (getEnv env keys) "ODDS_FOR_COMMUNITY")
                = or_default (getEnv env keys) "ODDS_FOR_COMMUNITY").
  { intros keys. apply or_default_usable; [discriminate|reflexivity]. }
  assert (Hpw' : getEnv env ["REDIS_PASSWORD"; "REDIS_PW"; "COMMUNITY_REDIS_PASSWORD";
                              "COMMUNITY_REDIS_PW"]%string <> Some EmptyString).
  { intros E. rewrite E in Hpw. destruct Hpw as (Hp & _). congruence. }
  clear Hpw.
  destruct (getEnv env ["CLAIM_SAFE_ADDRESS"%string]) as [safe|] eqn:Hs.
  - destruct Hsafe as (Hne & _). apply String.eqb_neq in Hne.
    cbv beta iota zeta delta [rbind orb absent negb] in H. repeat (rewrite Hne in H; cbv beta iota zeta delta [rbind orb absent negb] in H).
    destruct (assertAddress _ safe) as [[]|] eqn:Has in H; [|discriminate H].
    cbv beta iota zeta delta [rbind orb absent negb] in H. apply Ok_inj in H. subst c. reduce_config.
    apply assertAddress_ok in Has.
    repeat match goal with |- _ /\ _ => split end;
      try solve [assumption | reflexivity | exact (Hhost _) | exact (proj1 (Hchan _))
                 | exact (proj2 (Hchan _)) | apply Hkey | apply Qlt_bool_iff].
    + intros a Ha. injection Ha as <-. exact Has.
    + split; [discriminate|]. intros [Hn _]. discriminate Hn.
  - cbv beta iota zeta delta [rbind orb absent negb] in H.
    destruct (String.eqb (toLowerCase cw) (toLowerCase wallet)) eqn:Hsame in H;
      cbv beta iota zeta delta [rbind orb absent negb] in H.
    + cbv beta iota zeta delta [rbind orb absent negb] in H. apply Ok_inj in H. subst c. reduce_config.
      repeat match goal with |- _ /\ _ => split end;
        try solve [assumption | reflexivity | exact (Hhost _) | exact (proj1 (Hchan _))
                   | exact (proj2 (Hchan _)) | apply Hkey | apply Qlt_bool_iff
                   | discriminate].
      split; [intros _|reflexivity].
      split; [reflexivity|]. apply String.eqb_eq. exact Hsame.
    + cbv beta iota zeta delta [rbind orb absent negb] in H. apply requireString_ok in Hwallet.
      destruct Hwallet as (Hwne & _). apply String.eqb_neq in Hwne.
      rewrite Hwne in H. unfold assertAddress in H at 1. rewrite Haw in H.
      cbv beta iota zeta delta [rbind orb absent negb] in H. apply Ok_inj in H. subst c. reduce_config.
      repeat match goal with |- _ /\ _ => split end;
        try solve [assumption | reflexivity | exact (Hhost _) | exact (proj1 (Hchan _))
                   | exact (proj2 (Hchan _)) | apply Hkey | apply Qlt_bool_iff].
      * intros a Ha. injection Ha as <-. exact Haw.
      * split; [discriminate|]. intros [_ Hl].
        apply String.eqb_neq in Hsame. contradiction.
Qed.

Lemma getEnv_unusable (keys : list string) :
  Forall (unusable env) keys -> getEnv env keys = None.
Proof.
  induction 1 as [|key rest Hk _ IH]; [reflexivity|].
  cbn [getEnv]. unfold unusable in Hk. destruct (env key) as [raw|]; [|exact IH].
  rewrite Hk. exact IH.
Qed.

Lemma getEnv_first (key : string) (rest : list string) (raw : string) :
  env key = Some raw -> trim raw <> EmptyString ->
  getEnv env (key :: rest) = Some (trim raw).
Proof.
  intros Hk Hne. cbn [getEnv]. rewrite Hk. apply String.eqb_neq in Hne.
  rewrite Hne. reflexivity.
Qed.

(** X23. With the three required variables set, to valid addresses and a
    key that is not blank, and every other variable unset or blank,
    [loadConfig] returns the default configuration: chain 137, Redis at
    127.0.0.1:6379 on channel ODDS_FOR_COMMUNITY without a password, ten
    shares per trade, claiming enabled every 15 minutes, and the trading
    wallet as the safe unless it is the claim wallet itself.  The values are
    those of the variables with the surrounding blanks removed, and the
    built-in CTF and collateral addresses pass the address check. *)
Theorem unset_variables_take_their_defaults (wallet key claimWallet : string) :
  env "WALLET_ADDRESS"%string = Some wallet ->
  env "PRIVATE_KEY"%string = Some key ->
  env "CLAIM_WALLET_ADDRESS"%string = Some claimWallet ->
  (forall name, ~ In name required_keys -> unusable env name) ->
  trim key <> EmptyString ->
  isAddress (trim wallet) = true ->
  isAddress (trim claimWallet) = true ->
  loadConfig rt parse_int env
  = Ok (defaultConfig (trim wallet) (trim key) (trim claimWallet)).
Proof.
  intros Hw Hk Hc Hrest Hkey Haw Hacw.
  assert (Hnone : forall keys,
             forallb (fun name => negb (existsb (String.eqb name) required_keys)) keys
             = true ->
             getEnv env keys = None).
  { intros keys Hkeys. apply getEnv_unusable. apply Forall_forall. intros name Hin.
    apply Hrest. rewrite forallb_forall in Hkeys. specialize (Hkeys name Hin).
    apply negb_true_iff in Hkeys. intros Hreq.
    assert (Hex : existsb (String.eqb name) required_keys = true).
    { apply existsb_exists. exists name. split; [exact Hreq|apply String.eqb_refl]. }
    congruence. }
  assert (Hwne : trim wallet <> EmptyString) by (intros E; rewrite E in Haw; discriminate).
  assert (Hcne : trim claimWallet <> EmptyString)
    by (intros E; rewrite E in Hacw; discriminate).
  unfold loadConfig, requireString, parseIntEnv, parseFloatEnv.
  rewrite (getEnv_first _ _ _ Hw Hwne), (getEnv_first _ _ _ Hk Hkey),
    (getEnv_first _ _ _ Hc Hcne).
  rewrite !Hnone by reflexivity.
  apply String.eqb_neq in Hwne, Hkey, Hcne. rewrite Hwne, Hkey, Hcne.
  cbv beta iota zeta delta [rbind or_default absent].
  change (Qle_bool 10 0) with false.
  change (Qle_bool 6379 0 || Qlt_bool 65535 6379) with false.
  change (String.eqb (trim "ODDS_FOR_COMMUNITY") "") with false.
  cbv beta iota.
  unfold assertAddress. rewrite Haw, Hacw.
  change (isAddress "0x4D97DCd97eC945f40cF65F87097ACe5EA0476045") with true.
  change (isAddress "0x2791Bca1f2de4661ED88A30C99A7a9449Aa84174") with true.
  cbv beta iota delta [rbind].
  unfold defaultConfig.
  destruct (String.eqb (toLowerCase (trim claimWallet)) (toLowerCase (trim wallet)));
    cbv beta iota delta [negb rbind]; [reflexivity|].
  rewrite Hwne, Haw. reflexivity.
Qed.

End ConfigInvariants.

Lemma loaded_config_is_valid_witness :
  loadConfig plainRuntime read_int sampleEnv = Ok loadedSample
  /\ 0 < cfg_sharesPerTrade loadedSample
  /\ isAddress (walletAddress loadedSample) = true.
Proof.
  assert (H : loadConfig plainRuntime read_int sampleEnv = Ok loadedSample)
    by (vm_compute; reflexivity).
  pose proof (loaded_config_is_valid plainRuntime read_int sampleEnv loadedSample H)
    as (_ & _ & Hshares & _ & _ & _ & _ & _ & Hwallet & _).
  split; [exact H|]. split; [exact Hshares|exact Hwallet].
Defined.

Lemma unset_variables_take_their_defaults_witness :
  loadConfig plainRuntime read_int minimalEnv
  = Ok (defaultConfig "0x1111111111111111111111111111111111111111" "0xabc"
          "0x1111111111111111111111111111111111111111").
Proof.
  refine (unset_variables_take_their_defaults plainRuntime read_int minimalEnv
            "0x1111111111111111111111111111111111111111" " 0xabc "
            "0x1111111111111111111111111111111111111111"
            eq_refl eq_refl eq_refl _ _ eq_refl eq_refl).
  - intros name Hname. unfold unusable, minimalEnv. cbn [envOf].
    destruct (String.eqb_spec name "WALLET_ADDRESS") as [->|_].
    { exfalso. apply Hname. left. reflexivity. }
    destruct (String.eqb_spec name "PRIVATE_KEY") as [->|_].
    { exfalso. apply Hname. right. left. reflexivity. }
    destruct (String.eqb_spec name "CLAIM_WALLET_ADDRESS") as [->|_].
    { exfalso. apply Hname. right. right. left. reflexivity. }
    exact I.
  - discriminate.
Defined.

Section ConfiguredExecutor.

Variable rt : JsRuntime.
Variable parse_int : string -> jsnum.
Variable env : Env.
Variable client : ClobClient.

(** X24. Under a configuration that [loadConfig] returned, a BUY is never
    skipped: for a signal that names the bound market, the first thing
    [execute] does is to create an order for the configured number of
    shares, which is positive, and it does so without reading a balance. *)
Theorem configured_buy_always_creates_an_order (c : FullConfig) (signal : TradingSignal)
    (now : Z) (s : TradeExecutor) (m : ResolvedMarket) :
  loadConfig rt parse_int env = Ok c ->
  direction signal = BUY ->
  market s = Some m ->
  marketSlug signal = rm_marketSlug m ->
  0 < cfg_sharesPerTrade c
  /\ exists s' rest r,
       execute rt client (appConfig c) signal now s
       = (s', CallCreateOrder (orderOf m signal (cfg_sharesPerTrade c)) :: rest, r).
Proof.
  intros Hload Hbuy Hm Hslug.
  pose proof (loadConfig_shares_positive rt parse_int env c Hload) as Hpos.
  split; [exact Hpos|].
  destruct (execute_cases rt client (appConfig c) signal now s)
    as [(Hnone & _)|[(m0 & Hm0 & Hdiff & _)
       |(m0 & s1 & calls & qty & Hm0 & _ & Hsize & _ & Hx)]].
  - congruence.
  - rewrite Hm in Hm0. injection Hm0 as <-. contradiction.
  - rewrite Hm in Hm0. injection Hm0 as <-.
    unfold computeOrderSize in Hsize. rewrite Hbuy in Hsize.
    unfold ret in Hsize. injection Hsize as <- <- <-.
    cbn [sharesPerTrade appConfig] in Hx.
    destruct Hx as [(Hle & _)|[(_ & msg & _ & ->)
      |[(_ & sg & rsp & _ & _ & ->)|(_ & sg & msg & _ & _ & ->)]]].
    + exfalso. apply (Qlt_not_le _ _ Hpos). exact Hle.
    + eexists _, _, _. reflexivity.
    + eexists _, _, _. reflexivity.
    + eexists _, _, _. reflexivity.
Qed.

End ConfiguredExecutor.

Lemma configured_buy_always_creates_an_order_witness :
  0 < cfg_sharesPerTrade loadedSample
  /\ exists s' rest r,
       execute plainRuntime (clientWith JNull accepted) (appConfig loadedSample) buyUp 5
         (boundTo btcMarket noShares)
       = (s', CallCreateOrder (orderOf btcMarket buyUp (25 # 10)) :: rest, r).
Proof.
  apply (configured_buy_always_creates_an_order plainRuntime read_int sampleEnv
           (clientWith JNull accepted) loadedSample buyUp 5 (boundTo btcMarket noShares)
           btcMarket); reflexivity.
Defined.

(* ------------------------------------------------------------------ *)
(** ** The market resolver *)

Lemma nonempty_true (s : string) : nonempty s = true -> s <> EmptyString.
Proof. intros H ->. discriminate H. Qed.

Lemma nonempty_of (s : string) : s <> EmptyString -> nonempty s = true.
Proof. destruct s; [congruence|reflexivity]. Qed.

Lemma filter_trim_clean (l : list string) :
  Forall clean (filter nonempty (map trim l)).
Proof.
  apply Forall_forall. intros x Hx. apply filter_In in Hx as [Hin Hne].
  apply in_map_iff in Hin as (y & <- & _).
  split; [apply nonempty_true; exact Hne|apply trim_idem].
Qed.

Lemma clean_ends (s : string) :
  clean s -> trimStart s = s /\ trimEnd s = s.
Proof.
  intros [Hne Htrim]. unfold trim in Htrim.
  destruct (trimStart_head s) as [E|(c & r & E & Hc)].
  - rewrite E in Htrim. cbn in Htrim. congruence.
  - destruct (trimEnd_head c r Hc) as (r' & E').
    assert (Hs : trimStart s = s).
    { rewrite E in Htrim. rewrite E' in Htrim. rewrite <- Htrim.
      cbn [trimStart]. rewrite Hc. reflexivity. }
    split; [exact Hs|]. rewrite Hs in Htrim. exact Htrim.
Qed.

Lemma trimStart_app (a b : string) :
  a <> EmptyString -> trimStart a = a -> trimStart (a ++ b) = (a ++ b)%string.
Proof.
  destruct a as [|c r]; [congruence|]. intros _ H. cbn [trimStart append] in *.
  destruct (is_ws c); [|reflexivity].
  exfalso. assert (Hlen : (String.length (trimStart r) <= String.length r)%nat).
  { clear. induction r as [|c r IH]; [apply le_n|].
    cbn [trimStart]. destruct (is_ws c); cbn [String.length]; lia. }
  rewrite H in Hlen. cbn [String.length] in Hlen. lia.
Qed.

Lemma trimEnd_app (a b : string) :
  b <> EmptyString -> trimEnd b = b -> trimEnd (a ++ b) = (a ++ b)%string.
Proof.
  intros Hne Hb. induction a as [|c r IH]; [exact Hb|].
  cbn [append]. 
  change (trimEnd (String c (r ++ b)))
    with (match trimEnd (r ++ b) with
          | EmptyString => if is_ws c then EmptyString else String c EmptyString
          | String a' r2 => String c (String a' r2)
          end).
  rewrite IH. destruct (r ++ b)%string eqn:E; [|reflexivity].
  destruct r; cbn in E; [congruence|discriminate].
Qed.

Lemma concat_clean (items : list string) :
  items <> [] -> Forall clean items -> clean (String.concat "," items).
Proof.
  intros Hne Hall. induction Hall as [|item rest Hitem Hrest IH]; [congruence|].
  destruct rest as [|next rest']; [exact Hitem|].
  assert (Hc : clean (String.concat "," (next :: rest'))) by (apply IH; discriminate).
  change (String.concat "," (item :: next :: rest'))
    with (item ++ "," ++ String.concat "," (next :: rest'))%string.
  destruct (clean_ends _ Hitem) as [Hs He]. destruct (clean_ends _ Hc) as [Hs' He'].
  destruct Hitem as [Hine _]. destruct Hc as [Hcne _].
  split.
  - destruct item; [congruence|discriminate].
  - unfold trim. rewrite (trimStart_app _ _ Hine Hs).
    apply trimEnd_app; [discriminate|]. apply trimEnd_app; assumption.
Qed.

Lemma split_on_plain (a : string) :
  includes_char "," a = false -> split_on "," a = [a].
Proof.
  induction a as [|c r IH]; [reflexivity|].
  cbn [includes_char split_on]. intros H. apply orb_false_iff in H as [Hc Hr].
  rewrite Ascii.eqb_sym, Hc, (IH Hr). reflexivity.
Qed.

Lemma split_on_app (a rest : string) :
  includes_char "," a = false ->
  split_on "," (a ++ "," ++ rest) = a :: split_on "," rest.
Proof.
  induction a as [|c r IH]; [reflexivity|].
  cbn [includes_char]. intros H. apply orb_false_iff in H as [Hc Hr].
  cbn [append split_on]. rewrite Ascii.eqb_sym, Hc.
  cbn [append] in IH. rewrite (IH Hr). reflexivity.
Qed.

Lemma split_on_concat (items : list string) :
  items <> [] -> Forall (fun item => includes_char "," item = false) items ->
  split_on "," (String.concat "," items) = items.
Proof.
  intros Hne Hall. induction Hall as [|item rest Hitem Hrest IH]; [congruence|].
  destruct rest as [|next rest']; [apply split_on_plain; exact Hitem|].
  change (String.concat "," (item :: next :: rest'))
    with (item ++ "," ++ String.concat "," (next :: rest'))%string.
  rewrite (split_on_app _ _ Hitem), IH by discriminate. reflexivity.
Qed.

Lemma filter_clean (items : list string) :
  Forall clean items -> filter nonempty (map trim items) = items.
Proof.
  induction 1 as [|item rest [Hne Htrim] _ IH]; [reflexivity|].
  cbn [map filter]. rewrite Htrim, (nonempty_of _ Hne), IH. reflexivity.
Qed.

Section ResolverInvariants.

Variable rt : JsRuntime.

Lemma trimmed_items_clean (items : list jsval) : Forall clean (trimmed_items rt items).
Proof.
  unfold trimmed_items. rewrite <- (map_map (js_String rt) trim).
  apply filter_trim_clean.
Qed.

Lemma parseStringArray_done (fuel : nat) (value : jsval) :
  json_arrays rt ->
  exists items,
    parseStringArray rt (S fuel) value = Done items /\ Forall clean items.
Proof.
  intros Hjson. destruct value as [| |b|n|text|items|fields];
    try (exists []; split; [reflexivity|constructor]).
  - cbn [parseStringArray].
    destruct (Nat.eqb (String.length (trim text)) 0);
      [exists []; split; [reflexivity|constructor]|].
    destruct (startsWith "[" (trim text)) eqn:Hstart; cbn [andb].
    + destruct (endsWith "]" (trim text)); cbn [andb].
      * destruct (json_parse rt (trim text)) as [parsed|] eqn:Hparse;
          [|exists []; split; [reflexivity|constructor]].
        destruct (Hjson _ _ Hstart Hparse) as (items & ->).
        exists (trimmed_items rt items). split; [|apply trimmed_items_clean].
        destruct fuel; reflexivity.
      * eexists. split; [reflexivity|apply filter_trim_clean].
    + eexists. split; [reflexivity|apply filter_trim_clean].
  - exists (trimmed_items rt items). split; [reflexivity|apply trimmed_items_clean].
Qed.

(** X25. On an engine whose [JSON.parse] returns arrays for bracketed text,
    [parseStringArray] needs one level of recursion at most and always
    returns a list whose entries are not empty and have no blanks left to
    trim; what is neither an array nor a string gives the empty list, and so
    does bracketed text that is not JSON.  A list can be spelled in three
    ways with the same result: as an array of strings, as the same strings
    separated by commas, and as JSON text of the array. *)
Theorem three_spellings_of_a_list (fuel : nat) :
  json_arrays rt ->
  (forall value, exists items,
      parseStringArray rt (S fuel) value = Done items /\ Forall clean items)
  /\ (forall value,
        (forall items, value <> JArr items) -> (forall text, value <> JStr text) ->
        parseStringArray rt (S fuel) value = Done [])
  /\ (forall text,
        startsWith "[" (trim text) = true -> endsWith "]" (trim text) = true ->
        json_parse rt (trim text) = None ->
        parseStringArray rt (S fuel) (JStr text) = Done [])
  /\ (forall items,
        Forall plain items ->
        parseStringArray rt (S fuel) (JArr (map JStr items)) = Done items
        /\ (startsWith "[" (String.concat "," items) = false ->
            parseStringArray rt (S fuel) (JStr (String.concat "," items)) = Done items)
        /\ (forall text,
              startsWith "[" (trim text) = true -> endsWith "]" (trim text) = true ->
              json_parse rt (trim text) = Some (JArr (map JStr items)) ->
              parseStringArray rt (S fuel) (JStr text) = Done items)).
Proof.
  intros Hjson. split; [|split; [|split]].
  - intros value. apply parseStringArray_done. exact Hjson.
  - intros value Harr Hstr.
    destruct value as [| |b|n|text|items|fields]; try reflexivity.
    + exfalso. exact (Hstr text eq_refl).
    + exfalso. exact (Harr items eq_refl).
  - intros text Hstart Hend Hparse. cbn [parseStringArray].
    destruct (Nat.eqb (String.length (trim text)) 0); [reflexivity|].
    rewrite Hstart, Hend, Hparse. reflexivity.
  - intros items Hplain.
    assert (Hclean : Forall clean items).
    { eapply Forall_impl; [|exact Hplain]. intros a [Ha _]. exact Ha. }
    assert (Hcomma : Forall (fun item => includes_char "," item = false) items).
    { eapply Forall_impl; [|exact Hplain]. intros a [_ Ha]. exact Ha. }
    assert (Harr : trimmed_items rt (map JStr items) = items).
    { unfold trimmed_items. rewrite map_map. cbn [js_String].
      rewrite <- (map_map (fun x => x) trim), map_id. apply filter_clean. exact Hclean. }
    split; [|split].
    + cbn [parseStringArray]. rewrite Harr. reflexivity.
    + intros Hstart. destruct items as [|item rest]; [reflexivity|].
      assert (Hc : clean (String.concat "," (item :: rest)))
        by (apply concat_clean; [discriminate|exact Hclean]).
      destruct Hc as [Hne Htrim].
      cbn [parseStringArray]. rewrite Htrim, Hstart. cbn [andb].
      destruct (String.concat "," (item :: rest)) eqn:E; [congruence|].
      cbn [String.length Nat.eqb]. rewrite <- E.
      rewrite split_on_concat by (discriminate || exact Hcomma).
      rewrite filter_clean by exact Hclean. reflexivity.
    + intros text Hstart Hend Hparse. cbn [parseStringArray].
      destruct (Nat.eqb (String.length (trim text)) 0) eqn:Hlen.
      { destruct (trim text); [discriminate Hstart|discriminate Hlen]. }
      rewrite Hstart, Hend, Hparse. cbn [andb].
      destruct fuel; cbn [parseStringArray]; rewrite Harr; reflexivity.
Qed.

End ResolverInvariants.

Lemma listRuntime_json_arrays : json_arrays listRuntime.
Proof.
  intros text parsed _ H. cbn in H. unfold oneMessage in H.
  destruct (String.eqb text "[111, 222]"); [|discriminate].
  injection H as <-. eexists. reflexivity.
Qed.

(** The token ids 111 and 222, as a comma-separated string and as JSON
    text. *)
Lemma three_spellings_of_a_list_witness :
  json_arrays listRuntime
  /\ parseStringArray listRuntime 1 (JStr "111,222") = Done ["111"; "222"]%string
  /\ exists items,
       parseStringArray listRuntime 1 (JStr " [111, 222] ") = Done items
       /\ Forall clean items.
Proof.
  split; [exact listRuntime_json_arrays|].
  pose proof (three_spellings_of_a_list listRuntime 0 listRuntime_json_arrays)
    as (Hclean & _ & _ & Hsame).
  split.
  - apply (proj1 (proj2 (Hsame ["111"; "222"]%string
                           ltac:(repeat constructor; discriminate)))).
    reflexivity.
  - apply Hclean.
Defined.

Lemma first_index_spec (f : string -> bool) (l : list string) (i : Z) :
  (first_index f l i = (-1)%Z /\ forall x, In x l -> f x = false)
  \/ ((i <= first_index f l i < i + Z.of_nat (length l))%Z
      /\ (exists a, nth_error l (Z.to_nat (first_index f l i - i)) = Some a /\ f a = true)
      /\ forall j x, (j < Z.to_nat (first_index f l i - i))%nat ->
                     nth_error l j = Some x -> f x = false)
  \/ (i < 0)%Z.
Proof.
  destruct (Z.ltb_spec i 0) as [Hneg|Hi]; [right; right; exact Hneg|].
  revert i Hi. induction l as [|x rest IH]; intros i Hi.
  - left. split; [reflexivity|]. intros x [].
  - cbn [first_index]. destruct (f x) eqn:Hx.
    + right. left. split; [cbn [length]; lia|]. rewrite Z.sub_diag. split.
      * exists x. split; [reflexivity|exact Hx].
      * intros j y Hj. cbn in Hj. lia.
    + destruct (IH (i + 1)%Z ltac:(lia))
        as [(E & Hall)|[(Hrange & (a & Ha & Hfa) & Hbefore)|Hneg]]; [| |lia].
      * left. split; [exact E|]. intros y [<-|Hy]; [exact Hx|apply Hall; exact Hy].
      * right. left. split; [cbn [length]; lia|].
        assert (Hk : Z.to_nat (first_index f rest (i + 1) - i)
                     = S (Z.to_nat (first_index f rest (i + 1) - (i + 1)))) by lia.
        rewrite Hk. split.
        -- exists a. split; [exact Ha|exact Hfa].
        -- intros j y Hj Hy. destruct j as [|j]; cbn [nth_error] in Hy.
           ++ injection Hy as <-. exact Hx.
           ++ apply (Hbefore j y); [lia|exact Hy].
Qed.

Lemma choose_scan_spec (l : list string) (i u0 d0 : Z) :
  (0 <= i)%Z ->
  choose_scan l i (u0, d0)
  = (if (u0 =? -1)%Z then first_index up_label l i else u0,
     if (d0 =? -1)%Z then first_index down_label l i else d0).
Proof.
  revert i u0 d0. induction l as [|raw rest IH]; intros i u0 d0 Hi.
  - cbn [choose_scan first_index].
    destruct (Z.eqb_spec u0 (-1)) as [->|_], (Z.eqb_spec d0 (-1)) as [->|_]; reflexivity.
  - cbn [choose_scan first_index]. unfold choose_step.
    fold (up_label raw). fold (down_label raw).
    rewrite IH by lia.
    assert (Hi' : (i =? -1)%Z = false) by (apply Z.eqb_neq; lia).
    f_equal.
    + destruct (Z.eqb_spec u0 (-1)) as [->|Hu]; cbn [andb].
      * destruct (up_label raw); [rewrite Hi'; reflexivity|reflexivity].
      * apply Z.eqb_neq in Hu. rewrite Hu. reflexivity.
    + destruct (Z.eqb_spec d0 (-1)) as [->|Hd]; cbn [andb].
      * destruct (down_label raw); [rewrite Hi'; reflexivity|reflexivity].
      * apply Z.eqb_neq in Hd. rewrite Hd. reflexivity.
Qed.

Lemma chooseUpDownIndices_spec (outcomes : list string) (tokenCount : Z) :
  chooseUpDownIndices outcomes tokenCount
  = let up := first_index up_label outcomes 0 in
    let down := first_index down_label outcomes 0 in
    if (0 <=? up)%Z && (0 <=? down)%Z && negb (up =? down)%Z then (up, down)
    else (0%Z, Z.min 1 (tokenCount - 1)).
Proof.
  unfold chooseUpDownIndices. rewrite choose_scan_spec by lia. reflexivity.
Qed.

Lemma chooseUpDownIndices_distinct (outcomes : list string) (tokenCount : Z) :
  (2 <= tokenCount)%Z ->
  (0 <= fst (chooseUpDownIndices outcomes tokenCount))%Z
  /\ (0 <= snd (chooseUpDownIndices outcomes tokenCount))%Z
  /\ fst (chooseUpDownIndices outcomes tokenCount)
     <> snd (chooseUpDownIndices outcomes tokenCount).
Proof.
  intros Hn. rewrite chooseUpDownIndices_spec. cbv zeta.
  destruct (Z.leb_spec 0 (first_index up_label outcomes 0)) as [Hu|_]; cbn [andb].
  2: { cbn [fst snd]. lia. }
  destruct (Z.leb_spec 0 (first_index down_label outcomes 0)) as [Hd|_]; cbn [andb].
  2: { cbn [fst snd]. lia. }
  destruct (Z.eqb_spec (first_index up_label outcomes 0)
              (first_index down_label outcomes 0)) as [E|N]; cbn [negb fst snd]; lia.
Qed.

(** X26. [chooseUpDownIndices] pairs the position of the first outcome that
    reads as UP (yes, or anything containing up) with the position of the
    first that reads as DOWN (no, or anything containing down), letter case
    and surrounding blanks aside, when both exist and differ; at each chosen
    position stands such an outcome and none stands before it.  Otherwise,
    also when the first UP outcome is the first DOWN outcome as well, it
    falls back to the positions 0 and 1.  With two tokens or more the two
    positions are never the same and never negative. *)
Theorem outcome_positions_are_distinct (outcomes : list string) (tokenCount : Z) :
  (2 <= tokenCount)%Z ->
  let up := fst (chooseUpDownIndices outcomes tokenCount) in
  let down := snd (chooseUpDownIndices outcomes tokenCount) in
  (0 <= up)%Z /\ (0 <= down)%Z /\ up <> down
  /\ ((up = 0%Z /\ down = 1%Z
       /\ ((forall x, In x outcomes -> up_label x = false)
           \/ (forall x, In x outcomes -> down_label x = false)
           \/ first_index up_label outcomes 0 = first_index down_label outcomes 0))
      \/ ((exists a, nth_error outcomes (Z.to_nat up) = Some a /\ up_label a = true)
          /\ (exists b, nth_error outcomes (Z.to_nat down) = Some b /\ down_label b = true)
          /\ (forall j x, (j < Z.to_nat up)%nat -> nth_error outcomes j = Some x ->
                          up_label x = false)
          /\ (forall j x, (j < Z.to_nat down)%nat -> nth_error outcomes j = Some x ->
                          down_label x = false))).
Proof.
  intros Hn. cbv zeta.
  pose proof (chooseUpDownIndices_distinct outcomes tokenCount Hn) as (H0 & H1 & H2).
  split; [exact H0|]. split; [exact H1|]. split; [exact H2|].
  clear H0 H1 H2. rewrite chooseUpDownIndices_spec. cbv zeta.
  assert (Hmin : Z.min 1 (tokenCount - 1) = 1%Z) by lia.
  destruct (first_index_spec up_label outcomes 0)
    as [(Eu & Hnoup)|[(Hur & Hua & Hub)|Hneg]]; [| |lia].
  { rewrite Eu. cbn [Z.leb andb fst snd]. left. rewrite Hmin. auto. }
  destruct (first_index_spec down_label outcomes 0)
    as [(Ed & Hnodown)|[(Hdr & Hda & Hdb)|Hneg]]; [| |lia].
  { rewrite Ed. rewrite andb_false_r. cbn [andb fst snd]. left. rewrite Hmin. auto. }
  rewrite Z.sub_0_r in Hua, Hub, Hda, Hdb.
  destruct (Z.leb_spec 0 (first_index up_label outcomes 0)) as [_|Hlt]; [|lia].
  destruct (Z.leb_spec 0 (first_index down_label outcomes 0)) as [_|Hlt]; [|lia].
  cbn [andb].
  destruct (Z.eqb_spec (first_index up_label outcomes 0)
              (first_index down_label outcomes 0)) as [E|N]; cbn [negb fst snd].
  - left. rewrite Hmin. auto.
  - right. auto.
Qed.

Lemma outcome_positions_are_distinct_witness :
  (2 <= 2)%Z
  /\ chooseUpDownIndices ["Down"; "Up"]%string 2 = (1%Z, 0%Z)
  /\ fst (chooseUpDownIndices ["Down"; "Up"]%string 2)
     <> snd (chooseUpDownIndices ["Down"; "Up"]%string 2).
Proof.
  split; [lia|]. split; [reflexivity|].
  exact (proj1 (proj2 (proj2
           (outcome_positions_are_distinct ["Down"; "Up"]%string 2 ltac:(lia))))).
Defined.

Lemma Done_inj {A : Type} (a b : A) : Done a = Done b -> a = b.
Proof. intros H. injection H as ->. reflexivity. Qed.

Lemma or_default_nonempty (value : option string) (fallback : string) :
  fallback <> EmptyString -> or_default value fallback <> EmptyString.
Proof.
  intros Hf. destruct value as [s|]; cbn [or_default]; [|exact Hf].
  destruct (String.eqb_spec s ""); assumption.
Qed.

Lemma or_else_nonempty (a b : string) :
  b <> EmptyString -> or_else a b <> EmptyString.
Proof.
  intros Hb. unfold or_else. destruct (String.eqb_spec a ""); assumption.
Qed.

Lemma absent_false (value : option string) :
  absent value = false ->
  exists s, value = Some s /\ s <> EmptyString /\ or_default value "" = s.
Proof.
  destruct value as [s|]; cbn [absent]; [|discriminate].
  intros H. exists s. cbn [or_default]. rewrite H. apply String.eqb_neq in H. auto.
Qed.

Section BuiltMarkets.

Variable rt : JsRuntime.

Lemma buildResolvedMarket_some (fuel : nat) (candidate : string) (market : GammaMarket)
    (fallbackEventSlug fallbackTitle : string) (m : ResolvedMarket) :
  buildResolvedMarket rt fuel candidate market fallbackEventSlug fallbackTitle
    = Done (Some m) ->
  exists tokenIds up down,
    parseStringArray rt fuel (clobTokenIds market) = Done tokenIds
    /\ (2 <= length tokenIds)%nat /\ up <> down
    /\ nth_error tokenIds up = Some (upTokenId m)
    /\ nth_error tokenIds down = Some (downTokenId m)
    /\ upTokenId m <> EmptyString /\ downTokenId m <> EmptyString
    /\ sourceText m = candidate
    /\ rm_marketSlug m = or_default (gm_slug market) candidate
    /\ (candidate <> EmptyString ->
        rm_marketSlug m <> EmptyString /\ eventSlug m <> EmptyString
        /\ marketQuestion m <> EmptyString).
Proof.
  unfold buildResolvedMarket.
  destruct (parseStringArray rt fuel (clobTokenIds market)) as [tokenIds|];
    [|discriminate].
  destruct (Nat.ltb_spec (length tokenIds) 2) as [|Hlen]; [discriminate|].
  destruct (parseStringArray rt fuel (outcomes market)) as [labels|]; [|discriminate].
  pose proof (chooseUpDownIndices_distinct labels (Z.of_nat (length tokenIds))
                ltac:(lia)) as (Hu & Hd & Hne).
  destruct (chooseUpDownIndices labels (Z.of_nat (length tokenIds))) as [up down].
  cbn [fst snd] in Hu, Hd, Hne.
  destruct (absent (index_at tokenIds up)) eqn:Hup; [discriminate|].
  destruct (absent (index_at tokenIds down)) eqn:Hdown; [discriminate|].
  cbn [orb]. intros H. apply Done_inj in H. injection H as Hm. subst m.
  destruct (absent_false _ Hup) as (upId & Eup & Hupne & Hupd).
  destruct (absent_false _ Hdown) as (downId & Edown & Hdownne & Hdownd).
  unfold index_at in Eup, Edown.
  destruct (Z.ltb_spec up 0) as [|_]; [lia|].
  destruct (Z.ltb_spec down 0) as [|_]; [lia|].
  exists tokenIds, (Z.to_nat up), (Z.to_nat down).
  cbn [upTokenId downTokenId sourceText rm_marketSlug eventSlug marketQuestion].
  rewrite Hupd, Hdownd.
  split; [reflexivity|]. split; [exact Hlen|]. split; [lia|].
  split; [exact Eup|]. split; [exact Edown|]. split; [exact Hupne|].
  split; [exact Hdownne|]. split; [reflexivity|]. split; [reflexivity|].
  intros Hc. split; [apply or_default_nonempty; exact Hc|].
  split; repeat apply or_default_nonempty; apply or_else_nonempty; exact Hc.
Qed.

Lemma buildResolvedMarket_done (fuel : nat) (candidate : string) (market : GammaMarket)
    (fallbackEventSlug fallbackTitle : string) :
  json_arrays rt ->
  exists r,
    buildResolvedMarket rt (S fuel) candidate market fallbackEventSlug fallbackTitle
    = Done r.
Proof.
  intros Hjson. unfold buildResolvedMarket.
  destruct (parseStringArray_done rt fuel (clobTokenIds market) Hjson) as (ids & -> & _).
  destruct (Nat.ltb (length ids) 2); [eexists; reflexivity|].
  destruct (parseStringArray_done rt fuel (outcomes market) Hjson) as (labels & -> & _).
  destruct (chooseUpDownIndices labels (Z.of_nat (length ids))) as [up down].
  destruct (absent (index_at ids up) || absent (index_at ids down));
    eexists; reflexivity.
Qed.

(** X27. On an engine whose [JSON.parse] returns arrays for bracketed text,
    [buildResolvedMarket] always returns.  It returns no market when the
    market's token ids are fewer than two.  A market it does return has
    token ids that are not empty and are two entries, at different
    positions, of the parsed token id list; its source text is the
    candidate, its slug is the Gamma market's own slug if it has one and the
    candidate otherwise, and unless the candidate is empty its slugs and
    question are not empty. *)
Theorem built_market_has_two_tokens (fuel : nat) (candidate : string)
    (market : GammaMarket) (fallbackEventSlug fallbackTitle : string) :
  json_arrays rt ->
  (exists r,
     buildResolvedMarket rt (S fuel) candidate market fallbackEventSlug fallbackTitle
     = Done r)
  /\ (forall tokenIds,
        parseStringArray rt (S fuel) (clobTokenIds market) = Done tokenIds ->
        (length tokenIds < 2)%nat ->
        buildResolvedMarket rt (S fuel) candidate market fallbackEventSlug fallbackTitle
        = Done None)
  /\ (forall m,
        buildResolvedMarket rt (S fuel) candidate market fallbackEventSlug fallbackTitle
          = Done (Some m) ->
        exists tokenIds up down,
          parseStringArray rt (S fuel) (clobTokenIds market) = Done tokenIds
          /\ (2 <= length tokenIds)%nat /\ up <> down
          /\ nth_error tokenIds up = Some (upTokenId m)
          /\ nth_error tokenIds down = Some (downTokenId m)
          /\ upTokenId m <> EmptyString /\ downTokenId m <> EmptyString
          /\ sourceText m = candidate
          /\ rm_marketSlug m = or_default (gm_slug market) candidate
          /\ (candidate <> EmptyString ->
              rm_marketSlug m <> EmptyString /\ eventSlug m <> EmptyString
              /\ marketQuestion m <> EmptyString)).
Proof.
  intros Hjson. split; [apply buildResolvedMarket_done; exact Hjson|]. split.
  - intros tokenIds Hids Hlen. unfold buildResolvedMarket. rewrite Hids.
    apply Nat.ltb_lt in Hlen. rewrite Hlen. reflexivity.
  - intros m. apply buildResolvedMarket_some.
Qed.

End BuiltMarkets.

(** The market with token ids 111 and 222 and outcomes Down and Up: the UP
    token is the second one. *)
Lemma built_market_has_two_tokens_witness :
  json_arrays listRuntime
  /\ exists m,
       buildResolvedMarket listRuntime 1 btcSlug
         (gammaMarket None (JStr "[111, 222]") (JStr "Down, Up")) btcSlug btcSlug
       = Done (Some m)
       /\ upTokenId m = "222"%string /\ downTokenId m = "111"%string
       /\ upTokenId m <> EmptyString.
Proof.
  split; [exact listRuntime_json_arrays|].
  eexists. split; [vm_compute; reflexivity|]. split; [reflexivity|]. split; [reflexivity|].
  destruct (proj2 (proj2 (built_market_has_two_tokens listRuntime 0 btcSlug
              (gammaMarket None (JStr "[111, 222]") (JStr "Down, Up")) btcSlug btcSlug
              listRuntime_json_arrays)) _ eq_refl)
    as (ids & up & down & _ & _ & _ & _ & _ & H & _).
  exact H.
Defined.

Section ResolutionInvariants.

Variable rt : JsRuntime.
Variable gamma : Gamma.

Lemma fromMarkets_outcome (fuel : nat) (normalized gammaEventsUrl : string) :
  json_arrays rt ->
  normalized <> EmptyString ->
  exists r,
    fromMarkets rt gamma (S fuel) normalized gammaEventsUrl
    = ([(deriveMarketsUrl gammaEventsUrl ++ "?slug="
         ++ encodeURIComponent gamma normalized)%string], Done r)
    /\ forall m, r = Ok m ->
         sourceText m = normalized
         /\ upTokenId m <> EmptyString /\ downTokenId m <> EmptyString
         /\ upTokenId m <> EmptyString
         /\ rm_marketSlug m <> EmptyString /\ eventSlug m <> EmptyString
         /\ marketQuestion m <> EmptyString.
Proof.
  intros Hjson Hne. unfold fromMarkets.
  destruct (fetchMarkets gamma _) as [response|message].
  2: { eexists. split; [reflexivity|]. discriminate. }
  destruct (ok response); cbn [negb].
  2: { eexists. split; [reflexivity|]. discriminate. }
  destruct (json response) as [body|message].
  2: { eexists. split; [reflexivity|]. discriminate. }
  destruct (pick_market _) as [market|].
  2: { eexists. split; [reflexivity|]. discriminate. }
  destruct (buildResolvedMarket_done rt fuel normalized market normalized normalized Hjson)
    as (built & Hbuilt).
  rewrite Hbuilt. destruct built as [m|].
  2: { eexists. split; [reflexivity|]. discriminate. }
  eexists. split; [reflexivity|]. intros m' E. injection E as <-.
  destruct (buildResolvedMarket_some rt _ _ _ _ _ _ Hbuilt)
    as (ids & up & down & _ & _ & _ & _ & _ & Hu & Hd & Hsrc & _ & Hrest).
  destruct (Hrest Hne) as (H1 & H2 & H3). repeat split; assumption.
Qed.

(** X28. [resolveMarketBySlug] on an engine whose [JSON.parse] returns
    arrays for bracketed text always settles.  A candidate that is blank is
    rejected before anything is fetched.  Otherwise the events endpoint is
    asked first, for the candidate in lower case without surrounding blanks,
    and the markets endpoint at most once after it, for the same slug; a
    rejected first [fetch] is not followed by a second, while an answer
    that is not OK always is.  A market that is returned has that slug as
    its source text, token ids that are not empty, and slugs and a question
    that are not empty. *)
Theorem resolution_asks_events_then_markets (fuel : nat)
    (candidate gammaEventsUrl : string) :
  json_arrays rt ->
  let normalized := toLowerCase (trim candidate) in
  let query := ("?slug=" ++ encodeURIComponent gamma normalized)%string in
  let eventsUrl := (gammaEventsUrl ++ query)%string in
  let marketsUrl := (deriveMarketsUrl gammaEventsUrl ++ query)%string in
  let fetched := fst (resolveMarketBySlug rt gamma (S fuel) candidate gammaEventsUrl) in
  exists r,
    snd (resolveMarketBySlug rt gamma (S fuel) candidate gammaEventsUrl) = Done r
    /\ (normalized = EmptyString ->
        fetched = [] /\ r = Err (Thrown "Market slug is empty."))
    /\ (normalized <> EmptyString ->
        fetched = [eventsUrl] \/ fetched = [eventsUrl; marketsUrl])
    /\ (forall message,
          normalized <> EmptyString ->
          fetchEvents gamma eventsUrl = Rejects message ->
          fetched = [eventsUrl] /\ r = Err (Thrown message))
    /\ (forall response,
          normalized <> EmptyString ->
          fetchEvents gamma eventsUrl = Resolves response -> ok response = false ->
          fetched = [eventsUrl; marketsUrl])
    /\ (forall m, r = Ok m ->
          sourceText m = normalized
          /\ upTokenId m <> EmptyString /\ downTokenId m <> EmptyString
          /\ rm_marketSlug m <> EmptyString /\ eventSlug m <> EmptyString
          /\ marketQuestion m <> EmptyString).
Proof.
  intros Hjson. cbv zeta. unfold resolveMarketBySlug.
  set (normalized := toLowerCase (trim candidate)).
  destruct (String.eqb_spec normalized "") as [E|Hne].
  { eexists. cbn [fst snd]. split; [reflexivity|].
    split; [auto|]. split; [congruence|]. split; [congruence|]. split; [congruence|].
    discriminate. }
  destruct (fromMarkets_outcome fuel normalized gammaEventsUrl Hjson Hne)
    as (r2 & Hsecond & Hok2).
  rewrite Hsecond.
  destruct (fetchEvents gamma _) as [response|message] eqn:Hfirst.
  2: { eexists. cbn [fst snd]. split; [reflexivity|]. split; [congruence|].
       split; [auto|]. split; [intros msg _ E; injection E as <-; auto|].
       split; [discriminate|discriminate]. }
  destruct (ok response) eqn:Hokr.
  2: { exists r2. cbn [fst snd]. split; [reflexivity|]. split; [congruence|].
       split; [auto|]. split; [discriminate|]. split; [auto|].
       intros m Hm. destruct (Hok2 m Hm) as (H1 & H2 & H3 & _ & H4 & H5 & H6).
       repeat split; assumption. }
  destruct (json response) as [events|message].
  2: { eexists. cbn [fst snd]. split; [reflexivity|]. split; [congruence|].
       split; [auto|]. split; [discriminate|].
       split; [intros ? _ E; injection E as <-; congruence|discriminate]. }
  assert (Hfirst_done : exists built,
             fromEvents rt (S fuel) normalized events = Done built
             /\ forall m, built = Some m ->
                  sourceText m = normalized
                  /\ upTokenId m <> EmptyString /\ downTokenId m <> EmptyString
                  /\ rm_marketSlug m <> EmptyString /\ eventSlug m <> EmptyString
                  /\ marketQuestion m <> EmptyString).
  { unfold fromEvents. destruct events as [[|event rest]|];
      try (exists None; split; [reflexivity|discriminate]).
    destruct (pick_market _) as [market|];
      [|exists None; split; [reflexivity|discriminate]].
    destruct (buildResolvedMarket_done rt fuel normalized market
                (or_default (ge_slug event) normalized)
                (or_default (ge_title event) normalized) Hjson) as (built & Hbuilt).
    exists built. split; [exact Hbuilt|]. intros m ->.
    destruct (buildResolvedMarket_some rt _ _ _ _ _ _ Hbuilt)
      as (ids & up & down & _ & _ & _ & _ & _ & Hu & Hd & Hsrc & _ & Hrest).
    destruct (Hrest Hne) as (H1 & H2 & H3). repeat split; assumption. }
  destruct Hfirst_done as (built & -> & Hbuilt).
  destruct built as [m|].
  - eexists. cbn [fst snd]. split; [reflexivity|]. split; [congruence|].
    split; [auto|]. split; [discriminate|].
    split; [intros ? _ E; injection E as <-; congruence|].
    intros m' E. injection E as <-. apply Hbuilt. reflexivity.
  - exists r2. cbn [fst snd]. split; [reflexivity|]. split; [congruence|].
    split; [auto|]. split; [discriminate|]. split; [auto|].
    intros m Hm. destruct (Hok2 m Hm) as (H1 & H2 & H3 & _ & H4 & H5 & H6).
    repeat split; assumption.
Qed.

End ResolutionInvariants.

(** The events endpoint answers 404; the market comes from the markets
    endpoint. *)
Lemma resolution_asks_events_then_markets_witness :
  json_arrays listRuntime
  /\ fst (resolveMarketBySlug listRuntime marketsOnly 1 " BTC-UpDown-15m-1700000000 "
            "https://gamma-api.polymarket.com/events")
     = ["https://gamma-api.polymarket.com/events?slug=btc-updown-15m-1700000000";
        "https://gamma-api.polymarket.com/markets?slug=btc-updown-15m-1700000000"]%string.
Proof.
  split; [exact listRuntime_json_arrays|].
  destruct (resolution_asks_events_then_markets listRuntime marketsOnly 0
              " BTC-UpDown-15m-1700000000 " "https://gamma-api.polymarket.com/events"
              listRuntime_json_arrays) as (r & _ & _ & _ & _ & Hnotok & _).
  exact (Hnotok _ ltac:(discriminate) eq_refl eq_refl).
Defined.

(* ------------------------------------------------------------------ *)
(** ** The market data connection *)

Section TickInvariants.

Variable rt : JsRuntime.
Variable fixed3 : Q -> string.

Lemma last_cons_default (z : Z) (l : list Z) (h d d' : Z) :
  List.last (z :: l) d = List.last (h :: z :: l) d'.
Proof.
  change (List.last (h :: z :: l) d') with (List.last (z :: l) d').
  revert z. induction l as [|y l IH]; intros z; [reflexivity|].
  change (List.last (z :: y :: l) d) with (List.last (y :: l) d).
  change (List.last (z :: y :: l) d') with (List.last (y :: l) d').
  apply IH.
Qed.

(** What one message does: nothing, or one tick, at least 15 s after the
    last one, for a token of the market. *)
Lemma handleOne_step (m : ResolvedMarket) (now : Z) (msg : jsval)
    (s : MarketWs.MarketWsConnection) :
  MarketWs.handleOne rt fixed3 m now msg s = (s, [])
  \/ ((now - MarketWs.lastPriceLogAt s >= 15000)%Z
      /\ exists side price record,
           msg = JObj record
           /\ js_String rt (or_empty (if truthy (prop record "token_id")
                                      then prop record "token_id"
                                      else prop record "asset_id"))
              = tokenIdOf m side
           /\ js_Number rt (prop record "price") = Fin price
           /\ MarketWs.handleOne rt fixed3 m now msg s
              = (MarketWs.recordTick fixed3 now side price s,
                 [MarketWs.LogTick {| MarketWs.tickAt := now; MarketWs.tickSide := side;
                                      MarketWs.tickPrice := price |}])).
Proof.
  destruct msg as [| |b|n|text|items|record]; try (left; reflexivity).
  cbn [MarketWs.handleOne].
  destruct (negb _); [left; reflexivity|].
  destruct (js_Number rt (prop record "price")) as [price| | |] eqn:Hprice;
    try (left; reflexivity).
  destruct (Z.ltb_spec (now - MarketWs.lastPriceLogAt s) 15000) as [|Hage];
    [left; reflexivity|].
  destruct (String.eqb_spec
              (js_String rt (or_empty (if truthy (prop record "token_id")
                                       then prop record "token_id"
                                       else prop record "asset_id")))
              (upTokenId m)) as [Eup|_].
  { right. split; [lia|]. exists UP, price, record.
    split; [reflexivity|]. split; [exact Eup|]. split; [exact Hprice|reflexivity]. }
  destruct (String.eqb_spec
              (js_String rt (or_empty (if truthy (prop record "token_id")
                                       then prop record "token_id"
                                       else prop record "asset_id")))
              (downTokenId m)) as [Edown|_].
  { right. split; [lia|]. exists DOWN, price, record.
    split; [reflexivity|]. split; [exact Edown|]. split; [exact Hprice|reflexivity]. }
  left. reflexivity.
Qed.

Lemma handleEach_ticks (m : ResolvedMarket) (nowAt : nat -> Z) (messages : list jsval) :
  forall (index : nat) (s s' : MarketWs.MarketWsConnection)
         (calls : list MarketWs.WsCall),
    MarketWs.handleEach rt fixed3 m nowAt index messages s = (s', calls) ->
    MarketWs.frame s' = MarketWs.frame s
    /\ Forall (fun c => exists t, c = MarketWs.LogTick t) calls
    /\ MarketWs.spaced (MarketWs.lastPriceLogAt s) (MarketWs.tick_times calls)
    /\ MarketWs.lastPriceLogAt s'
       = List.last (MarketWs.tick_times calls) (MarketWs.lastPriceLogAt s)
    /\ match MarketWs.tick_times calls with
       | [] => s' = s
       | _ :: _ =>
           MarketWs.lastTickAtMs s' = Some (MarketWs.lastPriceLogAt s')
       end.
Proof.
  induction messages as [|msg rest IH]; intros index s s' calls H.
  - cbn in H. injection H as <- <-. repeat split. constructor.
  - cbn [MarketWs.handleEach] in H.
    destruct (MarketWs.handleOne rt fixed3 m (nowAt index) msg s) as [s1 calls1] eqn:H1.
    destruct (MarketWs.handleEach rt fixed3 m nowAt (S index) rest s1)
      as [s2 calls2] eqn:H2.
    injection H as <- <-.
    destruct (IH _ _ _ _ H2) as (Hframe & Hall & Hspaced & Hlast & Hsome).
    destruct (handleOne_step m (nowAt index) msg s)
      as [Hnone|(Hage & side & price & record & _ & _ & _ & Htick)];
      [rewrite Hnone in H1|rewrite Htick in H1]; injection H1 as <- <-.
    + cbn [List.app]. repeat split; assumption.
    + cbn [List.app MarketWs.tick_times MarketWs.tickAt MarketWs.spaced].
      cbn [MarketWs.recordTick MarketWs.lastPriceLogAt] in Hspaced, Hlast.
      split; [exact Hframe|]. split.
      { constructor; [eexists; reflexivity|exact Hall]. }
      split; [split; [exact Hage|exact Hspaced]|].
      split.
      { rewrite Hlast. destruct (MarketWs.tick_times calls2) as [|z l]; [reflexivity|].
        apply last_cons_default. }
      destruct (MarketWs.tick_times calls2) eqn:E.
      * rewrite Hsome. reflexivity.
      * exact Hsome.
Qed.

Lemma handleMessage_frame (nowAt : nat -> Z) (raw : string)
    (s s' : MarketWs.MarketWsConnection) (calls : list MarketWs.WsCall) :
  MarketWs.handleMessage rt fixed3 nowAt raw s = (s', calls) ->
  MarketWs.frame s' = MarketWs.frame s
  /\ Forall (fun c => exists t, c = MarketWs.LogTick t) calls.
Proof.
  unfold MarketWs.handleMessage. intros H.
  destruct (MarketWs.market s) as [m|].
  2: { injection H as <- <-. split; [reflexivity|constructor]. }
  destruct (json_parse rt raw) as [payload|].
  2: { injection H as <- <-. split; [reflexivity|constructor]. }
  destruct (handleEach_ticks m nowAt _ _ _ _ _ H) as (H1 & H2 & _).
  split; assumption.
Qed.

(** X29. A message on the market socket changes nothing but the tick
    record, and reaches neither the socket nor a timer: all it can do is log
    ticks.  Without a market, or when the text is not JSON, it does nothing
    at all.  The ticks logged for one message are at least 15 s apart, the
    first of them at least 15 s after the time the connection remembers as
    that of its last logged tick; and after a tick the connection remembers
    the time of that tick, so the spacing carries over to the next
    message. *)
Theorem ticks_are_fifteen_seconds_apart (nowAt : nat -> Z) (raw : string)
    (s s' : MarketWs.MarketWsConnection) (calls : list MarketWs.WsCall) :
  MarketWs.handleMessage rt fixed3 nowAt raw s = (s', calls) ->
  MarketWs.frame s' = MarketWs.frame s
  /\ Forall (fun c => exists t, c = MarketWs.LogTick t) calls
  /\ MarketWs.spaced (MarketWs.lastPriceLogAt s) (MarketWs.tick_times calls)
  /\ MarketWs.lastPriceLogAt s'
     = List.last (MarketWs.tick_times calls) (MarketWs.lastPriceLogAt s)
  /\ match MarketWs.tick_times calls with
     | [] => s' = s
     | _ :: _ => MarketWs.lastTickAtMs s' = Some (MarketWs.lastPriceLogAt s')
     end
  /\ (MarketWs.market s = None \/ json_parse rt raw = None -> s' = s /\ calls = []).
Proof.
  unfold MarketWs.handleMessage. intros H.
  destruct (MarketWs.market s) as [m|] eqn:Hm.
  2: { injection H as <- <-. repeat split. constructor. }
  destruct (json_parse rt raw) as [payload|] eqn:Hparse.
  2: { injection H as <- <-. repeat split. constructor. }
  destruct (handleEach_ticks m nowAt _ _ _ _ _ H) as (H1 & H2 & H3 & H4 & H5).
  split; [exact H1|]. split; [exact H2|]. split; [exact H3|]. split; [exact H4|].
  split; [exact H5|]. intros [Hnone|Hnone]; discriminate Hnone.
Qed.

End TickInvariants.

(** Sixteen seconds after the last tick, the next one is logged; one second
    after it, it would not be. *)
Lemma ticks_are_fifteen_seconds_apart_witness :
  exists s' calls,
    MarketWs.handleMessage tickRuntime (fun q => print_decimal (Fin q))
      (fun _ => 1700000016000%Z) tickText liveConnection
    = (s', calls)
    /\ MarketWs.tick_times calls = [1700000016000%Z]
    /\ MarketWs.spaced 1700000000000 (MarketWs.tick_times calls)
    /\ MarketWs.lastTickAtMs s' = Some 1700000016000%Z.
Proof.
  destruct (MarketWs.handleMessage tickRuntime (fun q => print_decimal (Fin q))
              (fun _ => 1700000016000%Z) tickText liveConnection)
    as [s' calls] eqn:Hrun.
  pose proof (ticks_are_fifteen_seconds_apart tickRuntime (fun q => print_decimal (Fin q))
                (fun _ => 1700000016000%Z) tickText liveConnection s' calls Hrun)
    as (_ & _ & Hspaced & _).
  vm_compute in Hrun. injection Hrun as <- <-.
  eexists _, _. split; [reflexivity|]. split; [reflexivity|].
  split; [exact Hspaced|reflexivity].
Defined.

Section Lifecycle.

Variable rt : JsRuntime.
Variable fixed3 : Q -> string.
Variable config : FullConfig.

Lemma idle_app (a b : list MarketWs.WsCall) :
  forallb MarketWs.idle_call a = true -> forallb MarketWs.idle_call b = true ->
  forallb MarketWs.idle_call (a ++ b) = true.
Proof. intros Ha Hb. rewrite forallb_app, Ha, Hb. reflexivity. Qed.

Lemma ticks_are_idle (calls : list MarketWs.WsCall) :
  Forall (fun c => exists t, c = MarketWs.LogTick t) calls ->
  forallb MarketWs.idle_call calls = true.
Proof.
  induction 1 as [|c calls [t ->] _ IH]; [reflexivity|]. cbn. exact IH.
Qed.

(** While it is stopped and holds no socket, the connection answers every
    event but [start] with idle calls, and stays as it is. *)
Lemma dispatch_stopped (e : MarketWs.Event) (s : MarketWs.MarketWsConnection) :
  MarketWs.is_start e = false ->
  MarketWs.stopped s = true -> MarketWs.ws s = None ->
  let result := MarketWs.dispatch rt fixed3 config e s in
  MarketWs.stopped (fst result) = true /\ MarketWs.ws (fst result) = None
  /\ MarketWs.created (fst result) = MarketWs.created s
  /\ forallb MarketWs.idle_call (snd result) = true.
Proof.
  intros He Hstopped Hws. cbv zeta.
  destruct e as [| |m|ready|nowAt raw| | |ready|]; try discriminate He;
    cbn [MarketWs.dispatch].
  - destruct s. cbn in *. subst.
    destruct pingTimer, reconnectTimer; repeat split.
  - unfold MarketWs.updateMarket.
    destruct (negb _); cbn [fst snd MarketWs.stopped MarketWs.ws MarketWs.created
                            MarketWs.started].
    + auto.
    + rewrite Hstopped. rewrite orb_true_r. cbn. auto.
  - unfold MarketWs.onOpen. destruct (MarketWs.market s); [|cbn; auto].
    unfold MarketWs.startPing, MarketWs.stopPing, MarketWs.subscribe.
    cbn [MarketWs.ws MarketWs.pingTimer]. rewrite Hws.
    destruct (MarketWs.pingTimer s); cbn; auto.
  - destruct (MarketWs.handleMessage rt fixed3 nowAt raw s) as [s' calls] eqn:H.
    destruct (handleMessage_frame rt fixed3 nowAt raw s s' calls H)
      as (Hframe & Hticks).
    unfold MarketWs.frame in Hframe. cbn [fst snd].
    injection Hframe as E1 _ _ _ _ E6 _ E8.
    rewrite E1, E6, E8. repeat split; try assumption. apply ticks_are_idle. exact Hticks.
  - cbn. auto.
  - unfold MarketWs.onClose, MarketWs.stopPing.
    destruct (MarketWs.pingTimer s); cbn [MarketWs.stopped]; rewrite Hstopped; cbn; auto.
  - unfold MarketWs.onPing. rewrite Hws. cbn. auto.
  - unfold MarketWs.connect. rewrite Hstopped. cbn. auto.
Qed.

(** Before a market is set, and while it holds no socket, the connection
    answers every event but [updateMarket] with calls off the wire. *)
Lemma dispatch_without_market (e : MarketWs.Event) (s : MarketWs.MarketWsConnection) :
  MarketWs.is_update e = false ->
  MarketWs.market s = None -> MarketWs.ws s = None ->
  let result := MarketWs.dispatch rt fixed3 config e s in
  MarketWs.market (fst result) = None /\ MarketWs.ws (fst result) = None
  /\ existsb MarketWs.on_the_wire (snd result) = false.
Proof.
  intros He Hmarket Hws. cbv zeta.
  destruct e as [| |m|ready|nowAt raw| | |ready|]; try discriminate He;
    cbn [MarketWs.dispatch].
  - unfold MarketWs.start. cbn [MarketWs.market]. rewrite Hmarket. cbn. auto.
  - unfold MarketWs.stop. rewrite Hws. cbn [fst snd MarketWs.market MarketWs.ws].
    destruct (MarketWs.pingTimer s), (MarketWs.reconnectTimer s); cbn; auto.
  - unfold MarketWs.onOpen. rewrite Hmarket. cbn. auto.
  - unfold MarketWs.handleMessage. rewrite Hmarket. cbn. auto.
  - cbn. auto.
  - unfold MarketWs.onClose, MarketWs.stopPing.
    destruct (MarketWs.pingTimer s), (MarketWs.stopped s) eqn:Hs;
      cbn [MarketWs.stopped]; rewrite ?Hs; cbn; auto.
  - unfold MarketWs.onPing. rewrite Hws. cbn. auto.
  - unfold MarketWs.connect. rewrite Hmarket. rewrite orb_true_r. cbn. auto.
Qed.

(** X30. The market data connection is quiet when it should be.  After
    [stop], whatever happens short of [start] (a new market, a late open,
    message or close of the old socket, a timer that still fires), no
    socket is created, terminated or written to and no reconnect is
    scheduled: the connection stays stopped without a socket.  A new
    connection that has not been given a market creates no socket and sends
    nothing, started or not.  And [updateMarket] with a market of the same
    slug and token ids as the current one replaces the market and does
    nothing else. *)
Theorem quiet_when_stopped_or_without_market :
  (forall events s,
     forallb (fun e => negb (MarketWs.is_start e)) events = true ->
     let result := MarketWs.run rt fixed3 config events (fst (MarketWs.stop s)) in
     forallb MarketWs.idle_call (snd result) = true
     /\ MarketWs.stopped (fst result) = true /\ MarketWs.ws (fst result) = None
     /\ MarketWs.created (fst result) = MarketWs.created s)
  /\ (forall events,
        forallb (fun e => negb (MarketWs.is_update e)) events = true ->
        let result := MarketWs.run rt fixed3 config events MarketWs.newMarketWsConnection in
        existsb MarketWs.on_the_wire (snd result) = false
        /\ MarketWs.ws (fst result) = None)
  /\ (forall m current s,
        MarketWs.market s = Some current -> same_identity current m ->
        snd (MarketWs.updateMarket config m s) = []
        /\ MarketWs.market (fst (MarketWs.updateMarket config m s)) = Some m
        /\ MarketWs.frame (fst (MarketWs.updateMarket config m s))
           = (MarketWs.ws s, MarketWs.pingTimer s, MarketWs.reconnectTimer s, Some m,
              MarketWs.started s, MarketWs.stopped s, MarketWs.connected s,
              MarketWs.created s)
        /\ MarketWs.lastTickAtMs (fst (MarketWs.updateMarket config m s))
           = MarketWs.lastTickAtMs s).
Proof.
  split; [|split].
  - intros events s Hevents. cbv zeta.
    assert (Hgen : forall s0,
               MarketWs.stopped s0 = true -> MarketWs.ws s0 = None ->
               forallb MarketWs.idle_call (snd (MarketWs.run rt fixed3 config events s0))
               = true
               /\ MarketWs.stopped (fst (MarketWs.run rt fixed3 config events s0)) = true
               /\ MarketWs.ws (fst (MarketWs.run rt fixed3 config events s0)) = None
               /\ MarketWs.created (fst (MarketWs.run rt fixed3 config events s0))
                  = MarketWs.created s0).
    { induction events as [|e rest IH]; intros s0 Hs Hw; [cbn; auto|].
      cbn [forallb] in Hevents. apply andb_true_iff in Hevents as [He Hrest].
      apply negb_true_iff in He.
      pose proof (dispatch_stopped e s0 He Hs Hw) as (H1 & H2 & H3 & H4).
      cbn [MarketWs.run].
      destruct (MarketWs.dispatch rt fixed3 config e s0) as [s1 calls1].
      cbn [fst snd] in H1, H2, H3, H4.
      destruct (IH Hrest s1 H1 H2) as (I1 & I2 & I3 & I4).
      destruct (MarketWs.run rt fixed3 config rest s1) as [s2 calls2].
      cbn [fst snd] in *. split; [apply idle_app; assumption|].
      split; [exact I2|]. split; [exact I3|]. congruence. }
    apply (Hgen (fst (MarketWs.stop s))); reflexivity.
  - intros events Hevents. cbv zeta.
    assert (Hgen : forall s0,
               MarketWs.market s0 = None -> MarketWs.ws s0 = None ->
               existsb MarketWs.on_the_wire (snd (MarketWs.run rt fixed3 config events s0))
               = false
               /\ MarketWs.ws (fst (MarketWs.run rt fixed3 config events s0)) = None).
    { induction events as [|e rest IH]; intros s0 Hm Hw; [cbn; auto|].
      cbn [forallb] in Hevents. apply andb_true_iff in Hevents as [He Hrest].
      apply negb_true_iff in He.
      pose proof (dispatch_without_market e s0 He Hm Hw) as (H1 & H2 & H3).
      cbn [MarketWs.run].
      destruct (MarketWs.dispatch rt fixed3 config e s0) as [s1 calls1].
      cbn [fst snd] in H1, H2, H3.
      destruct (IH Hrest s1 H1 H2) as (I1 & I2).
      destruct (MarketWs.run rt fixed3 config rest s1) as [s2 calls2].
      cbn [fst snd] in *. split; [|exact I2].
      rewrite existsb_app, H3, I1. reflexivity. }
    apply Hgen; reflexivity.
  - intros m current s Hm (Hslug & Hup & Hdown). unfold MarketWs.updateMarket.
    rewrite Hm, Hslug, Hup, Hdown, !String.eqb_refl. cbn. auto.
Qed.

End Lifecycle.
